(** * AgentUI orchestration core: a shallow embedding of
      [agent_core/core/agent_manager.py] and [agent_core/api/routes.py]

    The development follows the Python source function by function and
    keeps its names.
    - A Python [str] is a [string] that holds its UTF-8 encoding, one
      [ascii] per byte.  Texts are compared, searched and concatenated
      byte by byte, which on UTF-8 is character by character; the
      operations that look at characters, [strip] and [\s], see white
      space as Python does, in its encodings of one to three bytes.
    - JSON documents (configuration, parameters, replies of the services)
      are values of [Py.value]; an attribute or method that a value lacks
      raises as in Python.  A submission is a mapping whose [tool_type] is
      a string and whose [parameters] are a mapping, as the schema of the
      task store has them.
    - Dictionaries whose iteration order is observed ([llm_clients], the
      provider sets, result mappings) are association lists in insertion
      order; the task map, whose order is never observed, is a [gmap].
    - Exceptions are values: a function that may raise returns a sum, and
      [try]/[except] is a match on it.  State that a function mutates
      before it raises is kept.
    - Every request to the outside (configuration endpoint, provider SDKs,
      tool services, file system) takes its outcome from a [World].
    - [process_task] is a coroutine: it is split at its suspension, into
      the part that stores the record and the part that runs when
      [_process_with_llm] has returned, so that other operations can come
      in between. *)

From Stdlib Require Import Ascii String Arith ZArith Lia.
From stdpp Require Import base option strings list gmap pretty.

Local Open Scope string_scope.
Local Open Scope nat_scope.

(** ** Python strings *)

Module PyStr.

(** [str.isspace] is true of 29 code points, the same that [\s] of the [re]
    module matches in a [str] pattern.  In UTF-8 they take one byte
    (U+0009..U+000D, U+001C..U+0020), two bytes (U+0085, U+00A0: C2 85,
    C2 A0) or three (U+1680: E1 9A 80; U+2000..U+200A, U+2028, U+2029,
    U+202F: E2 80 80..8A, A8, A9, AF; U+205F: E2 81 9F; U+3000: E3 80 80). *)
Definition isspace1 (a : ascii) : bool :=
  let n := nat_of_ascii a in
  ((9 <=? n) && (n <=? 13)) || ((28 <=? n) && (n <=? 32)).

Definition isspace2 (a b : ascii) : bool :=
  (nat_of_ascii a =? 194)
  && ((nat_of_ascii b =? 133) || (nat_of_ascii b =? 160)).

Definition isspace3 (a b c : ascii) : bool :=
  let x := nat_of_ascii a in
  let y := nat_of_ascii b in
  let z := nat_of_ascii c in
  ((x =? 225) && (y =? 154) && (z =? 128))
  || ((x =? 226) && (y =? 128)
      && (((128 <=? z) && (z <=? 138))
          || (z =? 168) || (z =? 169) || (z =? 175)))
  || ((x =? 226) && (y =? 129) && (z =? 159))
  || ((x =? 227) && (y =? 128) && (z =? 128)).

(** What follows the white-space character that [s] starts with, when it
    starts with one. *)
Definition after_space (s : string) : option string :=
  match s with
  | String a s1 =>
      if isspace1 a then Some s1
      else
        match s1 with
        | String b s2 =>
            if isspace2 a b then Some s2
            else
              match s2 with
              | String c s3 => if isspace3 a b c then Some s3 else None
              | EmptyString => None
              end
        | EmptyString => None
        end
  | EmptyString => None
  end.

(** [s.lstrip()] *)
Fixpoint lstrip (s : string) : string :=
  match s with
  | String a s1 =>
      if isspace1 a then lstrip s1
      else
        match s1 with
        | String b s2 =>
            if isspace2 a b then lstrip s2
            else
              match s2 with
              | String c s3 => if isspace3 a b c then lstrip s3 else s
              | EmptyString => s
              end
        | EmptyString => s
        end
  | EmptyString => EmptyString
  end.

(** [s.rstrip()]: the text up to the first position from which only white
    space follows. *)
Fixpoint rstrip (s : string) : string :=
  match s with
  | EmptyString => EmptyString
  | String a s' =>
      match lstrip s with
      | EmptyString => EmptyString
      | _ => String a (rstrip s')
      end
  end.

(** [s.strip()] *)
Definition strip (s : string) : string := rstrip (lstrip s).

(** [s.startswith(l)], returning what follows the prefix. *)
Fixpoint strip_prefix (l s : string) : option string :=
  match l, s with
  | EmptyString, _ => Some s
  | String a l', String b s' =>
      if Ascii.eqb a b then strip_prefix l' s' else None
  | String _ _, EmptyString => None
  end.

(** [s[n:]] on bytes; it is applied to the length of a literal that the
    text starts with. *)
Fixpoint drop_chars (n : nat) (s : string) : string :=
  match n, s with
  | 0, _ => s
  | S n', String _ s' => drop_chars n' s'
  | S _, EmptyString => EmptyString
  end.

(** [s.partition(needle)] when the needle occurs: the text before the first
    occurrence and the text after it. *)
Fixpoint split_at_first (needle s : string) : option (string * string) :=
  match strip_prefix needle s with
  | Some rest => Some (EmptyString, rest)
  | None =>
      match s with
      | String c s' =>
          match split_at_first needle s' with
          | Some (b, a) => Some (String c b, a)
          | None => None
          end
      | EmptyString => None
      end
  end.

(** [s.rpartition(needle)] when the needle occurs. *)
Fixpoint split_at_last (needle s : string) : option (string * string) :=
  match s with
  | String c s' =>
      match split_at_last needle s' with
      | Some (b, a) => Some (String c b, a)
      | None =>
          match strip_prefix needle s with
          | Some rest => Some (EmptyString, rest)
          | None => None
          end
      end
  | EmptyString =>
      match strip_prefix needle EmptyString with
      | Some rest => Some (EmptyString, rest)
      | None => None
      end
  end.

(** [needle in s] *)
Definition contains (needle s : string) : bool :=
  match split_at_first needle s with Some _ => true | None => false end.

(** [bool(s)] for a string. *)
Definition truthy (s : string) : bool :=
  match s with EmptyString => false | String _ _ => true end.

End PyStr.

(** ** Python values, dictionaries and exceptions *)

Module Py.

(** JSON-like values.  A float is a decimal literal [mantissa * 10^exponent]
    that is carried around and never computed with. *)
#[warnings="-register-all"]
Inductive value : Type :=
| VNone
| VBool (b : bool)
| VInt (n : Z)
| VFloat (mantissa exponent : Z)
| VStr (s : string)
| VList (l : list value)
| VDict (d : list (string * value)).

(** A [dict] with string keys, in insertion order, keys distinct. *)
Definition dict (A : Type) : Type := list (string * A).

Fixpoint lookup {A} (k : string) (d : dict A) : option A :=
  match d with
  | [] => None
  | (k', v) :: d' => if String.eqb k k' then Some v else lookup k d'
  end.

(** [k in d] *)
Definition mem {A} (k : string) (d : dict A) : bool :=
  match lookup k d with Some _ => true | None => false end.

(** [d.keys()] *)
Definition keys {A} (d : dict A) : list string := d.*1.

(** [d[k] = v]: an existing key keeps its position, a new one goes last. *)
Fixpoint assign {A} (k : string) (v : A) (d : dict A) : dict A :=
  match d with
  | [] => [(k, v)]
  | (k', v') :: d' =>
      if String.eqb k k' then (k, v) :: d' else (k', v') :: assign k v d'
  end.

(** [d.get(k, default)] *)
Definition get (d : dict value) (k : string) (default : value) : value :=
  match lookup k d with Some v => v | None => default end.

(** [bool(v)] *)
Definition truthy (v : value) : bool :=
  match v with
  | VNone => false
  | VBool b => b
  | VInt n => negb (n =? 0)%Z
  | VFloat m _ => negb (m =? 0)%Z
  | VStr s => PyStr.truthy s
  | VList l => match l with [] => false | _ => true end
  | VDict d => match d with [] => false | _ => true end
  end.

Definition type_name (v : value) : string :=
  match v with
  | VNone => "NoneType"
  | VBool _ => "bool"
  | VInt _ => "int"
  | VFloat _ _ => "float"
  | VStr _ => "str"
  | VList _ => "list"
  | VDict _ => "dict"
  end.

Inductive exn_class : Type :=
| Exception | ValueError | AttributeError | TypeError | IndexError
| KeyError | JSONDecodeError
| RequestException      (* requests.exceptions.RequestException *)
| RequestError          (* httpx.RequestError *)
| HTTPStatusError.      (* httpx.HTTPStatusError *)

(** An exception: its class, [str(e)] and, for [HTTPStatusError], the
    status code and the text of the response it carries. *)
Record exn : Type := Exn {
  cls : exn_class;
  msg : string;
  status_code : nat;
  response_text : string
}.

Definition raise_ (c : exn_class) (m : string) : exn := Exn c m 0 "".

(** A computation that returns a value or raises. *)
Definition may_raise (A : Type) : Type := exn + A.

Definition bind {A B} (x : may_raise A) (k : A -> may_raise B) : may_raise B :=
  match x with
  | inl e => inl e
  | inr a => k a
  end.

(** [e] is caught by [except Exception] in every case; [except C] for a
    library class catches that class only. *)
Definition is_class (c : exn_class) (e : exn) : bool :=
  match c, cls e with
  | RequestException, RequestException => true
  | RequestError, RequestError => true
  | HTTPStatusError, HTTPStatusError => true
  | _, _ => false
  end.

Definition no_attribute (v : value) (attr : string) : exn :=
  raise_ AttributeError
    ("'" +:+ type_name v +:+ "' object has no attribute '" +:+ attr +:+ "'").

(** [v.get(k, default)] on an arbitrary value. *)
Definition get_of (v : value) (k : string) (default : value) : may_raise value :=
  match v with
  | VDict d => inr (get d k default)
  | _ => inl (no_attribute v "get")
  end.

(** [v.items()] on an arbitrary value. *)
Definition items_of (v : value) : may_raise (list (string * value)) :=
  match v with
  | VDict d => inr d
  | _ => inl (no_attribute v "items")
  end.

(** [v.strip()] on an arbitrary value. *)
Definition strip_of (v : value) : may_raise string :=
  match v with
  | VStr s => inr (PyStr.strip s)
  | _ => inl (no_attribute v "strip")
  end.

Definition unhashable (v : value) : exn :=
  raise_ TypeError ("unhashable type: '" +:+ type_name v +:+ "'").

(** [v in d] for a dictionary [d] with string keys. *)
Definition key_in {A} (v : value) (d : dict A) : may_raise bool :=
  match v with
  | VStr s => inr (mem s d)
  | VList _ | VDict _ => inl (unhashable v)
  | _ => inr false
  end.

(** [needle in v] for a string literal [needle]. *)
Definition str_in (needle : string) (v : value) : may_raise bool :=
  match v with
  | VStr s => inr (PyStr.contains needle s)
  | VList l =>
      inr (existsb (fun x => match x with
                             | VStr s => String.eqb s needle
                             | _ => false end) l)
  | VDict d => inr (mem needle d)
  | _ => inl (raise_ TypeError
                ("argument of type '" +:+ type_name v +:+ "' is not iterable"))
  end.

End Py.

Notation "x <- e ;; k" := (Py.bind e (fun x => k))
  (at level 100, e at next level, k at level 200, right associativity,
   only parsing).

(** ** The fragment of [re] used by the source

    The five patterns of the source are sequences of four kinds of items: a
    literal, [\s*] (greedy), the capturing [(.*?)] (lazy, with [re.DOTALL])
    and [.*] (greedy, with [re.DOTALL]).  [match_here] is the backtracking
    matcher of [re] on such sequences, with its priorities: a greedy item
    tries the longest repetition first, a lazy one the shortest.

    The matcher runs on the UTF-8 encoding.  [\s*] repeats over whole
    white-space characters.  [.] with [re.DOTALL] matches any character,
    and the two items built on it advance one byte at a time: in the
    patterns of the source they are followed by an ASCII literal, by
    [\s*] and an ASCII literal, or by nothing, none of which matches
    inside the encoding of a character, so the positions tried in between
    change no result.  The same holds for [re.search], whose patterns
    all start with an ASCII literal. *)

Module Re.
Import PyStr.

Inductive item : Type :=
| Lit (l : string)
| SpaceStar
| GroupLazy
| AnyStar.

Definition pattern : Type := list item.

(** A match object: [group(0)] and [group(1)]. *)
Record rmatch : Type := RMatch { group0 : string; group1 : string }.

Definition empty_match : rmatch := RMatch EmptyString EmptyString.

Definition consume (c : ascii) (m : rmatch) : rmatch :=
  RMatch (String c (group0 m)) (group1 m).

Definition capture (c : ascii) (m : rmatch) : rmatch :=
  RMatch (String c (group0 m)) (String c (group1 m)).

Definition consume_lit (l : string) (m : rmatch) : rmatch :=
  RMatch (l +:+ group0 m) (group1 m).

(** A greedy [c*] over a class of bytes, followed by the rest [k] of the
    pattern: the longest repetition is tried first. *)
Fixpoint greedy_star (cls : ascii -> bool) (k : string -> option rmatch)
    (s : string) : option rmatch :=
  match s with
  | String c s' =>
      if cls c then
        match greedy_star cls k s' with
        | Some m => Some (consume c m)
        | None => k s
        end
      else k s
  | EmptyString => k s
  end.

(** The greedy [\s*] followed by the rest [k] of the pattern: one
    repetition is one white-space character, of one, two or three bytes,
    and the longest repetition is tried first. *)
Fixpoint greedy_spaces (k : string -> option rmatch) (s : string)
    : option rmatch :=
  match s with
  | String a s1 =>
      if isspace1 a then
        match greedy_spaces k s1 with
        | Some m => Some (consume a m)
        | None => k s
        end
      else
        match s1 with
        | String b s2 =>
            if isspace2 a b then
              match greedy_spaces k s2 with
              | Some m => Some (consume a (consume b m))
              | None => k s
              end
            else
              match s2 with
              | String c s3 =>
                  if isspace3 a b c then
                    match greedy_spaces k s3 with
                    | Some m => Some (consume a (consume b (consume c m)))
                    | None => k s
                    end
                  else k s
              | EmptyString => k s
              end
        | EmptyString => k s
        end
  | EmptyString => k s
  end.

(** The lazy capturing [(.*?)] followed by the rest [k] of the pattern: the
    shortest repetition is tried first. *)
Fixpoint lazy_group (k : string -> option rmatch) (s : string)
    : option rmatch :=
  match k s with
  | Some m => Some m
  | None =>
      match s with
      | String c s' => capture c <$> lazy_group k s'
      | EmptyString => None
      end
  end.

Definition any_char (_ : ascii) : bool := true.

Fixpoint match_here (p : pattern) (s : string) {struct p} : option rmatch :=
  match p with
  | [] => Some empty_match
  | Lit l :: p' =>
      match strip_prefix l s with
      | Some s' => consume_lit l <$> match_here p' s'
      | None => None
      end
  | SpaceStar :: p' => greedy_spaces (match_here p') s
  | GroupLazy :: p' => lazy_group (match_here p') s
  | AnyStar :: p' => greedy_star any_char (match_here p') s
  end.

(** [re.search]: the match at the leftmost position that has one. *)
Fixpoint search (p : pattern) (s : string) : option rmatch :=
  match match_here p s with
  | Some m => Some m
  | None =>
      match s with
      | String _ s' => search p s'
      | EmptyString => None
      end
  end.

Definition fence : string := "```".

(** [r'```json\s*(.*?)\s*```'] and its siblings, and the two tails of
    such a pattern: what follows the opening, and the closing [\s*```]. *)
Definition fenced_pattern (opening : string) : pattern :=
  [Lit opening; SpaceStar; GroupLazy; SpaceStar; Lit fence].

Definition after_opening : pattern :=
  [SpaceStar; GroupLazy; SpaceStar; Lit fence].

Definition closing : pattern := [SpaceStar; Lit fence].

(** [r'\{.*\}'] *)
Definition json_object_pattern : pattern := [Lit "{"; AnyStar; Lit "}"].

(** [r'\documentclass.*'] *)
Definition documentclass : string := "\documentclass".
Definition documentclass_pattern : pattern := [Lit documentclass; AnyStar].

End Re.

(** ** Extraction of a payload from an LLM reply *)

Module Extract.
Import PyStr Re.

(** [AgentManager._extract_json_data] *)
Definition _extract_json_data (response : string) : string :=
  match search (fenced_pattern "```json") response with
  | Some json_match => strip (group1 json_match)
  | None =>
      match search (fenced_pattern "```") response with
      | Some code_match => strip (group1 code_match)
      | None =>
          match search json_object_pattern response with
          | Some json_obj_match => strip (group0 json_obj_match)
          | None => strip response
          end
      end
  end.

(** [AgentManager._extract_latex_code] *)
Definition _extract_latex_code (response : string) : string :=
  match search (fenced_pattern "```latex") response with
  | Some latex_match => strip (group1 latex_match)
  | None =>
      match search (fenced_pattern "```") response with
      | Some code_match => strip (group1 code_match)
      | None =>
          match search documentclass_pattern response with
          | Some doc_match => strip (group0 doc_match)
          | None => strip response
          end
      end
  end.

(** *** The extraction rules in words

    The rules as the specification lists them, stated directly on the text
    with [partition] and [rpartition]; they are compared with the regular
    expressions of the source below. *)

Definition rule : Type := string -> option string.

(** (a), (b): the text between the first fence that is directly followed
    by [tag] and the next fence after it, trimmed.  With the empty tag it
    is the text between the first two fences. *)
Definition fenced_block (tag : string) : rule := fun s =>
  match split_at_first (fence +:+ tag) s with
  | Some (_, r) =>
      match split_at_first fence r with
      | Some (body, _) => Some (strip body)
      | None => None
      end
  | None => None
  end.

(** (c) for JSON, as the source has it: from the first opening brace to the
    last closing brace after it. *)
Definition brace_span : rule := fun s =>
  match split_at_first "{" s with
  | Some (_, r) =>
      match split_at_last "}" r with
      | Some (inner, _) => Some (strip ("{" +:+ inner +:+ "}"))
      | None => None
      end
  | None => None
  end.

(** (c) for LaTeX: from the first document-start marker to the end. *)
Definition from_documentclass : rule := fun s =>
  match split_at_first documentclass s with
  | Some (_, r) => Some (strip (documentclass +:+ r))
  | None => None
  end.

(** The first rule that matches wins; the trimmed text is the fallback. *)
Fixpoint first_match (rules : list rule) (s : string) : string :=
  match rules with
  | [] => strip s
  | r :: rules' =>
      match r s with
      | Some x => x
      | None => first_match rules' s
      end
  end.

(** (c) for JSON, as the specification words it: the first balanced
    brace-delimited span.  [balanced_close depth s] is the text up to and
    including the brace that closes [depth] open ones. *)
Fixpoint balanced_close (depth : nat) (s : string) : option string :=
  match s with
  | EmptyString => None
  | String c s' =>
      if Ascii.eqb c "{" then String c <$> balanced_close (S depth) s'
      else if Ascii.eqb c "}" then
        match depth with
        | 0 => Some (String c EmptyString)
        | S d => String c <$> balanced_close d s'
        end
      else String c <$> balanced_close depth s'
  end.

Definition first_balanced_span : rule := fun s =>
  match split_at_first "{" s with
  | Some (_, r) => (fun x => strip ("{" +:+ x)) <$> balanced_close 0 r
  | None => None
  end.

(** (a) and (b), as the specification words them: a fenced block is an
    opening fence, a tag -- the text up to the first white space or
    backquote --, a content and the next fence.  [blocks] lists the tag
    and the content of the fenced blocks of a text, in order. *)
Fixpoint tag_and_content (s : string) : string * string :=
  match s with
  | EmptyString => (EmptyString, EmptyString)
  | String c s' =>
      match after_space s with
      | Some _ => (EmptyString, s)
      | None =>
          if Ascii.eqb c "`" then (EmptyString, s)
          else let '(tag, content) := tag_and_content s' in
               (String c tag, content)
      end
  end.

Fixpoint blocks_from (fuel : nat) (s : string) : list (string * string) :=
  match fuel with
  | 0 => []
  | S fuel' =>
      match split_at_first fence s with
      | Some (_, r) =>
          let '(tag, rest) := tag_and_content r in
          match split_at_first fence rest with
          | Some (content, after) =>
              (tag, content) :: blocks_from fuel' after
          | None => []
          end
      | None => []
      end
  end.

Definition blocks (s : string) : list (string * string) :=
  blocks_from (String.length s) s.

(** (a): the content of the first block tagged [tag]. *)
Definition tagged_block (tag : string) : rule := fun s =>
  (fun b => strip b.2) <$> List.find (fun b => String.eqb b.1 tag) (blocks s).

(** (b): the content of the first block, whatever its tag. *)
Definition any_block : rule := fun s =>
  (fun b => strip b.2) <$> head (blocks s).

End Extract.


(** ** The manager and the world around it *)

Module Core.
Import Py.

Inductive Sdk : Type := Anthropic | AsyncOpenAI | GenaiClient.

(** A client handle: the constructor that built it and its arguments. *)
Record Client : Type := {
  sdk : Sdk;
  client_api_key : value;
  client_base_url : value
}.

(** The body of a submission, [task_data]: the mapping as it was
    submitted, with what [process_task] reads from it --
    [task_data.get("tool_type", "")], a string, and
    [task_data.get("parameters", {})], a mapping, as the schema of the
    task store has them. *)
Record TaskData : Type := {
  task_info : dict value;
  tool_type : string;
  parameters : dict value;
  tool_type_read : get task_info "tool_type" (VStr "") = VStr tool_type;
  parameters_read :
    get task_info "parameters" (VDict []) = VDict parameters
}.

(** One entry of [AgentManager.tasks]. *)
Record TaskRecord : Type := {
  status : string;
  data : TaskData;
  result : value;
  error : value
}.

(** [AgentManager].  [backend_puts] is not an attribute of the class: it is
    the trace of the [PUT] requests issued to the task store, oldest
    first, each with its task id and body. *)
Record Manager : Type := {
  tasks : gmap string TaskRecord;
  running : bool;
  mcp_clients : dict string;
  llm_clients : dict Client;
  llm_config : value;
  current_provider : option string;
  llm_status : value;
  backend_puts : list (string * dict value)
}.

Definition with_tasks (f : gmap string TaskRecord -> gmap string TaskRecord)
    (m : Manager) : Manager :=
  {| tasks := f (tasks m); running := running m;
     mcp_clients := mcp_clients m; llm_clients := llm_clients m;
     llm_config := llm_config m; current_provider := current_provider m;
     llm_status := llm_status m; backend_puts := backend_puts m |}.

Definition with_llm_clients (f : dict Client -> dict Client) (m : Manager)
    : Manager :=
  {| tasks := tasks m; running := running m;
     mcp_clients := mcp_clients m; llm_clients := f (llm_clients m);
     llm_config := llm_config m; current_provider := current_provider m;
     llm_status := llm_status m; backend_puts := backend_puts m |}.

Definition with_llm_status (st : value) (m : Manager) : Manager :=
  {| tasks := tasks m; running := running m;
     mcp_clients := mcp_clients m; llm_clients := llm_clients m;
     llm_config := llm_config m; current_provider := current_provider m;
     llm_status := st; backend_puts := backend_puts m |}.

Definition with_provider (name : string) (config : value) (m : Manager)
    : Manager :=
  {| tasks := tasks m; running := running m;
     mcp_clients := mcp_clients m; llm_clients := llm_clients m;
     llm_config := config; current_provider := Some name;
     llm_status := llm_status m; backend_puts := backend_puts m |}.

Definition with_mcp_client (name url : string) (m : Manager) : Manager :=
  {| tasks := tasks m; running := running m;
     mcp_clients := assign name url (mcp_clients m);
     llm_clients := llm_clients m;
     llm_config := llm_config m; current_provider := current_provider m;
     llm_status := llm_status m; backend_puts := backend_puts m |}.

Definition with_running (b : bool) (m : Manager) : Manager :=
  {| tasks := tasks m; running := b;
     mcp_clients := mcp_clients m; llm_clients := llm_clients m;
     llm_config := llm_config m; current_provider := current_provider m;
     llm_status := llm_status m; backend_puts := backend_puts m |}.

Definition with_put (task_id : string) (update_data : dict value)
    (m : Manager) : Manager :=
  {| tasks := tasks m; running := running m;
     mcp_clients := mcp_clients m; llm_clients := llm_clients m;
     llm_config := llm_config m; current_provider := current_provider m;
     llm_status := llm_status m;
     backend_puts := backend_puts m ++ [(task_id, update_data)] |}.

(** [AgentManager.__init__] *)
Definition init_manager : Manager :=
  {| tasks := ∅; running := false; mcp_clients := []; llm_clients := [];
     llm_config := VNone; current_provider := None;
     llm_status := VDict [("configured", VBool false);
                          ("current_provider", VNone);
                          ("current_model", VNone);
                          ("provider_configs", VDict []);
                          ("last_updated", VNone)];
     backend_puts := [] |}.

(** The answer of [requests.get] to the configuration request. *)
Inductive FetchOutcome : Type :=
| FetchRaises (e : exn)
| FetchReply (status_code : nat) (json : may_raise value).

(** The answer of an [httpx] request to a tool service. *)
Inductive HttpOutcome : Type :=
| HttpRaises (e : exn)
| HttpReply (status_code : nat) (text : string) (json : may_raise value).

(** A chat message, [{"role": ..., "content": ...}]. *)
Record Message : Type := { role : string; content : value }.

(** An attribute of an SDK object as the source looks at it: absent
    ([hasattr] is false), [None], or a value. *)
Inductive attribute (A : Type) : Type :=
| Absent
| IsNone
| Has (v : A).

Arguments Absent {A}.
Arguments IsNone {A}.
Arguments Has {A} v.

(** Replies of the three SDK families, with the attributes the source
    reads. *)
Record ChatCompletion : Type := {
  choices : list (option string)  (* choices[i].message.content, or None *)
}.

Record ContentBlock : Type := {
  text : attribute string;              (* the [text] attribute *)
  block_str : string                    (* str(block) *)
}.

Record AnthropicMessage : Type := {
  content_blocks : attribute (list ContentBlock)  (* the [content] attribute *)
}.

Record GenerateContentResponse : Type := {
  candidates : list (list value)        (* candidates[i].content.parts[j].text *)
}.

Record ChatRequest : Type := {
  chat_model : value;
  chat_messages : list Message;
  chat_max_tokens : value;
  chat_temperature : value
}.

Record AnthropicRequest : Type := {
  a_model : value;
  a_max_tokens : value;
  a_temperature : value;
  a_system : option value;
  a_messages : list Message
}.

Record GeminiRequest : Type := {
  g_model : string;
  g_contents : list Message
}.

(** [settings] of [core/config.py], as far as the manager reads it. *)
Record Settings : Type := {
  config : dict value;
  DEFAULT_LLM_PROVIDER : value;
  BACKEND_URL : string;
  MCP_SERVICES_CONFIG : dict value
}.

(** Everything outside the process.  [construct] tells whether an SDK
    constructor raises; [http_post] answers a [POST] by its URL;
    [str_of] is [str()] on a value; [full_file_path] is the [pathlib]
    resolution of an upload path, [path_exists] its existence test and
    [open_file] tells whether opening it raises; [ucas_resources] is what
    [_prepare_ucas_resources] returns and [merge_archive] tells whether
    building the merged archive raises.  The prompt builders are pure
    functions of the source whose text plays no role here. *)
Record World : Type := {
  settings : Settings;
  ANTHROPIC_AVAILABLE : bool;
  GEMINI_AVAILABLE : bool;
  construct : Client -> option exn;
  config_fetch : FetchOutcome;
  chat_completions_create : ChatRequest -> may_raise ChatCompletion;
  messages_create : AnthropicRequest -> may_raise AnthropicMessage;
  generate_content : GeminiRequest -> may_raise GenerateContentResponse;
  http_post : string -> HttpOutcome;
  str_of : value -> string;
  full_file_path : value -> may_raise string;
  path_exists : string -> bool;
  open_file : string -> option exn;
  ucas_resources : dict string;
  merge_archive : option exn;
  build_prompt : value -> value -> value -> value -> value -> dict value -> string;
  build_chart_prompt : value -> value -> value -> string
}.

End Core.

(** ** Provider configuration: remote source, local fallback *)

Module Config.
Import Py Core.

Definition register (name : string) (client : Client) (m : Manager)
    : Manager :=
  with_llm_clients (assign name client) m.

(** [AgentManager._init_anthropic_client].  The proxy settings of the
    HTTP client are not modelled. *)
Definition _init_anthropic_client (w : World) (config : value) (m : Manager)
    : bool * Manager :=
  if negb (ANTHROPIC_AVAILABLE w) then (false, m)
  else
    match get_of config "api_key" VNone with
    | inl _ => (false, m)
    | inr api_key =>
        if negb (truthy api_key) then (false, m)
        else
          let client := {| sdk := Anthropic; client_api_key := api_key;
                           client_base_url := VNone |} in
          match construct w client with
          | Some _ => (false, m)
          | None => (true, register "anthropic" client m)
          end
    end.

(** [AgentManager._init_openai_client].  A non-string [provider] field that
    is hashable would register the client under a non-string key; such
    entries are never read (every lookup uses a string) and are left out
    of [llm_clients]. *)
Definition _init_openai_client (w : World) (config : value) (m : Manager)
    : bool * Manager :=
  match get_of config "api_key" VNone,
        get_of config "base_url" (VStr "https://api.openai.com/v1") with
  | inr api_key, inr base_url =>
      if negb (truthy api_key) then (false, m)
      else
        let client := {| sdk := AsyncOpenAI; client_api_key := api_key;
                         client_base_url := base_url |} in
        match construct w client with
        | Some _ => (false, m)
        | None =>
            match str_in "openai.com" base_url with
            | inl _ => (false, m)
            | inr true =>
                (true, register "gpt" client (register "openai" client m))
            | inr false =>
                match str_in "deepseek.com" base_url with
                | inl _ => (false, m)
                | inr true => (true, register "deepseek" client m)
                | inr false =>
                    match get_of config "provider" (VStr "openai") with
                    | inr (VStr provider_name) =>
                        (true, register provider_name client m)
                    | inr (VList _) | inr (VDict _) | inl _ => (false, m)
                    | inr _ => (true, m)
                    end
                end
            end
        end
  | _, _ => (false, m)
  end.

(** [AgentManager._init_deepseek_client] *)
Definition _init_deepseek_client (w : World) (config : value) (m : Manager)
    : bool * Manager :=
  match get_of config "api_key" VNone,
        get_of config "base_url" (VStr "https://api.deepseek.com") with
  | inr api_key, inr base_url =>
      if negb (truthy api_key) then (false, m)
      else
        let client := {| sdk := AsyncOpenAI; client_api_key := api_key;
                         client_base_url := base_url |} in
        match construct w client with
        | Some _ => (false, m)
        | None => (true, register "deepseek" client m)
        end
  | _, _ => (false, m)
  end.

(** [AgentManager._init_gemini_client] *)
Definition _init_gemini_client (w : World) (config : value) (m : Manager)
    : bool * Manager :=
  if negb (GEMINI_AVAILABLE w) then (false, m)
  else
    match get_of config "api_key" VNone with
    | inl _ => (false, m)
    | inr api_key =>
        if negb (truthy api_key) then (false, m)
        else
          let client := {| sdk := GenaiClient; client_api_key := api_key;
                           client_base_url := VNone |} in
          match construct w client with
          | Some _ => (false, m)
          | None => (true, register "gemini" client m)
          end
    end.

(** [self.llm_status['providers'][provider_name] = entry] *)
Definition status_set_provider (provider_name : string) (entry : value)
    (st : value) : value :=
  match st with
  | VDict d =>
      match lookup "providers" d with
      | Some (VDict ps) =>
          VDict (assign "providers" (VDict (assign provider_name entry ps)) d)
      | _ => st
      end
  | _ => st
  end.

(** The body of the loop over [providers.items()], the same in both
    loaders. *)
Definition init_provider (w : World) (provider_name : string)
    (provider_config : value) (m : Manager) : may_raise unit * Manager :=
  match get_of provider_config "api_key" (VStr ""),
        get_of provider_config "model" (VStr "") with
  | inr api_key, inr model =>
      let entry := VDict [("configured", VBool (truthy api_key));
                          ("model", model);
                          ("api_key_set", VBool (truthy api_key))] in
      let m1 :=
        with_llm_status (status_set_provider provider_name entry (llm_status m))
          m in
      let m2 :=
        if String.eqb provider_name "anthropic" && truthy api_key then
          (_init_anthropic_client w provider_config m1).2
        else if (String.eqb provider_name "gpt"
                 || String.eqb provider_name "openai") && truthy api_key then
          (_init_openai_client w provider_config m1).2
        else if String.eqb provider_name "gemini" && truthy api_key then
          (_init_gemini_client w provider_config m1).2
        else if String.eqb provider_name "deepseek" && truthy api_key then
          (_init_deepseek_client w provider_config m1).2
        else m1 in
      (inr (), m2)
  | inl e, _ | _, inl e => (inl e, m)
  end.

(** [for provider_name, provider_config in providers.items(): ...]; an
    exception leaves the loop with the state reached so far. *)
Fixpoint init_providers (w : World) (providers : dict value) (m : Manager)
    : may_raise unit * Manager :=
  match providers with
  | [] => (inr (), m)
  | (provider_name, provider_config) :: providers' =>
      match init_provider w provider_name provider_config m with
      | (inr _, m') => init_providers w providers' m'
      | (inl e, m') => (inl e, m')
      end
  end.

(** [for provider_name in self.llm_clients.keys():
       if provider_name in providers: ...; break] *)
Fixpoint first_configured (names : list string) (providers : dict value)
    : option string :=
  match names with
  | [] => None
  | provider_name :: names' =>
      if mem provider_name providers then Some provider_name
      else first_configured names' providers
  end.

(** The selection of the active provider that ends both loaders. *)
Definition select_provider (default_provider : value)
    (providers : dict value) (m : Manager) : may_raise unit * Manager :=
  let preferred :=
    in_providers <- key_in default_provider providers ;;
    if (in_providers : bool) then key_in default_provider (llm_clients m)
    else inr false in
  match preferred, default_provider with
  | inl e, _ => (inl e, m)
  | inr true, VStr name =>
      (inr (), with_provider name (get providers name VNone) m)
  | inr _, _ =>
      match first_configured (keys (llm_clients m)) providers with
      | Some provider_name =>
          (inr (),
           with_provider provider_name (get providers provider_name VNone) m)
      | None => (inr (), m)
      end
  end.

Definition status_header (source : string) (default_provider : value)
    : value :=
  VDict [("source", VStr source);
         ("default_provider", default_provider);
         ("providers", VDict [])].

(** [AgentManager._fallback_to_local_config] *)
Definition _fallback_to_local_config (w : World) (m : Manager)
    : value * Manager :=
  let default_provider := DEFAULT_LLM_PROVIDER (settings w) in
  let m1 := with_llm_status (status_header "local" default_provider) m in
  let providers_config := get (config (settings w)) "llm_providers" (VDict []) in
  match items_of providers_config with
  | inl _ => (VBool false, m1)
  | inr providers =>
      match init_providers w providers m1 with
      | (inl _, m2) => (VBool false, m2)
      | (inr _, m2) =>
          match select_provider default_provider providers m2 with
          | (inl _, m3) => (VBool false, m3)
          | (inr _, m3) => (VBool true, m3)
          end
      end
  end.

(** The [status_code == 200] branch of [_load_llm_config], up to its
    [return True]. *)
Definition load_from_backend (w : World) (json : may_raise value)
    (m : Manager) : may_raise unit * Manager :=
  match json with
  | inl e => (inl e, m)
  | inr config_data =>
      match (fallback <- get_of config_data "default_llm_provider"
                           (VStr "anthropic") ;;
             get_of config_data "current_provider" fallback) with
      | inl e => (inl e, m)
      | inr default_provider =>
          let m1 :=
            with_llm_status (status_header "backend" default_provider) m in
          match (fallback <- get_of config_data "llm_providers" (VDict []) ;;
                 providers <- get_of config_data "provider_configs" fallback ;;
                 items_of providers) with
          | inl e => (inl e, m1)
          | inr providers =>
              match init_providers w providers m1 with
              | (inl e, m2) => (inl e, m2)
              | (inr _, m2) => select_provider default_provider providers m2
              end
          end
      end
  end.

(** [AgentManager._load_llm_config].  The value returned is [True],
    [False], or [None] when the function ends without a [return]. *)
Definition _load_llm_config (w : World) (m : Manager) : value * Manager :=
  match config_fetch w with
  | FetchRaises e => _fallback_to_local_config w m
  | FetchReply status_code json =>
      if status_code =? 200 then
        match load_from_backend w json m with
        | (inr _, m') => (VBool true, m')
        | (inl e, m') => _fallback_to_local_config w m'
        end
      else (VNone, m)
  end.

(** The loader as the specification describes it: a reply whose status is
    not the expected one falls back to the local source as well. *)
Definition load_with_fallback (w : World) (m : Manager) : value * Manager :=
  match config_fetch w with
  | FetchRaises e => _fallback_to_local_config w m
  | FetchReply status_code json =>
      if status_code =? 200 then
        match load_from_backend w json m with
        | (inr _, m') => (VBool true, m')
        | (inl e, m') => _fallback_to_local_config w m'
        end
      else _fallback_to_local_config w m
  end.

(** [d[k]] on an arbitrary value. *)
Definition item_of (v : value) (k : string) : may_raise value :=
  match v with
  | VDict d =>
      match lookup k d with
      | Some x => inr x
      | None => inl (raise_ KeyError ("'" +:+ k +:+ "'"))
      end
  | _ => inl (raise_ TypeError
                ("'" +:+ type_name v +:+ "' object is not subscriptable"))
  end.

(** The loop of [initialize] over [settings.MCP_SERVICES_CONFIG]. *)
Fixpoint register_services (w : World) (services : dict value) (m : Manager)
    : may_raise unit * Manager :=
  match services with
  | [] => (inr (), m)
  | (service_name, service_config) :: services' =>
      match get_of service_config "enabled" (VBool true) with
      | inl e => (inl e, m)
      | inr enabled =>
          if truthy enabled then
            match (host <- item_of service_config "host" ;;
                   port <- item_of service_config "port" ;;
                   inr ("http://" +:+ str_of w host +:+ ":" +:+ str_of w port))
            with
            | inl e => (inl e, m)
            | inr url =>
                register_services w services'
                  (with_mcp_client service_name url m)
            end
          else register_services w services' m
      end
  end.

(** [AgentManager.initialize]; an exception is logged and raised again. *)
Definition initialize (w : World) (m : Manager) : may_raise unit * Manager :=
  let m1 := (_load_llm_config w m).2 in
  match register_services w (MCP_SERVICES_CONFIG (settings w)) m1 with
  | (inl e, m2) => (inl e, m2)
  | (inr _, m2) => (inr (), with_running true m2)
  end.

End Config.

(** ** The unified LLM call *)

Module Gateway.
Import Py Core.

Definition not_configured : string :=
  "LLM服务未配置或初始化失败。请在系统设置中配置LLM服务，或检查后端服务是否正常运行。".

Definition sdk_name (k : Sdk) : string :=
  match k with
  | Anthropic => "Anthropic"
  | AsyncOpenAI => "AsyncOpenAI"
  | GenaiClient => "Client"
  end.

Definition sdk_eqb (a b : Sdk) : bool :=
  match a, b with
  | Anthropic, Anthropic | AsyncOpenAI, AsyncOpenAI
  | GenaiClient, GenaiClient => true
  | _, _ => false
  end.

(** An attribute of one SDK read on the client of another. *)
Definition wrong_client (client : Client) (attr : string) : exn :=
  raise_ AttributeError
    ("'" +:+ sdk_name (sdk client) +:+ "' object has no attribute '"
     +:+ attr +:+ "'").

(** [l[0]] *)
Definition first {A} (l : list A) : may_raise A :=
  match l with
  | x :: _ => inr x
  | [] => inl (raise_ IndexError "list index out of range")
  end.

(** [AgentManager._call_openai_compatible] *)
Definition _call_openai_compatible (w : World) (m : Manager)
    (client : Client) (messages : list Message) (kwargs : dict value)
    : may_raise value :=
  model <- get_of (llm_config m) "model" (VStr "gpt-4") ;;
  config_max_tokens <- get_of (llm_config m) "max_tokens" (VInt 4000) ;;
  let max_tokens := get kwargs "max_tokens" config_max_tokens in
  config_temperature <- get_of (llm_config m) "temperature" (VFloat 7 (-1)) ;;
  let temperature := get kwargs "temperature" config_temperature in
  model <- (if bool_decide (current_provider m = Some "azure")
            then get_of (llm_config m) "deployment_name" model
            else inr model) ;;
  response <- (if sdk_eqb (sdk client) AsyncOpenAI then
                 chat_completions_create w
                   {| chat_model := model; chat_messages := messages;
                      chat_max_tokens := max_tokens;
                      chat_temperature := temperature |}
               else inl (wrong_client client "chat")) ;;
  choice <- first (choices response) ;;
  match choice with
  | Some text => inr (VStr (PyStr.strip text))
  | None => inl (no_attribute VNone "strip")
  end.

(** The loop of [_call_anthropic] over the messages: the last [system]
    message is hoisted, the others are kept in order. *)
Fixpoint split_system (messages : list Message) (system_message : value)
    : value * list Message :=
  match messages with
  | [] => (system_message, [])
  | msg :: messages' =>
      if String.eqb (role msg) "system" then
        split_system messages' (content msg)
      else
        let '(sys, user_messages) := split_system messages' system_message in
        (sys, msg :: user_messages)
  end.

(** The end of [_call_anthropic]: the check of the reply and the reading
    of its first content block.  [len(None)] raises; a [text] that is
    [None] is returned as it is. *)
Definition first_block (response : AnthropicMessage) : may_raise value :=
  match content_blocks response with
  | Has (block :: _) =>
      match text block with
      | Has t => inr (VStr t)
      | IsNone => inr VNone
      | Absent => inr (VStr (block_str block))
      end
  | IsNone =>
      inl (raise_ TypeError "object of type 'NoneType' has no len()")
  | Has [] | Absent => inl (raise_ Exception "Anthropic API响应格式异常")
  end.

(** [AgentManager._call_anthropic] *)
Definition _call_anthropic (w : World) (m : Manager) (client : Client)
    (messages : list Message) (kwargs : dict value) : may_raise value :=
  model <- get_of (llm_config m) "model" (VStr "claude-3-sonnet-20240229") ;;
  config_max_tokens <- get_of (llm_config m) "max_tokens" (VInt 4000) ;;
  let max_tokens := get kwargs "max_tokens" config_max_tokens in
  config_temperature <- get_of (llm_config m) "temperature" (VFloat 7 (-1)) ;;
  let temperature := get kwargs "temperature" config_temperature in
  let '(system_message, user_messages) := split_system messages (VStr "") in
  response <- (if sdk_eqb (sdk client) Anthropic then
                 messages_create w
                   {| a_model := model; a_max_tokens := max_tokens;
                      a_temperature := temperature;
                      a_system := if truthy system_message
                                  then Some system_message else None;
                      a_messages := user_messages |}
               else inl (wrong_client client "messages")) ;;
  first_block response.

(** The conversion of [_call_gemini]: a [system] message becomes a user
    turn with a prefix, [assistant] becomes [model], other roles are
    dropped. *)
Fixpoint gemini_contents (w : World) (messages : list Message)
    : list Message :=
  match messages with
  | [] => []
  | msg :: messages' =>
      let rest := gemini_contents w messages' in
      if String.eqb (role msg) "system" then
        {| role := "user";
           content := VStr ("System: " +:+ str_of w (content msg)) |} :: rest
      else if String.eqb (role msg) "user" then
        {| role := "user"; content := content msg |} :: rest
      else if String.eqb (role msg) "assistant" then
        {| role := "model"; content := content msg |} :: rest
      else rest
  end.

(** [AgentManager._call_gemini] *)
Definition _call_gemini (w : World) (m : Manager) (client : Client)
    (messages : list Message) (kwargs : dict value) : may_raise value :=
  model <- get_of (llm_config m) "model" (VStr "gemini-1.5-pro") ;;
  let contents := gemini_contents w messages in
  response <- (if sdk_eqb (sdk client) GenaiClient then
                 generate_content w
                   {| g_model := "models/" +:+ str_of w model;
                      g_contents := contents |}
               else inl (wrong_client client "models")) ;;
  parts <- first (candidates response) ;;
  first parts.

Definition openai_compatible : list string :=
  ["openai"; "gpt"; "azure"; "ollama"; "deepseek"].

Definition in_list (x : string) (l : list string) : bool :=
  existsb (String.eqb x) l.

(** [not self.current_provider or
     self.current_provider not in self.llm_clients] *)
Definition active_client (m : Manager) : option (string * Client) :=
  match current_provider m with
  | Some provider =>
      if PyStr.truthy provider then
        match lookup provider (llm_clients m) with
        | Some client => Some (provider, client)
        | None => None
        end
      else None
  | None => None
  end.

(** [AgentManager._call_llm] *)
Definition _call_llm (w : World) (m : Manager) (messages : list Message)
    (kwargs : dict value) : may_raise value :=
  match active_client m with
  | None => inl (raise_ Exception not_configured)
  | Some (provider, client) =>
      if in_list provider openai_compatible then
        _call_openai_compatible w m client messages kwargs
      else if String.eqb provider "anthropic" then
        _call_anthropic w m client messages kwargs
      else if String.eqb provider "gemini" then
        _call_gemini w m client messages kwargs
      else inl (raise_ Exception ("不支持的LLM提供商: " +:+ provider))
  end.

End Gateway.

(** ** Tool dispatch and the document flows *)

Module Tools.
Import Py Core Gateway Extract.

(** [response.raise_for_status()] of [httpx]: any status outside 2xx
    raises.  No handler of the source reads the message of the exception,
    only its status code and response text. *)
Definition is_success (status_code : nat) : bool :=
  (200 <=? status_code) && (status_code <=? 299).

(** A [POST] followed by [raise_for_status()] and [response.json()]. *)
Definition post_json (w : World) (url : string) : may_raise value :=
  match http_post w url with
  | HttpRaises e => inl e
  | HttpReply status_code text json =>
      if is_success status_code then json
      else inl (Exn HTTPStatusError "" status_code text)
  end.

(** [with open(path, 'rb') as f: ...] around a computation. *)
Definition with_open {A} (w : World) (path : string) (body : may_raise A)
    : may_raise A :=
  match open_file w path with
  | Some e => inl e
  | None => body
  end.

(** The three [except] clauses that end every call to the PPT service: a
    connection error and an HTTP error get a message of their own, any
    other exception has its message prefixed with [other]. *)
Definition ppt_service_errors (other : string) (e : exn) : exn :=
  if is_class RequestError e then
    raise_ Exception ("无法连接到PPT生成器服务: " +:+ msg e)
  else if is_class HTTPStatusError e then
    raise_ Exception ("PPT生成器服务返回错误 " +:+ pretty (status_code e)
                      +:+ ": " +:+ response_text e)
  else raise_ Exception (other +:+ msg e).

Definition ppt_unavailable : exn := raise_ Exception "PPT生成器服务不可用".

(** [AgentManager._call_ppt_service] *)
Definition _call_ppt_service (w : World) (m : Manager)
    (latex_content : string) (title : value) (use_ucas_style : value)
    : may_raise value :=
  match lookup "ppt_generator" (mcp_clients m) with
  | None => inl ppt_unavailable
  | Some service_url =>
      if negb (PyStr.truthy service_url) then inl ppt_unavailable
      else
        let attempt :=
          if truthy use_ucas_style
             && match ucas_resources w with [] => false | _ => true end
          then
            match merge_archive w with
            | Some e => inl e
            | None => post_json w (service_url +:+ "/generate_beamer_from_project")
            end
          else post_json w (service_url +:+ "/generate_ppt") in
        match attempt with
        | inr json => inr json
        | inl e => inl (ppt_service_errors "调用PPT服务失败: " e)
        end
  end.

Definition system_text : value :=
  VStr "你是一个专业的LaTeX Beamer演示文稿生成专家。请生成高质量的LaTeX代码。重要：不要创造任何图片文件名，除非用户明确提供了图片文件。".

Definition system_project : value :=
  VStr "你是一个专业的LaTeX Beamer演示文稿生成专家。请将学术论文的LaTeX代码转换为高质量的Beamer演示文稿代码。重要：严格禁止创造任何新的图片文件名，只能使用原始代码中已存在的\includegraphics引用。如果原文没有图片，就不要添加图片。".

Definition system_chart : value :=
  VStr "你是一个专业的数据分析师，擅长根据需求生成图表数据。请生成符合Chart.js格式的JSON数据。".

(** [if not self.current_provider or ...: raise Exception(...)] *)
Definition require_provider (m : Manager) : may_raise unit :=
  match active_client m with
  | Some _ => inr ()
  | None => inl (raise_ Exception not_configured)
  end.

(** [table.get(v, default)] on a table of the source with string keys:
    the key is hashed, which raises for a list or a mapping. *)
Definition table_key (v : value) : may_raise unit :=
  match v with
  | VList _ | VDict _ => inl (unhashable v)
  | _ => inr ()
  end.

(** [AgentManager._build_prompt_by_input_type]: the look-ups of the theme,
    the colour scheme and the font size in their tables, then the text of
    the prompt, which plays no role here. *)
Definition _build_prompt_by_input_type (w : World)
    (input_type content title theme language : value)
    (parameters : dict value) : may_raise string :=
  let color_scheme := get parameters "color_scheme" (VStr "blue") in
  let font_size := get parameters "font_size" (VStr "medium") in
  _ <- table_key theme ;;
  _ <- table_key color_scheme ;;
  _ <- table_key font_size ;;
  inr (build_prompt w input_type content title theme language parameters).

(** [AgentManager._build_chart_data_prompt]: the look-up of the chart type
    in the table of descriptions, then the text of the prompt. *)
Definition _build_chart_data_prompt (w : World)
    (user_requirement chart_type title : value) : may_raise string :=
  _ <- table_key chart_type ;;
  inr (build_chart_prompt w user_requirement chart_type title).

(** [self.llm_config.get("model", "gpt-4") if self.llm_config else "gpt-4"] *)
Definition configured_model (m : Manager) : may_raise value :=
  if truthy (llm_config m) then get_of (llm_config m) "model" (VStr "gpt-4")
  else inr (VStr "gpt-4").

(** The authoring step shared by the flows: the LLM call, [strip()] on its
    reply and the extraction of the LaTeX code.  The prompt is an argument
    that has been evaluated before: when that raised, there is no call and
    the exception is the outcome. *)
Definition author_latex (w : World) (m : Manager) (system : value)
    (prompt : may_raise value) : may_raise string :=
  prompt <- prompt ;;
  response <- _call_llm w m [ {| role := "system"; content := system |};
                              {| role := "user"; content := prompt |} ] [] ;;
  latex_content <- strip_of response ;;
  inr (_extract_latex_code latex_content).

Definition str_eq (v : value) (s : string) : bool :=
  match v with VStr x => String.eqb x s | _ => false end.

(** Steps of [_handle_latex_project]; [extract_tex] is its first request. *)
Definition extract_tex (w : World) (service_url full_path : string)
    : may_raise value :=
  let attempt :=
    with_open w full_path
      (extract_result <- post_json w (service_url +:+ "/extract_tex_content") ;;
       success <- get_of extract_result "success" VNone ;;
       if negb (truthy success) then
         inl (raise_ Exception
                ("提取LaTeX内容失败: "
                 +:+ str_of w (match extract_result with
                               | VDict d => get d "error" (VStr "未知错误")
                               | _ => VNone end)))
       else
         latex_content <- get_of extract_result "content" (VStr "") ;;
         stripped <- strip_of latex_content ;;
         if negb (PyStr.truthy stripped) then
           inl (raise_ Exception "提取的LaTeX内容为空")
         else inr latex_content) in
  match attempt with
  | inr v => inr v
  | inl e =>
      if is_class RequestError e then
        inl (raise_ Exception ("无法连接到PPT生成器服务: " +:+ msg e))
      else if is_class HTTPStatusError e then
        inl (raise_ Exception ("PPT生成器服务返回错误 "
                               +:+ pretty (status_code e) +:+ ": "
                               +:+ response_text e))
      else inl e
  end.

(** The third step of [_handle_latex_project]: the compilation request in
    its three variants.  Only the plain variant checks the reply and
    returns a result; the two style variants end without a [return]. *)
Definition compile_project (w : World) (service_url full_path : string)
    (parameters : dict value) (beamer_content : string)
    (title theme main_tex_filename : value) : may_raise value :=
  let use_ucas_style := get parameters "use_ucas_style" (VBool false) in
  let url := service_url +:+ "/generate_beamer_from_project" in
  let attempt :=
    if truthy use_ucas_style then
      match ucas_resources w with
      | _ :: _ =>
          match merge_archive w with
          | Some e => inl e
          | None => _ <- post_json w url ;; inr VNone
          end
      | [] => _ <- with_open w full_path (post_json w url) ;; inr VNone
      end
    else
      with_open w full_path
        (result <- post_json w url ;;
         success <- get_of result "success" VNone ;;
         if negb (truthy success) then
           inl (raise_ Exception
                  ("编译Beamer PDF失败: "
                   +:+ str_of w (match result with
                                 | VDict d => get d "error" (VStr "未知错误")
                                 | _ => VNone end)))
         else
           pdf_path <- get_of result "pdf_path" VNone ;;
           inr (VDict [("status", VStr "success");
                       ("latex_content", VStr beamer_content);
                       ("pdf_path", pdf_path);
                       ("title", title);
                       ("conversion_type", VStr "latex_to_beamer");
                       ("main_file", main_tex_filename);
                       ("success", VBool true);
                       ("theme", theme);
                       ("input_type", VStr "latex_project");
                       ("use_ucas_style", use_ucas_style)])) in
  match attempt with
  | inr v => inr v
  | inl e => inl (ppt_service_errors "编译Beamer PDF失败: " e)
  end.

(** The first step of [_handle_latex_project], up to the text of the
    primary source file: the address of the service, the resolved path of
    the upload and the text. *)
Definition project_source (w : World) (m : Manager) (parameters : dict value)
    : may_raise (string * string * value) :=
  let uploaded_file_path := get parameters "uploaded_file_path" VNone in
  if negb (truthy uploaded_file_path) then
    inl (raise_ Exception "未提供上传的文件路径")
  else
    match lookup "ppt_generator" (mcp_clients m) with
    | None => inl ppt_unavailable
    | Some service_url =>
        if negb (PyStr.truthy service_url) then inl ppt_unavailable
        else
          full_path <- full_file_path w uploaded_file_path ;;
          if negb (path_exists w full_path) then
            inl (raise_ Exception ("上传的文件不存在: " +:+ full_path))
          else
            latex_content <- extract_tex w service_url full_path ;;
            inr (service_url, full_path, latex_content)
    end.

(** Its second step: the Beamer code authored from that text.  The
    prompt and the model name are read before the inner [try]. *)
Definition project_beamer (w : World) (m : Manager) (parameters : dict value)
    (latex_content : value) : may_raise string :=
  let title := get parameters "title" (VStr "演示文稿") in
  let theme := get parameters "theme" (VStr "academic") in
  let language := get parameters "language" (VStr "zh-CN") in
  _ <- require_provider m ;;
  prompt <- _build_prompt_by_input_type w (VStr "latex_project")
              latex_content title theme language parameters ;;
  _ <- configured_model m ;;
  match author_latex w m system_project (inr (VStr prompt)) with
  | inr code => inr code
  | inl e => inl (raise_ Exception ("大模型生成Beamer代码失败: " +:+ msg e))
  end.

(** [AgentManager._handle_latex_project] *)
Definition _handle_latex_project (w : World) (m : Manager)
    (parameters : dict value) : may_raise value :=
  let main_tex_filename := get parameters "main_tex_filename" (VStr "main.tex") in
  let title := get parameters "title" (VStr "演示文稿") in
  let theme := get parameters "theme" (VStr "academic") in
  let body :=
    source <- project_source w m parameters ;;
    let '(service_url, full_path, latex_content) := source in
    beamer_content <- project_beamer w m parameters latex_content ;;
    compile_project w service_url full_path parameters beamer_content
      title theme main_tex_filename in
  match body with
  | inr v => inr v
  | inl e => inl (raise_ Exception ("处理LaTeX项目失败: " +:+ msg e))
  end.

(** The prompt of the free-text flow: the caller's own, or the built one. *)
Definition text_prompt (w : World) (parameters : dict value)
    : may_raise value :=
  let content := get parameters "content" (VStr "") in
  let title := get parameters "title" (VStr "演示文稿") in
  let theme := get parameters "theme" (VStr "academic") in
  let language := get parameters "language" (VStr "zh-CN") in
  let input_type := get parameters "input_type" (VStr "text_description") in
  let prompt := get parameters "prompt" VNone in
  if negb (truthy prompt) then
    built <- _build_prompt_by_input_type w input_type content title theme
               language parameters ;;
    inr (VStr built)
  else inr prompt.

(** [AgentManager._generate_ppt_with_llm].  The prompt is built before
    the [try]: an exception of [_build_prompt_by_input_type] leaves the
    function as it is. *)
Definition _generate_ppt_with_llm (w : World) (m : Manager)
    (parameters : dict value) : may_raise value :=
  let title := get parameters "title" (VStr "演示文稿") in
  let theme := get parameters "theme" (VStr "academic") in
  let input_type := get parameters "input_type" (VStr "text_description") in
  if str_eq input_type "latex_project" then
    _handle_latex_project w m parameters
  else
    prompt <- text_prompt w parameters ;;
    let body :=
      _ <- require_provider m ;;
      _ <- configured_model m ;;
      latex_content <- author_latex w m system_text (inr prompt) ;;
      let use_ucas_style := get parameters "use_ucas_style" (VBool false) in
      match (ppt_result <- _call_ppt_service w m latex_content title
                             use_ucas_style ;;
             pdf_path <- get_of ppt_result "pdf_path" VNone ;;
             success <- get_of ppt_result "success" (VBool true) ;;
             inr (VDict [("status", VStr "success");
                         ("latex_content", VStr latex_content);
                         ("title", title);
                         ("theme", theme);
                         ("input_type", input_type);
                         ("pdf_path", pdf_path);
                         ("success", success);
                         ("use_ucas_style", use_ucas_style)])) with
      | inr v => inr v
      | inl e =>
          inr (VDict [("status", VStr "success");
                      ("latex_content", VStr latex_content);
                      ("title", title);
                      ("theme", theme);
                      ("input_type", input_type);
                      ("pdf_compilation_error", VStr (msg e))])
      end in
    match body with
    | inr v => inr v
    | inl e => inl (raise_ Exception ("生成PPT失败: " +:+ msg e))
    end.

(** [AgentManager._generate_chart_data_with_llm] *)
Definition _generate_chart_data_with_llm (w : World) (m : Manager)
    (parameters : dict value) : may_raise value :=
  let user_requirement := get parameters "user_requirement" (VStr "") in
  let chart_type := get parameters "chart_type" (VStr "bar") in
  let title := get parameters "title" (VStr "") in
  if negb (truthy user_requirement) then
    inl (raise_ Exception "用户需求描述不能为空")
  else
    let body :=
      _ <- require_provider m ;;
      prompt <- _build_chart_data_prompt w user_requirement chart_type title ;;
      _ <- configured_model m ;;
      response <- _call_llm w m
                    [ {| role := "system"; content := system_chart |};
                      {| role := "user"; content := VStr prompt |} ] [] ;;
      generated_content <- strip_of response ;;
      let chart_data := _extract_json_data generated_content in
      inr (VDict [("status", VStr "success");
                  ("generated_data", VStr chart_data);
                  ("chart_type", chart_type);
                  ("title", title);
                  ("user_requirement", user_requirement)]) in
    match body with
    | inr v => inr v
    | inl e => inl (raise_ Exception ("生成图表数据失败: " +:+ msg e))
    end.

Definition service_mapping : dict string :=
  [("ppt", "ppt_generator"); ("ppt_generator", "ppt_generator");
   ("chart", "chart_generator"); ("chart_generator", "chart_generator");
   ("scheduler", "schedule_reminder");
   ("api-docs", "api_doc_generator");
   ("api_doc_generator", "api_doc_generator")].

Definition unsupported_tool (tool_type : string) : exn :=
  raise_ ValueError ("不支持的工具类型: " +:+ tool_type).

(** [AgentManager._call_mcp_service] *)
Definition _call_mcp_service (w : World) (m : Manager) (tool_type : string)
    (parameters : dict value) : may_raise value :=
  match lookup tool_type service_mapping with
  | None => inl (unsupported_tool tool_type)
  | Some service_name =>
      match lookup service_name (mcp_clients m) with
      | None => inl (unsupported_tool tool_type)
      | Some service_url =>
          let attempt :=
            if in_list tool_type ["chart"; "chart_generator"] then
              post_json w (service_url +:+ "/generate_chart")
            else if String.eqb tool_type "scheduler" then
              post_json w (service_url +:+ "/create_schedule")
            else if in_list tool_type ["api-docs"; "api_doc_generator"] then
              post_json w (service_url +:+ "/generate_docs")
            else inl (raise_ ValueError ("未知的工具类型: " +:+ tool_type)) in
          match attempt with
          | inr v => inr v
          | inl e =>
              if is_class RequestError e then
                inl (raise_ Exception
                       ("无法连接到 " +:+ service_name +:+ " 服务: " +:+ msg e))
              else if is_class HTTPStatusError e then
                inl (raise_ Exception
                       (service_name +:+ " 服务返回错误: "
                        +:+ pretty (status_code e)))
              else
                inl (raise_ Exception
                       ("调用 " +:+ service_name +:+ " 服务失败: " +:+ msg e))
          end
      end
  end.

(** [AgentManager._process_with_llm] *)
Definition _process_with_llm (w : World) (m : Manager) (tool_type : string)
    (parameters : dict value) : may_raise value :=
  if in_list tool_type ["ppt"; "ppt_generator"] then
    _generate_ppt_with_llm w m parameters
  else if in_list tool_type ["chart"; "chart_generator"] then
    _call_mcp_service w m tool_type parameters
  else if String.eqb tool_type "chart_data_generator" then
    _generate_chart_data_with_llm w m parameters
  else if String.eqb tool_type "scheduler" then
    _call_mcp_service w m tool_type parameters
  else if in_list tool_type ["api-docs"; "api_doc_generator"] then
    _call_mcp_service w m tool_type parameters
  else inl (unsupported_tool tool_type).

End Tools.

(** ** The task registry *)

Module Tasks.
Import Py Core Tools.

(** [AgentManager._update_backend_task]: the request is issued and every
    failure of it is swallowed. *)
Definition _update_backend_task (task_id : string) (status : string)
    (result : value) (error_message : value) (m : Manager) : Manager :=
  let update_data := [("status", VStr status)] in
  let update_data :=
    if truthy result then assign "result" result update_data
    else update_data in
  let update_data :=
    if truthy error_message then
      assign "error_message" error_message update_data
    else update_data in
  with_put task_id update_data m.

Definition set_status (s : string) (r : TaskRecord) : TaskRecord :=
  {| status := s; data := data r; result := result r; error := error r |}.

Definition set_result (v : value) (r : TaskRecord) : TaskRecord :=
  {| status := status r; data := data r; result := v; error := error r |}.

Definition set_error (v : value) (r : TaskRecord) : TaskRecord :=
  {| status := status r; data := data r; result := result r; error := v |}.

(** [process_task] up to its first suspension: the record is stored and
    the task store is told that the task runs. *)
Definition process_task_begin (task_id : string) (task_data : TaskData)
    (m : Manager) : Manager :=
  _update_backend_task task_id "running" VNone VNone
    (with_tasks
       (insert task_id {| status := "running"; data := task_data;
                          result := VNone; error := VNone |}) m).

(** The [except] branch of [process_task]. *)
Definition process_task_failed (task_id : string) (e : exn) (m : Manager)
    : value * Manager :=
  let m1 := with_tasks (alter (fun r => set_error (VStr (msg e))
                                          (set_status "failed" r)) task_id) m in
  (VDict [("status", VStr "error");
          ("message", VStr ("任务处理失败: " +:+ msg e))],
   _update_backend_task task_id "failed" VNone (VStr (msg e)) m1).

(** [process_task] from the return of [_process_with_llm] on. *)
Definition process_task_finish (task_id : string) (outcome : may_raise value)
    (m : Manager) : value * Manager :=
  match outcome with
  | inr result =>
      match tasks m !! task_id with
      | Some _ =>
          let m1 := with_tasks (alter (fun r => set_result result
                                                 (set_status "completed" r))
                                  task_id) m in
          (VDict [("status", VStr "success");
                  ("message", VStr "任务处理完成");
                  ("result", result)],
           _update_backend_task task_id "completed" result VNone m1)
      | None =>
          process_task_failed task_id
            (raise_ KeyError ("'" +:+ task_id +:+ "'")) m
      end
  | inl e => process_task_failed task_id e m
  end.

(** [AgentManager.process_task] when nothing else runs between its steps. *)
Definition process_task (w : World) (task_id : string)
    (task_data : TaskData) (m : Manager) : value * Manager :=
  let m1 := process_task_begin task_id task_data m in
  process_task_finish task_id
    (_process_with_llm w m1 (tool_type task_data) (parameters task_data)) m1.

(** [AgentManager.cancel_task] *)
Definition cancel_task (task_id : string) (m : Manager) : value * Manager :=
  match tasks m !! task_id with
  | Some _ =>
      let m1 := with_tasks (alter (set_status "cancelled") task_id) m in
      (VDict [("status", VStr "success"); ("message", VStr "任务已取消")],
       _update_backend_task task_id "cancelled" VNone VNone m1)
  | None =>
      (VDict [("status", VStr "error"); ("message", VStr "任务不存在")], m)
  end.

(** A record of the task map as the dictionary [get_task_status] returns:
    [data] is the mapping that was submitted. *)
Definition record_value (r : TaskRecord) : value :=
  VDict [("status", VStr (status r));
         ("data", VDict (task_info (data r)));
         ("result", result r);
         ("error", error r)].

(** [AgentManager.get_task_status] *)
Definition get_task_status (task_id : string) (m : Manager) : value :=
  match tasks m !! task_id with
  | Some r => record_value r
  | None => VDict [("status", VStr "not_found"); ("message", VStr "任务不存在")]
  end.

(** The operations that reach the task map, as the routes and the
    scheduler deliver them: a submission, the end of an execution with the
    outcome of [_process_with_llm], a cancellation. *)
Inductive operation : Type :=
| Submit (task_id : string) (task_data : TaskData)
| Finish (task_id : string) (outcome : may_raise value)
| Cancel (task_id : string).


(** [submit_task] of the routes starts [process_task] only when the
    manager runs. *)
Definition step (op : operation) (m : Manager) : Manager :=
  match op with
  | Submit task_id task_data =>
      if running m then process_task_begin task_id task_data m else m
  | Finish task_id outcome => (process_task_finish task_id outcome m).2
  | Cancel task_id => (cancel_task task_id m).2
  end.


Definition run (ops : list operation) (m : Manager) : Manager :=
  foldl (fun m op => step op m) m ops.

Definition terminal (s : string) : bool :=
  String.eqb s "completed" || String.eqb s "failed"
  || String.eqb s "cancelled".


End Tasks.

(** ** The routes *)

Module Routes.
Import Py Core Tasks.

(** An HTTP answer of the API: a JSON body, or an [HTTPException]. *)
Inductive answer : Type :=
| Ok200 (body : value)
| HTTPException (status_code : nat) (detail : string).

(** A [UUID]: its sixteen bytes, in the five groups of its text.  The
    two routes below declare [task_id: UUID]: the framework parses the
    path before it calls the handler, and a path that is not a UUID never
    reaches it. *)
Record UUID : Type := {
  time_low : ascii * ascii * ascii * ascii;
  time_mid : ascii * ascii;
  time_hi_version : ascii * ascii;
  clock_seq : ascii * ascii;
  node : ascii * ascii * ascii * ascii * ascii * ascii
}.

Definition hex_digit (n : nat) : ascii :=
  nth n (list_ascii_of_string "0123456789abcdef") "0"%char.

Definition hex (c : ascii) : string :=
  let n := nat_of_ascii c in
  String (hex_digit (n / 16)) (String (hex_digit (n mod 16)) EmptyString).

(** [str(task_id)]: lower-case digits in groups of 8, 4, 4, 4 and 12. *)
Definition str_uuid (u : UUID) : string :=
  let '(a1, a2, a3, a4) := time_low u in
  let '(b1, b2) := time_mid u in
  let '(c1, c2) := time_hi_version u in
  let '(d1, d2) := clock_seq u in
  let '(e1, e2, e3, e4, e5, e6) := node u in
  hex a1 +:+ hex a2 +:+ hex a3 +:+ hex a4 +:+ "-"
  +:+ hex b1 +:+ hex b2 +:+ "-" +:+ hex c1 +:+ hex c2 +:+ "-"
  +:+ hex d1 +:+ hex d2 +:+ "-"
  +:+ hex e1 +:+ hex e2 +:+ hex e3 +:+ hex e4 +:+ hex e5 +:+ hex e6.

(** [cancel_task] of [api/routes.py] *)
Definition cancel_task (task_id : UUID) (m : Manager) : answer * Manager :=
  let '(result, m') := Tasks.cancel_task (str_uuid task_id) m in
  (Ok200 (VDict [("success", VBool true);
                 ("task_id", VStr (str_uuid task_id));
                 ("message", VStr "任务已取消");
                 ("result", result)]), m').

(** [get_task_status] of [api/routes.py] *)
Definition get_task_status (task_id : UUID) (m : Manager) : answer :=
  Ok200 (VDict [("success", VBool true);
                ("task_id", VStr (str_uuid task_id));
                ("status", Tasks.get_task_status (str_uuid task_id) m)]).

End Routes.

(** ** Provider selection as the specification words it *)

Module SelectionSpec.
Import Py Core.





End SelectionSpec.

(** ** Concrete worlds and managers for the examples *)

Module Scenario.
Import Py Core.

Definition show (v : value) : string :=
  match v with
  | VStr s => s
  | VNone => "None"
  | VBool true => "True"
  | VBool false => "False"
  | VInt n => pretty n
  | _ => "?"
  end.

Definition resolve (v : value) : may_raise string :=
  match v with
  | VStr s => inr ("../backend/uploads/" +:+ s)
  | _ => inl (no_attribute v "replace")
  end.

(** A world given by its local settings, the answer of the configuration
    endpoint, the text every provider replies, the answers of the tool
    services and the style resources found on disk. *)
Definition world (local : Settings) (fetch : FetchOutcome) (reply : string)
    (post : string -> HttpOutcome) (resources : dict string) : World :=
  {| settings := local;
     ANTHROPIC_AVAILABLE := true;
     GEMINI_AVAILABLE := true;
     construct := fun _ => None;
     config_fetch := fetch;
     chat_completions_create := fun _ => inr {| choices := [Some reply] |};
     messages_create := fun _ =>
       inr {| content_blocks :=
                Has [ {| text := Has reply; block_str := "TextBlock" |} ] |};
     generate_content := fun _ => inr {| candidates := [[VStr reply]] |};
     http_post := post;
     str_of := show;
     full_file_path := resolve;
     path_exists := fun _ => true;
     open_file := fun _ => None;
     ucas_resources := resources;
     merge_archive := None;
     build_prompt := fun _ _ _ _ _ _ => "prompt";
     build_chart_prompt := fun _ _ _ => "prompt" |}.

(** The services [config.py] declares when the file names none. *)
Definition default_services : dict value :=
  [("ppt_generator", VDict [("host", VStr "localhost"); ("port", VInt 8002);
                            ("enabled", VBool true)]);
   ("chart_generator", VDict [("host", VStr "localhost"); ("port", VInt 8003);
                              ("enabled", VBool true)]);
   ("schedule_reminder", VDict [("host", VStr "localhost");
                                ("port", VInt 8004);
                                ("enabled", VBool true)]);
   ("api_doc_generator", VDict [("host", VStr "localhost");
                                ("port", VInt 8005);
                                ("enabled", VBool true)])].

Definition no_settings : Settings :=
  {| config := []; DEFAULT_LLM_PROVIDER := VStr "openai";
     BACKEND_URL := "http://localhost:8000";
     MCP_SERVICES_CONFIG := default_services |}.

(** Local settings with one usable provider. *)
Definition local_deepseek : Settings :=
  {| config := [("llm_providers",
                 VDict [("deepseek", VDict [("api_key", VStr "sk-local")])])];
     DEFAULT_LLM_PROVIDER := VStr "deepseek";
     BACKEND_URL := "http://localhost:8000";
     MCP_SERVICES_CONFIG := default_services |}.

Definition unreachable (_ : string) : HttpOutcome :=
  HttpRaises (raise_ RequestError "All connection attempts failed").

(** The configuration endpoint answers 500. *)
Definition backend_500 : World :=
  world local_deepseek (FetchReply 500 (inl (raise_ JSONDecodeError "")))
    "OK" unreachable [].

(** The configuration endpoint is unreachable. *)
Definition backend_down : World :=
  world local_deepseek
    (FetchRaises (raise_ RequestException "Connection refused"))
    "OK" unreachable [].






(** A remote configuration with a single provider, declared as default. *)
Definition single_config (provider : string) : value :=
  VDict [("current_provider", VStr provider);
         ("provider_configs",
          VDict [(provider, VDict [("api_key", VStr "k")])])].

Definition backend_single (provider : string) : World :=
  world no_settings (FetchReply 200 (inr (single_config provider))) "OK"
    unreachable [].

(** The manager after a load in that world. *)
Definition manager_with (provider : string) : Manager :=
  (Config._load_llm_config (backend_single provider) init_manager).2.

(** The structured-turn provider answers [reply] whatever the request. *)
Definition answering (reply : AnthropicMessage) (w : World) : World :=
  {| settings := settings w;
     ANTHROPIC_AVAILABLE := ANTHROPIC_AVAILABLE w;
     GEMINI_AVAILABLE := GEMINI_AVAILABLE w;
     construct := construct w;
     config_fetch := config_fetch w;
     chat_completions_create := chat_completions_create w;
     messages_create := fun _ => inr reply;
     generate_content := generate_content w;
     http_post := http_post w;
     str_of := str_of w;
     full_file_path := full_file_path w;
     path_exists := path_exists w;
     open_file := open_file w;
     ucas_resources := ucas_resources w;
     merge_archive := merge_archive w;
     build_prompt := build_prompt w;
     build_chart_prompt := build_chart_prompt w |}.

(** A reply whose first block is a tool call, without a [text]. *)
Definition tool_use_reply : AnthropicMessage :=
  {| content_blocks :=
       Has [ {| text := Absent; block_str := "ToolUseBlock(name='search')" |};
             {| text := Has "OK"; block_str := "TextBlock(text='OK')" |} ] |}.

(** A reply whose [content] is [None]. *)
Definition empty_reply : AnthropicMessage := {| content_blocks := IsNone |}.

(** The PPT service extracts the source of an uploaded project; its
    compilation endpoints answer [compile]. *)
Definition ppt_service (compile : HttpOutcome) (url : string) : HttpOutcome :=
  if String.eqb url "http://localhost:8002/extract_tex_content" then
    HttpReply 200 ""
      (inr (VDict [("success", VBool true);
                   ("content", VStr "\documentclass{article}")]))
  else if String.eqb url "http://localhost:8002/generate_beamer_from_project"
          || String.eqb url "http://localhost:8002/generate_ppt" then
    compile
  else unreachable url.

Definition compile_500 : HttpOutcome :=
  HttpReply 500 "Internal Server Error" (inl (raise_ JSONDecodeError "")).

Definition compile_ok : HttpOutcome :=
  HttpReply 200 ""
    (inr (VDict [("success", VBool true); ("pdf_path", VStr "/out/talk.pdf")])).

Definition beamer_reply : string :=
  "Here it is: ```latex \documentclass{beamer} ``` Enjoy.".

(** An OpenAI provider that authors a Beamer document, and a PPT service
    whose compilation answers [compile]. *)
Definition authoring (compile : HttpOutcome) : World :=
  world no_settings (FetchReply 200 (inr (single_config "openai")))
    beamer_reply (ppt_service compile) [].

(** The manager once [initialize] has run in that world. *)
Definition ready (compile : HttpOutcome) : Manager :=
  (Config.initialize (authoring compile) init_manager).2.

(** A submission as the task store sends it: title, description, tool
    type and parameters. *)
Definition submission (title : string) (tool_type : string)
    (parameters : dict value) : TaskData :=
  {| task_info := [("title", VStr title);
                   ("description", VNone);
                   ("tool_type", VStr tool_type);
                   ("parameters", VDict parameters)];
     tool_type := tool_type;
     parameters := parameters;
     tool_type_read := eq_refl;
     parameters_read := eq_refl |}.

Definition text_task : TaskData :=
  submission "Quarterly talk" "ppt"
    [("content", VStr "quarterly results"); ("title", VStr "Q3")].

Definition project_task (use_ucas_style : bool) : TaskData :=
  submission "Paper talk" "ppt"
    [("input_type", VStr "latex_project");
     ("uploaded_file_path", VStr "paper.zip");
     ("title", VStr "Q3");
     ("use_ucas_style", VBool use_ucas_style)].

(** The UUID 12345678-9abc-4def-8012-3456789abcde. *)
Definition some_uuid : Routes.UUID :=
  {| Routes.time_low := ("018", "4", "V", "x")%char;
     Routes.time_mid := ("154", "188")%char;
     Routes.time_hi_version := ("M", "239")%char;
     Routes.clock_seq := ("128", "018")%char;
     Routes.node := ("4", "V", "x", "154", "188", "222")%char |}.

Definition talk : value := VDict [("pdf_path", VStr "/out/talk.pdf")].

(** A manager in which task [t1] ran to completion. *)
Definition finished : Manager :=
  Tasks.run [Tasks.Submit "t1" text_task; Tasks.Finish "t1" (inr talk)]
    (ready compile_ok).

Definition question : list Message :=
  [ {| role := "system"; content := VStr "Be brief." |};
    {| role := "user"; content := VStr "Ready?" |} ].

End Scenario.

(** ** Texts without a given character *)

Module Chars.

(** [c not in s] for a single character. *)
Fixpoint lacks (c : ascii) (s : string) : bool :=
  match s with
  | EmptyString => true
  | String a s' => negb (Ascii.eqb a c) && lacks c s'
  end.


(** [repr(s)] is [s] between single quotes: every character is printable
    ASCII and is neither a quote nor a backslash. *)
Definition repr_plain (s : string) : bool :=
  forallb (fun c => let n := nat_of_ascii c in
                    (32 <=? n) && (n <? 127)
                    && negb (n =? 39) && negb (n =? 92))
    (list_ascii_of_string s).

End Chars.

(** ** Status, reload and shutdown of the manager *)

Module Status.
Import Py Core Config.

(** [AgentManager.shutdown] *)
Definition shutdown (m : Manager) : Manager :=
  {| tasks := ∅; running := false; mcp_clients := []; llm_clients := [];
     llm_config := llm_config m; current_provider := current_provider m;
     llm_status := llm_status m; backend_puts := backend_puts m |}.

(** [self.current_provider] as a value. *)
Definition provider_value (m : Manager) : value :=
  match current_provider m with
  | Some p => VStr p
  | None => VNone
  end.

(** [v.keys()] as a list, on an arbitrary value. *)
Definition keys_of (v : value) : may_raise value :=
  match v with
  | VDict d => inr (VList (VStr <$> keys d))
  | _ => inl (no_attribute v "keys")
  end.

(** The truth value of [is_configured] in [get_llm_status]. *)
Definition is_configured (m : Manager) : may_raise bool :=
  if truthy (provider_value m) && truthy (llm_config m) then
    api_key <- get_of (llm_config m) "api_key" (VStr "") ;;
    stripped <- strip_of api_key ;;
    inr (negb (String.eqb stripped ""))
  else inr false.

(** [AgentManager.get_llm_status] *)
Definition get_llm_status (m : Manager) : may_raise value :=
  configured <- is_configured m ;;
  model <- (if (configured : bool)
            then get_of (llm_config m) "model" (VStr "gpt-4")
            else inr VNone) ;;
  base_url <- (if configured then get_of (llm_config m) "base_url" VNone
               else inr VNone) ;;
  source <- get_of (llm_status m) "source" (VStr "unknown") ;;
  providers <- get_of (llm_status m) "providers" (VDict []) ;;
  available_providers <- keys_of providers ;;
  inr (VDict [("configured", VBool configured);
              ("provider", provider_value m);
              ("model", model);
              ("base_url", base_url);
              ("source", source);
              ("available_providers", available_providers);
              ("status", llm_status m)]).

(** [AgentManager.reload_llm_config].  [reloaded] is the outcome of
    [settings.reload_config()]; the settings of the world are the ones it
    has read. *)
Definition reload_llm_config (reloaded : may_raise unit) (w : World)
    (m : Manager) : value * Manager :=
  match reloaded with
  | inl e =>
      (VDict [("status", VStr "error");
              ("message", VStr ("重新加载LLM配置失败: " +:+ msg e))], m)
  | inr _ =>
      let '(success, m1) := _load_llm_config w m in
      if truthy success && truthy (provider_value m1) then
        match (model <- (if truthy (llm_config m1)
                         then get_of (llm_config m1) "model" (VStr "gpt-4")
                         else inr (VStr "gpt-4")) ;;
               source <- get_of (llm_status m1) "source" (VStr "unknown") ;;
               inr (model, source)) with
        | inr (model, source) =>
            (VDict [("status", VStr "success");
                    ("message",
                     VStr ("LLM配置重新加载成功，当前模型: " +:+ str_of w model
                           +:+ " (来源: " +:+ str_of w source +:+ ")"));
                    ("config",
                     VDict [("provider", provider_value m1);
                            ("model", model);
                            ("configured", VBool true);
                            ("source", source);
                            ("status", llm_status m1)])], m1)
        | inl e =>
            (VDict [("status", VStr "error");
                    ("message", VStr ("重新加载LLM配置失败: " +:+ msg e))],
             m1)
        end
      else
        (VDict [("status", VStr "warning");
                ("message", VStr "LLM配置重新加载完成，但未能成功初始化客户端");
                ("config", VDict [("configured", VBool false);
                                  ("status", llm_status m1)])], m1)
  end.

(** A manager whose active provider, if any, has a client and a
    configuration mapping. *)
Definition coherent (m : Manager) : Prop :=
  forall p, current_provider m = Some p ->
    mem p (llm_clients m) = true /\ exists cfg, llm_config m = VDict cfg.

(** [m'] has every client of [m]. *)
Definition grows (m m' : Manager) : Prop :=
  forall p, mem p (llm_clients m) = true -> mem p (llm_clients m') = true.

(** [m'] has every client of [m], and the same active provider and
    configuration. *)
Definition extends (m m' : Manager) : Prop :=
  grows m m'
  /\ llm_config m' = llm_config m
  /\ current_provider m' = current_provider m.

(** A service entry that [initialize] can register: a mapping that, unless
    it is disabled, names a host and a port. *)
Definition service_ok (c : value) : Prop :=
  exists d, c = VDict d
    /\ (truthy (get d "enabled" (VBool true)) = true ->
        is_Some (lookup "host" d) /\ is_Some (lookup "port" d)).

(** [name] is the name of an enabled entry of [services]. *)
Definition enabled_in (services : dict value) (name : string) : Prop :=
  exists d, (name, VDict d) ∈ services
    /\ truthy (get d "enabled" (VBool true)) = true.

(** [m'] differs from [m] in its LLM state at most. *)
Definition same_registry (m m' : Manager) : Prop :=
  tasks m' = tasks m /\ running m' = running m
  /\ mcp_clients m' = mcp_clients m /\ backend_puts m' = backend_puts m.

End Status.

(** ** [core/config.py]: which providers count as configured *)

Module LocalSettings.
Import Py.

(** [a and b] when [b] may raise. *)
Definition and_then (a : value) (b : may_raise value) : may_raise value :=
  if truthy a then b else inr a.

Definition str_is (v : value) (s : string) : bool :=
  match v with VStr x => String.eqb x s | _ => false end.

(** [api_key and api_key.strip() and api_key not in ["", placeholder]] *)
Definition usable_key (api_key : value) (placeholder : string)
    : may_raise value :=
  and_then api_key
    (stripped <- strip_of api_key ;;
     and_then (VStr stripped)
       (inr (VBool (negb (str_is api_key "" || str_is api_key placeholder))))).

(** [value and value.strip()] *)
Definition non_blank (v : value) : may_raise value :=
  and_then v (stripped <- strip_of v ;; inr (VStr stripped)).

Definition is_one_of (x : string) (l : list string) : bool :=
  existsb (String.eqb x) l.

(** [Settings.is_provider_configured], on [self.LLM_PROVIDERS]. *)
Definition is_provider_configured (LLM_PROVIDERS : dict value)
    (provider : string) : may_raise value :=
  let provider_config := get LLM_PROVIDERS provider (VDict []) in
  if is_one_of provider ["openai"; "gpt"] then
    api_key <- get_of provider_config "api_key" (VStr "") ;;
    usable_key api_key "your_openai_api_key_here"
  else if String.eqb provider "anthropic" then
    api_key <- get_of provider_config "api_key" (VStr "") ;;
    usable_key api_key "your_anthropic_api_key_here"
  else if String.eqb provider "gemini" then
    api_key <- get_of provider_config "api_key" (VStr "") ;;
    usable_key api_key "your_google_api_key_here"
  else if String.eqb provider "deepseek" then
    api_key <- get_of provider_config "api_key" (VStr "") ;;
    usable_key api_key "your_deepseek_api_key_here"
  else if String.eqb provider "azure" then
    api_key <- get_of provider_config "api_key" (VStr "") ;;
    endpoint <- get_of provider_config "endpoint" (VStr "") ;;
    key_ok <- usable_key api_key "your_azure_api_key_here" ;;
    and_then key_ok (non_blank endpoint)
  else if String.eqb provider "ollama" then
    base_url <- get_of provider_config "base_url" (VStr "") ;;
    non_blank base_url
  else inr (VBool false).

(** The placeholder that [is_provider_configured] rejects for a provider
    configured by an API key alone. *)
Definition placeholder (provider : string) : string :=
  if is_one_of provider ["openai"; "gpt"] then "your_openai_api_key_here"
  else if String.eqb provider "anthropic" then "your_anthropic_api_key_here"
  else if String.eqb provider "gemini" then "your_google_api_key_here"
  else "your_deepseek_api_key_here".

Definition keyed_providers : list string :=
  ["openai"; "gpt"; "anthropic"; "gemini"; "deepseek"].

(** [self.LLM_PROVIDERS] as [Settings.__init__] takes it from the
    configuration. *)
Definition LLM_PROVIDERS (config : dict value) : value :=
  if mem "provider_configs" config
  then get config "provider_configs" (VDict [])
  else get config "llm_providers" (VDict []).

(** The loop of [print_config_status]: the answer of
    [is_provider_configured] only selects the text printed; an exception
    of it leaves the loop. *)
Fixpoint report (providers : dict value) (names : list string)
    : may_raise unit :=
  match names with
  | [] => inr ()
  | name :: names' =>
      _ <- is_provider_configured providers name ;;
      report providers names'
  end.

(** [Settings.print_config_status] *)
Definition print_config_status (config : dict value) : may_raise unit :=
  match LLM_PROVIDERS config with
  | VDict providers =>
      report providers
        ["openai"; "gpt"; "anthropic"; "gemini"; "azure"; "ollama";
         "deepseek"]
  | v => inl (no_attribute v "get")
  end.

End LocalSettings.

(** ** The start of the manager, with the report it prints first *)

Module Startup.
Import Py Core LocalSettings.

(** [AgentManager.initialize] from its first statement:
    [settings.print_config_status()], then the load of the configuration
    and the registration of the services.  An exception is logged and
    raised again. *)
Definition initialize (w : World) (m : Manager) : may_raise unit * Manager :=
  match print_config_status (config (settings w)) with
  | inl e => (inl e, m)
  | inr _ => Config.initialize w m
  end.

End Startup.

(** ** [api/routes.py]: the submission of a task *)

Module Submission.
Import Py Core Routes.

(** What the body of a route raises: an [HTTPException] of its own, or
    another exception.  Both are instances of [Exception]. *)
Inductive raised : Type :=
| Http (status_code : nat) (detail : string)
| Other (e : exn).

(** [str(e)] in the handler of a route; [http_str] is the text the
    framework gives an [HTTPException]. *)
Definition str_raised (http_str : nat -> string -> string) (r : raised)
    : string :=
  match r with
  | Http status_code detail => http_str status_code detail
  | Other e => msg e
  end.

(** The coroutine handed to [asyncio.create_task]: a call of
    [process_task] on these two arguments. *)
Record job : Type := {
  job_task_id : value;
  job_task_info : value
}.

(** The [try] block of [submit_task]. *)
Definition submit_body (task_data : dict value) (m : Manager)
    : raised + (value * option job) :=
  let task_id := get task_data "task_id" VNone in
  let task_info := get task_data "task_data" (VDict []) in
  if negb (truthy task_id) then inl (Http 400 "缺少 task_id")
  else if negb (running m) then
    inr (VDict [("success", VBool true);
                ("task_id", task_id);
                ("message",
                 VStr "任务已接收，Agent正在初始化中，任务将稍后处理")],
         None)
  else
    inr (VDict [("success", VBool true);
                ("task_id", task_id);
                ("message", VStr "任务已接收，正在后台处理")],
         Some {| job_task_id := task_id; job_task_info := task_info |}).

(** [submit_task] of [api/routes.py]: [except Exception] around the
    block. *)
Definition submit_task (http_str : nat -> string -> string)
    (task_data : dict value) (m : Manager) : answer * option job :=
  match submit_body task_data m with
  | inr (body, spawned) => (Ok200 body, spawned)
  | inl r => (HTTPException 500 (str_raised http_str r), None)
  end.

End Submission.

(** ** Names used in the statements about dispatch *)

Module Dispatch.
Import Py Core Gateway.

(** The tool types [_process_with_llm] accepts. *)
Definition known_tools : list string :=
  ["ppt"; "ppt_generator"; "chart"; "chart_generator";
   "chart_data_generator"; "scheduler"; "api-docs"; "api_doc_generator"].

(** The tool types forwarded to a service without an authoring step. *)
Definition proxied_tools : list string :=
  ["chart"; "chart_generator"; "scheduler"; "api-docs"; "api_doc_generator"].

(** The operation [_call_mcp_service] posts to for a proxied tool type. *)
Definition operation_of (tool_type : string) : string :=
  if in_list tool_type ["chart"; "chart_generator"] then "/generate_chart"
  else if String.eqb tool_type "scheduler" then "/create_schedule"
  else "/generate_docs".

(** The service [service_mapping] gives for a proxied tool type. *)
Definition service_of (tool_type : string) : string :=
  if in_list tool_type ["chart"; "chart_generator"] then "chart_generator"
  else if String.eqb tool_type "scheduler" then "schedule_reminder"
  else "api_doc_generator".




(** A value that can be the key of a dictionary lookup. *)
Definition hashable (v : value) : bool :=
  match v with
  | VList _ | VDict _ => false
  | _ => true
  end.

(** The prompt of the free-text flow is the caller's own, or
    [_build_prompt_by_input_type] can look up the theme, the colour scheme
    and the font size in its tables. *)
Definition prompt_builds (parameters : dict value) : bool :=
  truthy (get parameters "prompt" VNone)
  || (hashable (get parameters "theme" (VStr "academic"))
      && hashable (get parameters "color_scheme" (VStr "blue"))
      && hashable (get parameters "font_size" (VStr "medium"))).

End Dispatch.

(** ** Further worlds and managers for the examples *)

Module Cases.
Import Py Core Scenario.


Definition rate_limited : exn := raise_ Exception "429 Too Many Requests".



(** Local settings in which no provider has a key. *)
Definition local_without_keys : Settings :=
  {| config := [("llm_providers",
                 VDict [("openai", VDict [("api_key", VStr "")]);
                        ("anthropic", VDict [("model", VStr "claude-3")])])];
     DEFAULT_LLM_PROVIDER := VStr "openai";
     BACKEND_URL := "http://localhost:8000";
     MCP_SERVICES_CONFIG := default_services |}.

Definition keyless_providers : dict value :=
  [("openai", VDict [("api_key", VStr "")]);
   ("anthropic", VDict [("model", VStr "claude-3")])].

(** The configuration endpoint is down and the local source has no key. *)
Definition no_keys_anywhere : World :=
  world local_without_keys
    (FetchRaises (raise_ RequestException "Connection refused"))
    "OK" unreachable [].

(** A scheduling service that answers, and one that answers 503. *)
Definition schedule_created : value :=
  VDict [("success", VBool true); ("schedule_id", VStr "s-1")].

Definition scheduler_up (url : string) : HttpOutcome :=
  if String.eqb url "http://localhost:8004/create_schedule" then
    HttpReply 200 "" (inr schedule_created)
  else unreachable url.

Definition scheduler_503 (url : string) : HttpOutcome :=
  if String.eqb url "http://localhost:8004/create_schedule" then
    HttpReply 503 "Service Unavailable" (inl (raise_ JSONDecodeError ""))
  else unreachable url.

(** A world with an OpenAI provider and the given tool services. *)
Definition serving (post : string -> HttpOutcome) : World :=
  world no_settings (FetchReply 200 (inr (single_config "openai"))) "OK"
    post [].

Definition operational (post : string -> HttpOutcome) : Manager :=
  (Config.initialize (serving post) init_manager).2.

Definition schedule_task : TaskData :=
  submission "Stand-up" "scheduler"
    [("title", VStr "stand-up"); ("time", VStr "09:00")].

(** A provider that answers every prompt with a fenced JSON object. *)
Definition charting : World :=
  world no_settings (FetchReply 200 (inr (single_config "openai")))
    "Data: ```json {} ``` end" unreachable [].



Definition chart_task : TaskData :=
  submission "Sales chart" "chart_data_generator"
    [("user_requirement", VStr "quarterly sales"); ("chart_type", VStr "bar")].

End Cases.

(** * Properties *)

Module PyStrFacts.
Import PyStr.

#[local] Arguments Ascii.eqb : simpl never.

Lemma append_cons a l r : String a l +:+ r = String a (l +:+ r).
Proof. reflexivity. Qed.

Lemma append_empty r : EmptyString +:+ r = r.
Proof. reflexivity. Qed.

Lemma append_empty_r r : r +:+ EmptyString = r.
Proof.
  induction r as [|c r IH]; [done|]. by rewrite append_cons, IH.
Qed.

Lemma append_assoc a b c : (a +:+ b) +:+ c = a +:+ (b +:+ c).
Proof.
  induction a as [|x a IH]; [done|]. by rewrite !append_cons, IH.
Qed.

(** *** The bytes of a white-space character *)

Ltac bool_arith :=
  repeat match goal with
  | H : _ && _ = true |- _ => apply andb_true_iff in H as [? ?]
  | H : _ || _ = true |- _ => apply orb_true_iff in H as [?|?]
  | H : (_ =? _) = true |- _ => apply Nat.eqb_eq in H
  | H : (_ <=? _) = true |- _ => apply Nat.leb_le in H
  end; try lia.

Lemma isspace1_low a : isspace1 a = true -> nat_of_ascii a <= 32.
Proof. unfold isspace1. cbv zeta. intros H. bool_arith. Qed.

Lemma isspace2_bytes a b :
  isspace2 a b = true ->
  nat_of_ascii a = 194 /\ 128 <= nat_of_ascii b < 194.
Proof. unfold isspace2. intros H. bool_arith. Qed.

Lemma isspace3_bytes a b c :
  isspace3 a b c = true ->
  194 < nat_of_ascii a
  /\ 128 <= nat_of_ascii b < 194 /\ 128 <= nat_of_ascii c < 194.
Proof. unfold isspace3. cbv zeta. intros H. bool_arith. Qed.

Lemma isspace1_high a : 32 < nat_of_ascii a -> isspace1 a = false.
Proof.
  intros H. apply not_true_is_false. intros E.
  apply isspace1_low in E. lia.
Qed.

(** A byte that is neither a white-space character nor the first byte of
    the encoding of one starts no white space. *)
Lemma no_space_from a x :
  isspace1 a = false -> nat_of_ascii a < 194 ->
  after_space (String a x) = None.
Proof.
  intros H1 Ha. unfold after_space. rewrite H1.
  destruct x as [|b [|c x]]; [done|..].
  - assert (isspace2 a b = false) as ->; [|done].
    apply not_true_is_false. intros E. apply isspace2_bytes in E. lia.
  - assert (isspace2 a b = false) as ->.
    { apply not_true_is_false. intros E. apply isspace2_bytes in E. lia. }
    assert (isspace3 a b c = false) as ->; [|done].
    apply not_true_is_false. intros E. apply isspace3_bytes in E. lia.
Qed.

Lemma continuation_no_space b x :
  128 <= nat_of_ascii b < 194 -> after_space (String b x) = None.
Proof.
  intros H. apply no_space_from; [|lia]. apply isspace1_high. lia.
Qed.

Lemma other_byte q n a x :
  nat_of_ascii q <> nat_of_ascii a ->
  strip_prefix (String q n) (String a x) = None.
Proof.
  intros H. simpl. destruct (Ascii.eqb_spec q a) as [->|]; [done|done].
Qed.

(** *** White space, one character at a time *)

Lemma lstrip_cons a s1 :
  lstrip (String a s1) =
    if isspace1 a then lstrip s1
    else
      match s1 with
      | String b s2 =>
          if isspace2 a b then lstrip s2
          else
            match s2 with
            | String c s3 =>
                if isspace3 a b c then lstrip s3 else String a s1
            | EmptyString => String a s1
            end
      | EmptyString => String a s1
      end.
Proof. by destruct s1 as [|b [|c s3]]. Qed.

Lemma lstrip_unfold s :
  lstrip s = match after_space s with Some r => lstrip r | None => s end.
Proof.
  destruct s as [|a s1]; [done|]. rewrite lstrip_cons. unfold after_space.
  destruct (isspace1 a); [done|]. destruct s1 as [|b s2]; [done|].
  destruct (isspace2 a b); [done|]. destruct s2 as [|c s3]; [done|].
  by destruct (isspace3 a b c).
Qed.

Lemma lstrip_space s r : after_space s = Some r -> lstrip s = lstrip r.
Proof. intros H. by rewrite lstrip_unfold, H. Qed.

Lemma lstrip_nospace s : after_space s = None -> lstrip s = s.
Proof. intros H. by rewrite lstrip_unfold, H. Qed.

Lemma after_space_cases s r :
  after_space s = Some r ->
  (exists a, s = String a r /\ isspace1 a = true)
  \/ (exists a b, s = String a (String b r)
                  /\ isspace1 a = false /\ isspace2 a b = true)
  \/ (exists a b c, s = String a (String b (String c r))
                    /\ isspace1 a = false /\ isspace2 a b = false
                    /\ isspace3 a b c = true).
Proof.
  destruct s as [|a s]; [done|]. unfold after_space.
  destruct (isspace1 a) eqn:E1; [intros [= <-]; left; eauto|].
  destruct s as [|b s]; [done|].
  destruct (isspace2 a b) eqn:E2; [intros [= <-]; right; left; eauto 6|].
  destruct s as [|c s]; [done|].
  destruct (isspace3 a b c) eqn:E3; [|done].
  intros [= <-]. right; right. eauto 8.
Qed.

Lemma after_space_shorter s r :
  after_space s = Some r -> String.length r < String.length s.
Proof.
  intros H. apply after_space_cases in H
    as [(a & -> & _)|[(a & b & -> & _)|(a & b & c & -> & _)]]; simpl; lia.
Qed.

(** Induction on a text, one leading white-space character at a time. *)
Lemma space_ind (P : string -> Prop) :
  (forall s, after_space s = None -> P s) ->
  (forall s r, after_space s = Some r -> P r -> P s) ->
  forall s, P s.
Proof.
  intros H0 H1 s.
  assert (forall n t, String.length t < n -> P t) as H.
  { induction n as [|n IH]; intros t Hn; [lia|].
    destruct (after_space t) as [r|] eqn:E; [|by apply H0].
    apply (H1 t r E), IH. apply after_space_shorter in E. lia. }
  apply (H (S (String.length s))). lia.
Qed.

(** A text starts with white space according to its first bytes only. *)
Lemma after_space_app s r x :
  after_space s = Some r -> after_space (s +:+ x) = Some (r +:+ x).
Proof.
  intros H. apply after_space_cases in H
    as [(a & -> & E1)|[(a & b & -> & E1 & E2)|(a & b & c & -> & E1 & E2 & E3)]];
    rewrite !append_cons; unfold after_space; by rewrite ?E1, ?E2, ?E3.
Qed.

Lemma after_space_none_prefix p x :
  p <> EmptyString -> after_space (p +:+ x) = None -> after_space p = None.
Proof.
  intros _ H. destruct (after_space p) as [r|] eqn:E; [|done].
  by rewrite (after_space_app _ _ x E) in H.
Qed.

Lemma lstrip_idem s : lstrip (lstrip s) = lstrip s.
Proof.
  induction s as [s H|s r H IH] using space_ind.
  - by rewrite !(lstrip_nospace s H).
  - by rewrite (lstrip_space s r H).
Qed.

Lemma lstrip_app_blank p x :
  lstrip p = EmptyString -> lstrip (p +:+ x) = lstrip x.
Proof.
  induction p as [p H|p r H IH] using space_ind.
  - rewrite (lstrip_nospace p H). by intros ->.
  - rewrite (lstrip_space p r H). intros Hr.
    rewrite (lstrip_space _ _ (after_space_app _ _ x H)). by apply IH.
Qed.

Lemma rstrip_unfold a s :
  rstrip (String a s) =
    match lstrip (String a s) with
    | EmptyString => EmptyString
    | _ => String a (rstrip s)
    end.
Proof. reflexivity. Qed.

#[local] Opaque lstrip.

(** A text is blank when trimming it on either side leaves nothing. *)
Lemma rstrip_empty_lstrip s : rstrip s = EmptyString <-> lstrip s = EmptyString.
Proof.
  destruct s as [|a s]; [done|]. rewrite rstrip_unfold.
  by destruct (lstrip (String a s)).
Qed.

Lemma rstrip_cons a s :
  lstrip (String a s) <> EmptyString ->
  rstrip (String a s) = String a (rstrip s).
Proof.
  intros H. rewrite rstrip_unfold. by destruct (lstrip (String a s)).
Qed.

Lemma rstrip_blank s : lstrip s = EmptyString -> rstrip s = EmptyString.
Proof. apply rstrip_empty_lstrip. Qed.

(** What [rstrip] removes is blank. *)
Lemma rstrip_split s :
  exists x, s = rstrip s +:+ x /\ lstrip x = EmptyString.
Proof.
  induction s as [|a s (x & Hs & Hx)]; [by exists EmptyString|].
  rewrite rstrip_unfold. destruct (lstrip (String a s)) eqn:E.
  - by exists (String a s).
  - exists x. rewrite append_cons. by rewrite <- Hs.
Qed.

Lemma split_at_first_cons needle c s :
  split_at_first needle (String c s) =
    match strip_prefix needle (String c s) with
    | Some rest => Some (EmptyString, rest)
    | None =>
        match split_at_first needle s with
        | Some (b, a) => Some (String c b, a)
        | None => None
        end
    end.
Proof. reflexivity. Qed.

(** The bytes of a leading white-space character: a text that starts with
    them starts with that character, and [rstrip] goes through them unless
    only white space follows. *)
Lemma space_token s r :
  after_space s = Some r ->
  exists tok, s = tok +:+ r
    /\ (forall x, after_space (tok +:+ x) = Some x)
    /\ (forall x, rstrip (tok +:+ x) =
                    match lstrip x with
                    | EmptyString => EmptyString
                    | _ => tok +:+ rstrip x
                    end)
    /\ (forall q n x, 32 < nat_of_ascii q < 128 ->
          split_at_first (String q n) (tok +:+ x) =
            (fun p => (tok +:+ p.1, p.2)) <$> split_at_first (String q n) x).
Proof.
  intros H. apply after_space_cases in H
    as [(a & -> & E1)|[(a & b & -> & E1 & E2)|(a & b & c & -> & E1 & E2 & E3)]].
  - exists (String a EmptyString).
    assert (forall x, after_space (String a EmptyString +:+ x) = Some x) as T.
    { intros x. rewrite append_cons. unfold after_space. by rewrite E1. }
    split; [done|]. split; [done|]. split; intros x.
    + rewrite append_cons, append_empty, rstrip_unfold.
      pose proof (lstrip_space _ _ (T x)) as L.
      rewrite append_cons, append_empty in L. rewrite L.
      by destruct (lstrip x).
    + intros n y Hq. apply isspace1_low in E1.
      rewrite append_cons, append_empty, split_at_first_cons.
      rewrite other_byte by lia.
      by destruct (split_at_first (String x n) y) as [[? ?]|].
  - exists (String a (String b EmptyString)).
    assert (forall x, after_space (String a (String b EmptyString) +:+ x)
                      = Some x) as T.
    { intros x. rewrite !append_cons. unfold after_space. by rewrite E1, E2. }
    apply isspace2_bytes in E2 as [Ha Hb].
    split; [done|]. split; [done|]. split; intros x.
    + rewrite !append_cons, append_empty, rstrip_unfold.
      pose proof (lstrip_space _ _ (T x)) as L.
      rewrite !append_cons, append_empty in L. rewrite L.
      destruct (lstrip x) eqn:R; [done|].
      rewrite (rstrip_cons b x); [done|].
      by rewrite (lstrip_nospace _ (continuation_no_space b x Hb)).
    + intros n y Hq.
      rewrite !append_cons, append_empty, !split_at_first_cons.
      rewrite !other_byte by lia.
      by destruct (split_at_first (String x n) y) as [[? ?]|].
  - exists (String a (String b (String c EmptyString))).
    assert (forall x,
              after_space (String a (String b (String c EmptyString)) +:+ x)
              = Some x) as T.
    { intros x. rewrite !append_cons. unfold after_space.
      by rewrite E1, E2, E3. }
    apply isspace3_bytes in E3 as (Ha & Hb & Hc).
    split; [done|]. split; [done|]. split; intros x.
    + rewrite !append_cons, append_empty, rstrip_unfold.
      pose proof (lstrip_space _ _ (T x)) as L.
      rewrite !append_cons, append_empty in L. rewrite L.
      destruct (lstrip x) eqn:R; [done|].
      rewrite (rstrip_cons b (String c x)), (rstrip_cons c x); [done|..].
      * by rewrite (lstrip_nospace _ (continuation_no_space c x Hc)).
      * by rewrite (lstrip_nospace _ (continuation_no_space b _ Hb)).
    + intros n y Hq.
      rewrite !append_cons, append_empty, !split_at_first_cons.
      rewrite !other_byte by lia.
      by destruct (split_at_first (String x n) y) as [[? ?]|].
Qed.

Lemma after_space_result s : after_space (lstrip s) = None.
Proof.
  induction s as [s H|s r H IH] using space_ind.
  - by rewrite (lstrip_nospace s H).
  - by rewrite (lstrip_space s r H).
Qed.

Lemma lstrip_rstrip s : lstrip (rstrip s) = rstrip (lstrip s).
Proof.
  induction s as [s H|s r H IH] using space_ind.
  - rewrite (lstrip_nospace s H). apply lstrip_nospace.
    destruct (rstrip_split s) as (x & Hs & _).
    destruct (rstrip s) as [|a t] eqn:R; [done|].
    rewrite Hs in H. by apply (after_space_none_prefix _ x).
  - rewrite (lstrip_space s r H), <- IH.
    destruct (space_token s r H) as (tok & -> & T & R & _). rewrite R.
    destruct (lstrip r) eqn:L.
    + by rewrite (rstrip_blank r L).
    + apply lstrip_space, T.
Qed.

Lemma rstrip_idem s : rstrip (rstrip s) = rstrip s.
Proof.
  induction s as [|a s IH]; [done|].
  rewrite rstrip_unfold. destruct (lstrip (String a s)) eqn:L; [done|].
  rewrite rstrip_cons, IH; [done|].
  intros B. destruct (rstrip_split s) as (x & Hs & Hx).
  pose proof (lstrip_app_blank (String a (rstrip s)) x B) as E.
  rewrite append_cons, <- Hs, Hx in E. congruence.
Qed.

Lemma strip_idem s : strip (strip s) = strip s.
Proof.
  unfold strip. by rewrite lstrip_rstrip, lstrip_idem, rstrip_idem.
Qed.

Lemma strip_rstrip_lstrip s : strip (rstrip (lstrip s)) = strip s.
Proof. apply strip_idem. Qed.

(** A text that ends with a byte of a visible ASCII character is not
    blank, and [rstrip] leaves it as it is. *)
Lemma ends_visible_not_blank t c :
  32 < nat_of_ascii c < 128 ->
  lstrip (t +:+ String c EmptyString) <> EmptyString.
Proof.
  intros Hc.
  assert (forall s, (exists t, s = t +:+ String c EmptyString) ->
                    lstrip s <> EmptyString) as H; [|by eauto].
  clear t. intros s. induction s as [s H|s r H IH] using space_ind.
  - intros [t ->]. rewrite (lstrip_nospace _ H). by destruct t.
  - intros [t Ht]. rewrite (lstrip_space s r H). apply IH.
    apply after_space_cases in H
      as [(a & -> & E1)|[(a & b & -> & E1 & E2)|(a & b & c' & -> & E1 & E2 & E3)]].
    + destruct t as [|a' t]; [|rewrite append_cons in Ht; injection Ht; eauto].
      injection Ht as -> _. apply isspace1_low in E1. lia.
    + apply isspace2_bytes in E2 as [Ha Hb].
      destruct t as [|a' [|b' t]].
      * injection Ht as -> _. lia.
      * injection Ht as _ -> _. lia.
      * rewrite !append_cons in Ht. injection Ht. eauto.
    + apply isspace3_bytes in E3 as (Ha & Hb & Hc').
      destruct t as [|a' [|b' [|c'' t]]].
      * injection Ht as -> _. lia.
      * injection Ht as _ -> _. lia.
      * injection Ht as _ _ -> _. lia.
      * rewrite !append_cons in Ht. injection Ht. eauto.
Qed.

Lemma rstrip_ends_visible t c :
  32 < nat_of_ascii c < 128 ->
  rstrip (t +:+ String c EmptyString) = t +:+ String c EmptyString.
Proof.
  intros Hc. induction t as [|a t IH].
  - rewrite append_empty, rstrip_cons; [done|].
    apply (ends_visible_not_blank EmptyString c Hc).
  - rewrite append_cons, rstrip_cons, IH; [done|].
    apply (ends_visible_not_blank (String a t) c Hc).
Qed.

Lemma lstrip_starts_visible c s :
  32 < nat_of_ascii c < 128 -> lstrip (String c s) = String c s.
Proof.
  intros Hc. apply lstrip_nospace, no_space_from; [|lia].
  apply isspace1_high. lia.
Qed.

#[local] Transparent lstrip.

(** *** Prefixes and occurrences *)

Lemma strip_prefix_drop l s r :
  strip_prefix l s = Some r -> r = drop_chars (String.length l) s.
Proof.
  revert s. induction l as [|a l IH]; intros [|b s]; simpl;
    try (intros; congruence).
  destruct (Ascii.eqb a b); [apply IH|done].
Qed.

Lemma split_at_first_unfold needle s :
  split_at_first needle s =
    match strip_prefix needle s with
    | Some rest => Some (EmptyString, rest)
    | None =>
        match s with
        | String c s' =>
            match split_at_first needle s' with
            | Some (b, a) => Some (String c b, a)
            | None => None
            end
        | EmptyString => None
        end
    end.
Proof. by destruct s. Qed.

Lemma strip_prefix_app l r : strip_prefix l (l +:+ r) = Some r.
Proof.
  induction l as [|a l IH]; [done|].
  rewrite append_cons. simpl. by rewrite Ascii.eqb_refl.
Qed.

Lemma strip_prefix_eq l s r : strip_prefix l s = Some r -> s = l +:+ r.
Proof.
  revert s. induction l as [|a l IH]; intros [|b s];
    rewrite ?append_cons, ?append_empty; simpl; try (intros; congruence).
  destruct (Ascii.eqb_spec a b) as [->|]; [|done].
  intros H. by rewrite (IH _ H).
Qed.

Lemma split_at_first_eq needle s b a :
  split_at_first needle s = Some (b, a) -> s = b +:+ needle +:+ a.
Proof.
  revert b. induction s as [|c s IH]; intros b;
    rewrite split_at_first_unfold.
  - destruct (strip_prefix needle "") eqn:P; [|done].
    intros [= <- <-]. by apply strip_prefix_eq in P.
  - destruct (strip_prefix needle (String c s)) eqn:P.
    + intros [= <- <-]. by apply strip_prefix_eq in P.
    + destruct (split_at_first needle s) as [[b' a']|]; [|done].
      intros [= <- <-]. rewrite append_cons. by rewrite <- (IH b').
Qed.

Lemma contains_cons needle c s :
  contains needle s = true -> contains needle (String c s) = true.
Proof.
  unfold contains. simpl.
  destruct (strip_prefix needle (String c s)); [done|].
  by destruct (split_at_first needle s) as [[? ?]|].
Qed.

Lemma contains_drop_S needle n s :
  contains needle (drop_chars (S n) s) = true ->
  contains needle (drop_chars n s) = true.
Proof.
  revert s. induction n as [|n IH]; intros [|c s]; simpl; try done.
  - apply contains_cons.
  - apply (IH s).
Qed.

Lemma contains_drop_cons needle n c s :
  contains needle (drop_chars n s) = true ->
  contains needle (drop_chars n (String c s)) = true.
Proof.
  destruct n as [|n]; simpl.
  - apply contains_cons.
  - apply contains_drop_S.
Qed.

Lemma strip_prefix_app_l l1 l2 s r :
  strip_prefix (l1 +:+ l2) s = Some r -> is_Some (strip_prefix l1 s).
Proof.
  revert s. induction l1 as [|a l1 IH]; intros s; [by eauto|].
  rewrite append_cons. destruct s as [|b s]; simpl; [done|].
  destruct (Ascii.eqb a b); [apply IH|done].
Qed.

Lemma contains_app_l l1 l2 s :
  contains (l1 +:+ l2) s = true -> contains l1 s = true.
Proof.
  unfold contains. induction s as [|c s IH].
  - simpl. destruct (strip_prefix (l1 +:+ l2) "") eqn:P; [|done].
    apply strip_prefix_app_l in P as [? ->]. done.
  - rewrite !split_at_first_cons.
    destruct (strip_prefix (l1 +:+ l2) (String c s)) eqn:P.
    + apply strip_prefix_app_l in P as [? ->]. done.
    + destruct (strip_prefix l1 (String c s)); [done|].
      destruct (split_at_first (l1 +:+ l2) s) as [[? ?]|]; [|done].
      intros _. specialize (IH eq_refl).
      by destruct (split_at_first l1 s) as [[? ?]|].
Qed.

Lemma contains_empty s : contains EmptyString s = true.
Proof. by destruct s. Qed.

Lemma split_at_last_some needle s :
  is_Some (split_at_last needle s) <-> contains needle s = true.
Proof.
  unfold contains. induction s as [|c s IH].
  - simpl. destruct (strip_prefix needle ""); [|split; [by intros [? ?]|done]].
    split; eauto.
  - simpl. destruct (split_at_last needle s) as [[b a]|].
    + destruct (strip_prefix needle (String c s)); [split; eauto|].
      destruct (split_at_first needle s) as [[? ?]|]; [split; eauto|].
      exfalso. destruct IH as [IH _]. by specialize (IH (ltac:(eauto))).
    + destruct (strip_prefix needle (String c s)); [split; eauto|].
      destruct (split_at_first needle s) as [[? ?]|].
      * exfalso. destruct IH as [_ IH]. by destruct (IH eq_refl).
      * split; [by intros [? ?]|done].
Qed.

End PyStrFacts.

Module ReFacts.
Import PyStr PyStrFacts Re.

#[local] Arguments Ascii.eqb : simpl never.

Lemma greedy_star_cons cls k c s :
  greedy_star cls k (String c s) =
    if cls c then
      match greedy_star cls k s with
      | Some m => Some (consume c m)
      | None => k (String c s)
      end
    else k (String c s).
Proof. reflexivity. Qed.

Lemma lazy_group_unfold k s :
  lazy_group k s =
    match k s with
    | Some m => Some m
    | None =>
        match s with
        | String c s' => capture c <$> lazy_group k s'
        | EmptyString => None
        end
    end.
Proof. by destruct s. Qed.

Lemma search_unfold p s :
  search p s =
    match match_here p s with
    | Some m => Some m
    | None =>
        match s with
        | String _ s' => search p s'
        | EmptyString => None
        end
    end.
Proof. by destruct s. Qed.

Lemma match_here_lit l p s :
  match_here (Lit l :: p) s =
    match strip_prefix l s with
    | Some s' => consume_lit l <$> match_here p s'
    | None => None
    end.
Proof. reflexivity. Qed.

(** *** A greedy run of blanks in front of the rest of a pattern *)

Lemma greedy_spaces_cons k a s1 :
  greedy_spaces k (String a s1) =
    if isspace1 a then
      match greedy_spaces k s1 with
      | Some m => Some (consume a m)
      | None => k (String a s1)
      end
    else
      match s1 with
      | String b s2 =>
          if isspace2 a b then
            match greedy_spaces k s2 with
            | Some m => Some (consume a (consume b m))
            | None => k (String a s1)
            end
          else
            match s2 with
            | String c s3 =>
                if isspace3 a b c then
                  match greedy_spaces k s3 with
                  | Some m => Some (consume a (consume b (consume c m)))
                  | None => k (String a s1)
                  end
                else k (String a s1)
            | EmptyString => k (String a s1)
            end
      | EmptyString => k (String a s1)
      end.
Proof. by destruct s1 as [|b [|c s3]]. Qed.

Lemma greedy_spaces_nospace k s :
  after_space s = None -> greedy_spaces k s = k s.
Proof.
  destruct s as [|a s1]; [done|]. rewrite greedy_spaces_cons.
  unfold after_space.
  destruct (isspace1 a); [done|]. destruct s1 as [|b s2]; [done|].
  destruct (isspace2 a b); [done|]. destruct s2 as [|c s3]; [done|].
  by destruct (isspace3 a b c).
Qed.

Lemma greedy_spaces_space k s r :
  after_space s = Some r ->
  match greedy_spaces k r with
  | Some m => exists m', greedy_spaces k s = Some m' /\ group1 m' = group1 m
  | None => greedy_spaces k s = k s
  end.
Proof.
  intros H. apply after_space_cases in H
    as [(a & -> & E1)|[(a & b & -> & E1 & E2)|(a & b & c & -> & E1 & E2 & E3)]];
    rewrite greedy_spaces_cons, ?E1, ?E2, ?E3;
    destruct (greedy_spaces k r); eauto.
Qed.

Section GreedySpaces.
Variable k : string -> option rmatch.
Hypothesis k_space :
  forall s r, after_space s = Some r -> k r = None -> k s = None.

Lemma k_lstrip_none t : k (lstrip t) = None -> k t = None.
Proof.
  induction t as [t H|t r H IH] using space_ind.
  - by rewrite (lstrip_nospace t H).
  - rewrite (lstrip_space t r H). intros Hk. eapply k_space; eauto.
Qed.

Lemma greedy_spaces_none t :
  k (lstrip t) = None -> greedy_spaces k t = None.
Proof.
  induction t as [t H|t r H IH] using space_ind.
  - rewrite (lstrip_nospace t H), (greedy_spaces_nospace k t H). done.
  - rewrite (lstrip_space t r H). intros Hk.
    pose proof (greedy_spaces_space k t r H) as G. rewrite (IH Hk) in G.
    rewrite G. eapply k_space; [done|]. by apply k_lstrip_none.
Qed.

Lemma greedy_spaces_some t m :
  k (lstrip t) = Some m ->
  exists m', greedy_spaces k t = Some m' /\ group1 m' = group1 m.
Proof.
  induction t as [t H|t r H IH] using space_ind.
  - rewrite (lstrip_nospace t H), (greedy_spaces_nospace k t H). eauto.
  - rewrite (lstrip_space t r H). intros Hk.
    destruct (IH Hk) as (m' & Hm' & Hg).
    pose proof (greedy_spaces_space k t r H) as G. rewrite Hm' in G.
    destruct G as (m'' & -> & Hg'). exists m''. split; [done|]. congruence.
Qed.
End GreedySpaces.

(** *** The closing part of a fenced pattern *)

Lemma byte_not_fence a u :
  nat_of_ascii a <> 96 -> strip_prefix fence (String a u) = None.
Proof. intros H. unfold fence. by apply other_byte. Qed.

Lemma fence_not_space s r :
  after_space s = Some r -> strip_prefix fence s = None.
Proof.
  intros H. apply after_space_cases in H
    as [(a & -> & E1)|[(a & b & -> & E1 & E2)|(a & b & c & -> & E1 & E2 & E3)]];
    apply byte_not_fence.
  - apply isspace1_low in E1. lia.
  - apply isspace2_bytes in E2. lia.
  - apply isspace3_bytes in E3. lia.
Qed.

Lemma lit_fence t :
  match_here [Lit fence] t =
    match strip_prefix fence t with
    | Some _ => Some (RMatch fence EmptyString)
    | None => None
    end.
Proof. simpl. by destruct (strip_prefix fence t). Qed.

Lemma lit_fence_space s r :
  after_space s = Some r -> match_here [Lit fence] s = None.
Proof. intros E. by rewrite lit_fence, (fence_not_space s r E). Qed.

Lemma closing_unfold t :
  match_here closing t = greedy_spaces (match_here [Lit fence]) t.
Proof. reflexivity. Qed.

Lemma closing_none t :
  strip_prefix fence (lstrip t) = None -> match_here closing t = None.
Proof.
  intros H. rewrite closing_unfold. apply greedy_spaces_none.
  - intros s r E _. by apply (lit_fence_space s r).
  - by rewrite lit_fence, H.
Qed.

Lemma closing_some t a :
  strip_prefix fence (lstrip t) = Some a ->
  exists m, match_here closing t = Some m /\ group1 m = EmptyString.
Proof.
  intros H. rewrite closing_unfold.
  apply (greedy_spaces_some _ t (RMatch fence EmptyString)).
  by rewrite lit_fence, H.
Qed.

Lemma closing_space s r :
  after_space s = Some r ->
  match_here closing r = None -> match_here closing s = None.
Proof.
  intros E H. rewrite closing_unfold in *.
  pose proof (greedy_spaces_space (match_here [Lit fence]) s r E) as G.
  rewrite H in G. rewrite G. by apply (lit_fence_space s r).
Qed.

(** Nothing closes inside the encoding of a character. *)
Lemma closing_continuation a u :
  128 <= nat_of_ascii a < 194 -> match_here closing (String a u) = None.
Proof.
  intros H. rewrite closing_unfold.
  rewrite (greedy_spaces_nospace _ _ (continuation_no_space a u H)).
  rewrite lit_fence, byte_not_fence; [done|lia].
Qed.

(** *** Where the first fence is *)

Lemma fence_visible : 32 < nat_of_ascii "`" < 128.
Proof. change (nat_of_ascii "`") with 96. lia. Qed.

Lemma lstrip_fence a : lstrip (fence +:+ a) = fence +:+ a.
Proof. unfold fence. rewrite append_cons. apply lstrip_starts_visible, fence_visible. Qed.

Lemma split_first_blank u a :
  strip_prefix fence (lstrip u) = Some a ->
  exists b, split_at_first fence u = Some (b, a) /\ rstrip b = EmptyString.
Proof.
  induction u as [u H|u r H IH] using space_ind.
  - rewrite (lstrip_nospace u H). intros P. exists EmptyString.
    by rewrite split_at_first_unfold, P.
  - rewrite (lstrip_space u r H). intros P.
    destruct (IH P) as (b & Hb & Hr).
    destruct (space_token u r H) as (tok & -> & _ & R & S).
    exists (tok +:+ b). unfold fence at 1.
    rewrite (S "`"%char "``" r fence_visible). fold fence. rewrite Hb.
    split; [done|]. rewrite R.
    apply rstrip_empty_lstrip in Hr. by rewrite Hr.
Qed.

Lemma split_first_blank_inv u b a :
  split_at_first fence u = Some (b, a) -> rstrip b = EmptyString ->
  strip_prefix fence (lstrip u) = Some a.
Proof.
  intros S Hr. apply split_at_first_eq in S as ->.
  apply rstrip_empty_lstrip in Hr.
  rewrite (lstrip_app_blank b _ Hr), lstrip_fence.
  apply strip_prefix_app.
Qed.

Lemma split_first_lstrip r :
  split_at_first fence (lstrip r) =
    (fun p => (lstrip p.1, p.2)) <$> split_at_first fence r.
Proof.
  induction r as [r H|r r' H IH] using space_ind.
  - rewrite (lstrip_nospace r H).
    destruct (split_at_first fence r) as [[b a]|] eqn:S; [|done].
    simpl. f_equal. f_equal.
    destruct b as [|c b]; [done|]. symmetry. apply lstrip_nospace.
    apply split_at_first_eq in S. rewrite S in H.
    by apply (after_space_none_prefix _ (fence +:+ a)).
  - rewrite (lstrip_space r r' H), IH.
    destruct (space_token r r' H) as (tok & -> & T & _ & S).
    unfold fence at 2. rewrite (S "`"%char "``" r' fence_visible). fold fence.
    destruct (split_at_first fence r') as [[b a]|]; [|done].
    simpl. by rewrite (lstrip_space _ _ (T b)).
Qed.

(** *** The lazy group in front of the closing part *)

Lemma lazy_fence_none u :
  split_at_first fence u = None -> lazy_group (match_here closing) u = None.
Proof.
  induction u as [|c u IH]; [done|].
  rewrite split_at_first_cons.
  destruct (strip_prefix fence (String c u)) eqn:P; [done|].
  destruct (split_at_first fence u) as [[b a]|] eqn:S; [done|].
  intros _. rewrite lazy_group_unfold.
  destruct (match_here closing (String c u)) as [m|] eqn:K.
  - exfalso.
    destruct (strip_prefix fence (lstrip (String c u))) as [a|] eqn:L.
    + destruct (split_first_blank _ _ L) as (b & Hb & _).
      rewrite split_at_first_cons, P, S in Hb. done.
    + by rewrite (closing_none _ L) in K.
  - by rewrite IH.
Qed.

Lemma lazy_fence_some u b a :
  split_at_first fence u = Some (b, a) ->
  exists m, lazy_group (match_here closing) u = Some m /\ group1 m = rstrip b.
Proof.
  revert b. induction u as [|c u IH]; intros b; [done|].
  intros S.
  destruct (strip_prefix fence (lstrip (String c u))) as [a'|] eqn:L.
  - destruct (closing_some _ _ L) as (m & Hm & Hg).
    destruct (split_first_blank _ _ L) as (b' & Hb & Hr).
    rewrite S in Hb. injection Hb as <- <-.
    exists m. rewrite lazy_group_unfold. rewrite Hm. split; [done|]. by rewrite Hr.
  - rewrite lazy_group_unfold. rewrite (closing_none _ L).
    rewrite split_at_first_cons in S.
    destruct (strip_prefix fence (String c u)) as [rest|] eqn:P.
    { injection S as <- <-. exfalso.
      destruct (after_space (String c u)) as [r|] eqn:E.
      - by rewrite (fence_not_space _ _ E) in P.
      - rewrite (lstrip_nospace _ E) in L. congruence. }
    destruct (split_at_first fence u) as [[b' a'']|] eqn:S'; [|done].
    injection S as <- <-.
    destruct (IH b' eq_refl) as (m & -> & Hg).
    exists (capture c m). split; [done|]. simpl group1. rewrite Hg.
    symmetry. apply rstrip_cons. intros B.
    apply split_at_first_eq in S'. subst u.
    rewrite <- append_cons, (lstrip_app_blank _ _ B), lstrip_fence in L.
    by rewrite strip_prefix_app in L.
Qed.

Lemma lazy_closing_none u :
  lazy_group (match_here closing) u = None -> match_here closing u = None.
Proof.
  rewrite lazy_group_unfold. by destruct (match_here closing u).
Qed.

Lemma lazy_continuation a u :
  128 <= nat_of_ascii a < 194 ->
  lazy_group (match_here closing) u = None ->
  lazy_group (match_here closing) (String a u) = None.
Proof.
  intros Ha H. rewrite lazy_group_unfold, (closing_continuation a u Ha).
  by rewrite H.
Qed.

Lemma lazy_fence_space s r :
  after_space s = Some r ->
  lazy_group (match_here closing) r = None ->
  lazy_group (match_here closing) s = None.
Proof.
  intros E H. pose proof (closing_space s r E (lazy_closing_none r H)) as K.
  rewrite lazy_group_unfold, K.
  apply after_space_cases in E
    as [(a & -> & E1)|[(a & b & -> & E1 & E2)|(a & b & c & -> & E1 & E2 & E3)]].
  - by rewrite H.
  - apply isspace2_bytes in E2 as [_ Hb].
    by rewrite (lazy_continuation b r Hb H).
  - apply isspace3_bytes in E3 as (_ & Hb & Hc).
    by rewrite (lazy_continuation b _ Hb (lazy_continuation c r Hc H)).
Qed.

(** *** What follows the opening of a fenced pattern *)

Lemma after_opening_unfold r :
  match_here after_opening r =
    greedy_spaces (lazy_group (match_here closing)) r.
Proof. reflexivity. Qed.

Lemma after_opening_none r :
  contains fence r = false -> match_here after_opening r = None.
Proof.
  unfold contains. intros H. rewrite after_opening_unfold.
  apply greedy_spaces_none; [apply lazy_fence_space|].
  apply lazy_fence_none. rewrite split_first_lstrip.
  by destruct (split_at_first fence r).
Qed.

Lemma after_opening_some r b a :
  split_at_first fence r = Some (b, a) ->
  exists m, match_here after_opening r = Some m /\
            strip (group1 m) = strip b.
Proof.
  intros S.
  destruct (lazy_fence_some (lstrip r) (lstrip b) a) as (m & Hm & Hg).
  { by rewrite split_first_lstrip, S. }
  destruct (greedy_spaces_some _ r m Hm) as (m' & Hm' & Hg').
  exists m'. rewrite after_opening_unfold. split; [done|].
  by rewrite Hg', Hg, strip_rstrip_lstrip.
Qed.

(** *** The leftmost position at which a pattern matches *)

Section Leftmost.
Variables (opening close : string) (rest : pattern).
Hypothesis rest_none :
  forall r, contains close r = false -> match_here rest r = None.
Hypothesis rest_some :
  forall r, contains close r = true -> is_Some (match_here rest r).

Lemma search_some_contains s m :
  search (Lit opening :: rest) s = Some m ->
  contains close (drop_chars (String.length opening) s) = true.
Proof.
  induction s as [|c s IH]; rewrite search_unfold, match_here_lit;
    destruct (strip_prefix opening _) as [r|] eqn:P;
    try (destruct (match_here rest r) as [m'|] eqn:K);
    simpl; try done.
  - intros _. rewrite <- (strip_prefix_drop _ _ _ P).
    destruct (contains close r) eqn:C; [done|].
    by rewrite (rest_none _ C) in K.
  - intros _. rewrite <- (strip_prefix_drop _ _ _ P).
    destruct (contains close r) eqn:C; [done|].
    by rewrite (rest_none _ C) in K.
  - intros H. apply contains_drop_cons. by apply IH.
  - intros H. apply contains_drop_cons. by apply IH.
Qed.

Lemma search_leftmost s :
  search (Lit opening :: rest) s =
    match split_at_first opening s with
    | Some (_, r) => consume_lit opening <$> match_here rest r
    | None => None
    end.
Proof.
  induction s as [|c s IH]; rewrite search_unfold, match_here_lit;
    [simpl split_at_first|rewrite split_at_first_cons];
    destruct (strip_prefix opening _) as [r|] eqn:P; try done.
  - by destruct (match_here rest r).
  - destruct (match_here rest r) as [m|] eqn:K; [done|]. simpl.
    destruct (search (Lit opening :: rest) s) as [m|] eqn:S; [|done].
    exfalso. apply search_some_contains in S.
    apply (contains_drop_cons _ _ c) in S.
    rewrite <- (strip_prefix_drop _ _ _ P) in S.
    destruct (rest_some _ S) as [m' Hm']. congruence.
  - rewrite IH. by destruct (split_at_first opening s) as [[b a]|].
Qed.
End Leftmost.

(** *** The three kinds of pattern of the source *)

Lemma fenced_search opening s :
  (fun m => strip (group1 m)) <$> search (fenced_pattern opening) s =
    match split_at_first opening s with
    | Some (_, r) =>
        match split_at_first fence r with
        | Some (body, _) => Some (strip body)
        | None => None
        end
    | None => None
    end.
Proof.
  change (fenced_pattern opening) with (Lit opening :: after_opening).
  rewrite (search_leftmost opening fence after_opening after_opening_none).
  - destruct (split_at_first opening s) as [[b r]|]; [|done].
    destruct (split_at_first fence r) as [[body a]|] eqn:S.
    + destruct (after_opening_some _ _ _ S) as (m & -> & Hg).
      simpl. by rewrite Hg.
    + rewrite after_opening_none; [done|]. unfold contains. by rewrite S.
  - intros r. unfold contains.
    destruct (split_at_first fence r) as [[body a]|] eqn:S; [|done].
    intros _. destruct (after_opening_some _ _ _ S) as (m & -> & _). eauto.
Qed.

Lemma greedy_any_last cl r :
  greedy_star any_char (match_here [Lit cl]) r =
    match split_at_last cl r with
    | Some (b, _) => Some (RMatch (b +:+ cl) EmptyString)
    | None => None
    end.
Proof.
  assert (Hlit : forall t,
    match_here [Lit cl] t =
      match strip_prefix cl t with
      | Some _ => Some (RMatch cl EmptyString)
      | None => None
      end).
  { intros t. rewrite match_here_lit. destruct (strip_prefix cl t); [|done].
    simpl. unfold consume_lit. simpl. by rewrite append_empty_r. }
  induction r as [|c r IH].
  - change (greedy_star any_char (match_here [Lit cl]) "")
      with (match_here [Lit cl] "").
    rewrite Hlit. simpl split_at_last. by destruct (strip_prefix cl "").
  - rewrite greedy_star_cons. unfold any_char at 1. rewrite IH.
    simpl split_at_last.
    destruct (split_at_last cl r) as [[b a]|]; [done|].
    rewrite Hlit. by destruct (strip_prefix cl (String c r)).
Qed.

Lemma json_object_search s :
  (fun m => strip (group0 m)) <$> search json_object_pattern s =
    match split_at_first "{" s with
    | Some (_, r) =>
        match split_at_last "}" r with
        | Some (inner, _) => Some (strip ("{" +:+ inner +:+ "}"))
        | None => None
        end
    | None => None
    end.
Proof.
  unfold json_object_pattern.
  rewrite (search_leftmost "{" "}" [AnyStar; Lit "}"]).
  - destruct (split_at_first "{" s) as [[b r]|]; [|done].
    change (match_here [AnyStar; Lit "}"] r)
      with (greedy_star any_char (match_here [Lit "}"]) r).
    rewrite greedy_any_last.
    by destruct (split_at_last "}" r) as [[inner a]|].
  - intros r C.
    change (match_here [AnyStar; Lit "}"] r)
      with (greedy_star any_char (match_here [Lit "}"]) r).
    rewrite greedy_any_last.
    destruct (split_at_last "}" r) as [[inner a]|] eqn:S; [|done].
    assert (is_Some (split_at_last "}" r)) as H by eauto.
    apply split_at_last_some in H. congruence.
  - intros r C. apply split_at_last_some in C as [[inner a] S].
    change (match_here [AnyStar; Lit "}"] r)
      with (greedy_star any_char (match_here [Lit "}"]) r).
    rewrite greedy_any_last, S. eauto.
Qed.

Lemma greedy_any_all r :
  greedy_star any_char (match_here []) r = Some (RMatch r EmptyString).
Proof.
  induction r as [|c r IH]; [done|].
  rewrite greedy_star_cons. unfold any_char at 1. by rewrite IH.
Qed.

Lemma documentclass_search s :
  (fun m => strip (group0 m)) <$> search documentclass_pattern s =
    match split_at_first documentclass s with
    | Some (_, r) => Some (strip (documentclass +:+ r))
    | None => None
    end.
Proof.
  unfold documentclass_pattern.
  rewrite (search_leftmost documentclass EmptyString [AnyStar]).
  - destruct (split_at_first documentclass s) as [[b r]|]; [|done].
    change (match_here [AnyStar] r)
      with (greedy_star any_char (match_here []) r).
    by rewrite greedy_any_all.
  - intros r. by rewrite contains_empty.
  - intros r _. change (match_here [AnyStar] r)
      with (greedy_star any_char (match_here []) r).
    rewrite greedy_any_all. eauto.
Qed.

End ReFacts.

Module ExtractFacts.
Import PyStr PyStrFacts Re ReFacts Extract.

Lemma fenced_rule tag s :
  (fun m => strip (group1 m)) <$> search (fenced_pattern (fence +:+ tag)) s
  = fenced_block tag s.
Proof. apply fenced_search. Qed.

(** C4 (as amended).  For every reply, both extractors apply three rules
    in order and return, trimmed, the text that the first matching one
    takes: (a) the text between the first fence that is directly followed
    by the letters of the expected tag and the next fence after it, so
    that whatever follows those letters belongs to it; (b) the text
    between the first fence and the next fence, the tag of the block
    included; (c) for JSON the span from the first opening brace to the
    last closing brace after it, for LaTeX the text from the first
    document-start marker on.  When no rule matches, the result is the
    trimmed reply. *)
Theorem extraction_rules (response : string) :
  _extract_json_data response =
    first_match [fenced_block "json"; fenced_block ""; brace_span] response
  /\ _extract_latex_code response =
    first_match [fenced_block "latex"; fenced_block ""; from_documentclass]
      response.
Proof.
  unfold _extract_json_data, _extract_latex_code, first_match.
  pose proof (fenced_rule "json" response) as Hj.
  pose proof (fenced_rule "latex" response) as Hl.
  pose proof (fenced_rule "" response) as Ha.
  pose proof (json_object_search response) as Ho.
  pose proof (documentclass_search response) as Hd.
  change (fence +:+ "json") with "```json" in Hj.
  change (fence +:+ "latex") with "```latex" in Hl.
  change (fence +:+ "") with "```" in Ha.
  fold (brace_span response) in Ho.
  fold (from_documentclass response) in Hd.
  rewrite <- Hj, <- Hl, <- Ha, <- Ho, <- Hd.
  split.
  - destruct (search (fenced_pattern "```json") response); [done|].
    destruct (search (fenced_pattern "```") response); [done|].
    by destruct (search json_object_pattern response).
  - destruct (search (fenced_pattern "```latex") response); [done|].
    destruct (search (fenced_pattern "```") response); [done|].
    by destruct (search documentclass_pattern response).
Qed.

(** C4 as stated fails on each of its three rules.  On rule (c) for JSON:
    on a reply with two brace groups the source returns the text from the
    first opening brace to the last closing brace, not the first balanced
    span.  On rule (b): for a block with another tag the source returns
    the tag with the content.  On rule (a): a block tagged [jsonc] is
    taken as one tagged [json], and what follows [json] in its tag is
    returned with the content. *)
Lemma extraction_not_as_claimed :
  ~ (forall response,
       _extract_json_data response =
         first_match [fenced_block "json"; fenced_block ""; first_balanced_span]
           response)
  /\ (any_block "```tex X ```" = Some "X"
      /\ _extract_json_data "```tex X ```" = "tex X"
      /\ _extract_latex_code "```tex X ```" = "tex X")
  /\ (tagged_block "json" "```jsonc X ```" = None
      /\ any_block "```jsonc X ```" = Some "X"
      /\ _extract_json_data "```jsonc X ```" = "c X").
Proof.
  split; [|by vm_compute].
  intros H. specialize (H "{a} x {b}"). vm_compute in H. discriminate H.
Qed.

(** Precedence of the tagged fence over an untagged one elsewhere. *)
Example extraction_precedence :
  _extract_json_data "``` Y ``` and ```json X ```" = "X"
  /\ _extract_latex_code "``` Y ``` and ```latex X ```" = "X".
Proof. by vm_compute. Qed.

(** White space of more than one byte is trimmed, and a byte of another
    character is not taken for white space: U+00A0 and U+3000 around the
    character U+4F60, whose last byte is A0. *)
Example extraction_multibyte :
  strip (String "194" (String "160"
           ("你" +:+ String "227" (String "128" (String "128" "")))))
  = "你"
  /\ _extract_json_data "你" = "你"
  /\ _extract_json_data
       ("```json" +:+ String "194" (String "160" "{}") +:+ "```") = "{}".
Proof. by vm_compute. Qed.

(** Fallback: without a fence and without a structural match the trimmed
    reply is returned. *)
Lemma no_fence_no_search tag s :
  contains fence s = false ->
  search (fenced_pattern (fence +:+ tag)) s = None.
Proof.
  intros H. pose proof (fenced_rule tag s) as R. unfold fenced_block in R.
  destruct (split_at_first (fence +:+ tag) s) as [[b r]|] eqn:S.
  - assert (contains (fence +:+ tag) s = true) as C
      by (unfold contains; by rewrite S).
    apply contains_app_l in C. congruence.
  - by destruct (search (fenced_pattern (fence +:+ tag)) s).
Qed.

Lemma extraction_fallback (response : string) :
  contains fence response = false ->
  (contains "{" response = false ->
   _extract_json_data response = strip response)
  /\ (contains documentclass response = false ->
      _extract_latex_code response = strip response).
Proof.
  intros Hf.
  pose proof (no_fence_no_search "json" response Hf) as Hj.
  pose proof (no_fence_no_search "latex" response Hf) as Hl.
  pose proof (no_fence_no_search "" response Hf) as Ha.
  change (fence +:+ "json") with "```json" in Hj.
  change (fence +:+ "latex") with "```latex" in Hl.
  change (fence +:+ "") with "```" in Ha.
  unfold _extract_json_data, _extract_latex_code, contains.
  rewrite Hj, Hl, Ha. split; intros H.
  - pose proof (json_object_search response) as R.
    destruct (split_at_first "{" response); [done|].
    by destruct (search json_object_pattern response).
  - pose proof (documentclass_search response) as R.
    destruct (split_at_first documentclass response); [done|].
    by destruct (search documentclass_pattern response).
Qed.

End ExtractFacts.

Module ConfigFacts.
Import Py Core Config SelectionSpec Scenario.

(** *** What the client constructors leave alone *)








(** *** The selection *)

Lemma first_configured_find names providers :
  first_configured names providers = find (fun n => mem n providers) names.
Proof.
  induction names as [|n names IH]; [done|].
  simpl. by destruct (mem n providers).
Qed.



Lemma mem_keys {A} (k : string) (d : dict A) : mem k d = true <-> k ∈ keys d.
Proof.
  unfold mem, keys. induction d as [|[k' v] d IH]; simpl.
  - split; [done|]. by intros ?%elem_of_nil.
  - destruct (String.eqb_spec k k') as [->|Hne].
    + split; [|done]. intros _. apply elem_of_cons. by left.
    + rewrite IH, elem_of_cons. split; [by right|]. by intros [?|?].
Qed.





(** *** The loader *)

(** An exception of the request, of whatever class, leads to the local
    source. *)
Lemma load_falls_back_on_exception w m e :
  config_fetch w = FetchRaises e ->
  _load_llm_config w m = _fallback_to_local_config w m.
Proof. unfold _load_llm_config. by intros ->. Qed.

(** So does an exception while a 200 reply is processed, from the state
    reached when it was raised. *)
Lemma load_falls_back_on_bad_reply w m json e m1 :
  config_fetch w = FetchReply 200 json ->
  load_from_backend w json m = (inl e, m1) ->
  _load_llm_config w m = _fallback_to_local_config w m1.
Proof. unfold _load_llm_config. by intros -> ->. Qed.

(** C2 (the source against the claim).  On a reply whose status is not 200
    the loader does nothing: it returns [None] and the manager is left as
    it was, without the local source being read. *)
Theorem no_fallback_on_error_status (w : World) (m : Manager)
    (status_code : nat) (json : may_raise value) :
  config_fetch w = FetchReply status_code json ->
  status_code <> 200 ->
  _load_llm_config w m = (VNone, m).
Proof.
  unfold _load_llm_config. intros -> H.
  by destruct (Nat.eqb_spec status_code 200).
Qed.

Lemma no_fallback_on_error_status_witness :
  _load_llm_config backend_500 init_manager = (VNone, init_manager)
  /\ current_provider (load_with_fallback backend_500 init_manager).2
     = Some "deepseek".
Proof.
  split.
  - apply (no_fallback_on_error_status backend_500 init_manager 500
             (inl (raise_ JSONDecodeError ""))); [reflexivity|lia].
  - by vm_compute.
Defined.

End ConfigFacts.


Module GatewayFacts.
Import Py Core Gateway Scenario.

Lemma in_list_elem (x : string) (l : list string) :
  in_list x l = true -> x ∈ l.
Proof.
  unfold in_list. induction l as [|y l IH]; simpl; [done|].
  destruct (String.eqb_spec x y) as [->|_]; simpl.
  - intros _. apply elem_of_cons. by left.
  - intros H. apply elem_of_cons. right. by apply IH.
Qed.

Lemma active_client_some m provider client :
  current_provider m = Some provider ->
  lookup provider (llm_clients m) = Some client ->
  PyStr.truthy provider = true ->
  active_client m = Some (provider, client).
Proof. unfold active_client. by intros -> -> ->. Qed.

(** The three adapters on a reply that carries a text in first place. *)

Lemma openai_compatible_reads_first_choice w m client messages kwargs cfg
    reply :
  llm_config m = VDict cfg -> sdk client = AsyncOpenAI ->
  (forall request, exists more,
     chat_completions_create w request
     = inr {| choices := Some reply :: more |}) ->
  _call_openai_compatible w m client messages kwargs
  = inr (VStr (PyStr.strip reply)).
Proof.
  intros Hcfg Hsdk Hreply. unfold _call_openai_compatible.
  rewrite Hcfg, Hsdk. simpl.
  destruct (bool_decide _); simpl;
    match goal with
    | |- context [chat_completions_create w ?r] =>
        destruct (Hreply r) as [more ->]
    end; done.
Qed.

Lemma anthropic_reads_text w m client messages kwargs cfg reply :
  llm_config m = VDict cfg -> sdk client = Anthropic ->
  (forall request, exists block more,
     messages_create w request
     = inr {| content_blocks := Has (block :: more) |}
     /\ text block = Has reply) ->
  _call_anthropic w m client messages kwargs = inr (VStr reply).
Proof.
  intros Hcfg Hsdk Hreply. unfold _call_anthropic.
  rewrite Hcfg, Hsdk. simpl.
  destruct (split_system messages (VStr "")) as [system_message user_messages].
  simpl.
  match goal with
  | |- context [messages_create w ?r] =>
      destruct (Hreply r) as (block & more & -> & Ht)
  end.
  unfold first_block. simpl. by rewrite Ht.
Qed.

Lemma gemini_reads_first_part w m client messages kwargs cfg reply :
  llm_config m = VDict cfg -> sdk client = GenaiClient ->
  (forall request, exists more_parts more,
     generate_content w request
     = inr {| candidates := (reply :: more_parts) :: more |}) ->
  _call_gemini w m client messages kwargs = inr reply.
Proof.
  intros Hcfg Hsdk Hreply. unfold _call_gemini.
  rewrite Hcfg, Hsdk. simpl.
  match goal with
  | |- context [generate_content w ?r] =>
      destruct (Hreply r) as (more_parts & more & ->)
  end.
  done.
Qed.

(** C3.  With an active provider whose client is registered and whose
    configuration is loaded, [_call_llm] returns a plain string for each
    of the three families, read from the reply: for a chat-completion
    reply, the content of its first choice, trimmed; for a structured-turn
    reply, the text of its first content block; for a generative-turn
    reply, the text of the first part of its first candidate.  For the
    text [OK] the result is [OK] in all three. *)
Theorem call_llm_normalises_families (w : World) (m : Manager)
    (messages : list Message) (kwargs : dict value) (provider : string)
    (client : Client) (cfg : dict value) (reply : string) :
  current_provider m = Some provider ->
  lookup provider (llm_clients m) = Some client ->
  llm_config m = VDict cfg ->
  (in_list provider openai_compatible = true ->
   sdk client = AsyncOpenAI ->
   (forall request, exists more,
      chat_completions_create w request
      = inr {| choices := Some reply :: more |}) ->
   _call_llm w m messages kwargs = inr (VStr (PyStr.strip reply)))
  /\ (provider = "anthropic" ->
      sdk client = Anthropic ->
      (forall request, exists block more,
         messages_create w request
         = inr {| content_blocks := Has (block :: more) |}
         /\ text block = Has reply) ->
      _call_llm w m messages kwargs = inr (VStr reply))
  /\ (provider = "gemini" ->
      sdk client = GenaiClient ->
      (forall request, exists more_parts more,
         generate_content w request
         = inr {| candidates := (VStr reply :: more_parts) :: more |}) ->
      _call_llm w m messages kwargs = inr (VStr reply))
  /\ PyStr.strip "OK" = "OK".
Proof.
  intros Hp Hc Hcfg. split; [|split; [|split]].
  - intros Hin Hsdk Hreply. unfold _call_llm.
    rewrite (active_client_some m provider client), Hin; try done.
    + by rewrite (openai_compatible_reads_first_choice w m client messages
                    kwargs cfg reply).
    + apply in_list_elem in Hin. unfold openai_compatible in Hin.
      set_unfold in Hin. by destruct Hin as [->|[->|[->|[->|[->|[]]]]]].
  - intros -> Hsdk Hreply. unfold _call_llm.
    rewrite (active_client_some m "anthropic" client); try done. simpl.
    by apply (anthropic_reads_text w m client messages kwargs cfg).
  - intros -> Hsdk Hreply. unfold _call_llm.
    rewrite (active_client_some m "gemini" client); try done. simpl.
    by apply (gemini_reads_first_part w m client messages kwargs cfg).
  - reflexivity.
Qed.

Lemma call_llm_normalises_families_witness :
  _call_llm (backend_single "openai") (manager_with "openai") question []
  = inr (VStr "OK")
  /\ _call_llm (backend_single "anthropic") (manager_with "anthropic")
       question [] = inr (VStr "OK")
  /\ _call_llm (backend_single "gemini") (manager_with "gemini")
       question [] = inr (VStr "OK").
Proof.
  split; [|split].
  - refine (proj1 (call_llm_normalises_families
                     (backend_single "openai") (manager_with "openai")
                     question [] "openai"
                     {| sdk := AsyncOpenAI; client_api_key := VStr "k";
                        client_base_url := VStr "https://api.openai.com/v1" |}
                     [("api_key", VStr "k")] "OK" _ _ _) _ _ _);
      try reflexivity.
    intros request. by exists [].
  - refine (proj1 (proj2 (call_llm_normalises_families
                     (backend_single "anthropic") (manager_with "anthropic")
                     question [] "anthropic"
                     {| sdk := Anthropic; client_api_key := VStr "k";
                        client_base_url := VNone |}
                     [("api_key", VStr "k")] "OK" _ _ _)) _ _ _);
      try reflexivity.
    intros request. by eexists _, [].
  - refine (proj1 (proj2 (proj2 (call_llm_normalises_families
                     (backend_single "gemini") (manager_with "gemini")
                     question [] "gemini"
                     {| sdk := GenaiClient; client_api_key := VStr "k";
                        client_base_url := VNone |}
                     [("api_key", VStr "k")] "OK" _ _ _))) _ _ _);
      try reflexivity.
    intros request. by exists [], [].
Defined.

(** C6 (as amended).  The structured-turn adapter reads the first content
    block of the reply: the value of its [text] attribute when the block
    has one -- a string, or [None] when the attribute is [None] -- and
    otherwise the string form of the block, which is returned as the
    result.  The call fails with a plain exception only when the reply has
    no [content] attribute or an empty content list, and with a
    [TypeError] when its [content] is [None]. *)
Theorem anthropic_first_block (w : World) (m : Manager) (client : Client)
    (messages : list Message) (kwargs : dict value) (cfg : dict value)
    (reply : AnthropicMessage) :
  llm_config m = VDict cfg ->
  sdk client = Anthropic ->
  (forall request, messages_create w request = inr reply) ->
  (forall block more t,
     content_blocks reply = Has (block :: more) -> text block = Has t ->
     _call_anthropic w m client messages kwargs = inr (VStr t))
  /\ (forall block more,
        content_blocks reply = Has (block :: more) -> text block = IsNone ->
        _call_anthropic w m client messages kwargs = inr VNone)
  /\ (forall block more,
        content_blocks reply = Has (block :: more) -> text block = Absent ->
        _call_anthropic w m client messages kwargs
        = inr (VStr (block_str block)))
  /\ (content_blocks reply = Has [] \/ content_blocks reply = Absent ->
      _call_anthropic w m client messages kwargs
      = inl (raise_ Exception "Anthropic API响应格式异常"))
  /\ (content_blocks reply = IsNone ->
      _call_anthropic w m client messages kwargs
      = inl (raise_ TypeError "object of type 'NoneType' has no len()")).
Proof.
  intros Hcfg Hsdk Hreply.
  assert (_call_anthropic w m client messages kwargs = first_block reply)
    as ->.
  { unfold _call_anthropic. rewrite Hcfg, Hsdk. simpl.
    destruct (split_system messages (VStr "")) as [sys user_messages].
    simpl. by rewrite Hreply. }
  unfold first_block. split; [|split; [|split; [|split]]].
  - by intros block more t -> ->.
  - by intros block more -> ->.
  - by intros block more -> ->.
  - by intros [->| ->].
  - by intros ->.
Qed.

Lemma anthropic_first_block_witness :
  _call_anthropic (answering tool_use_reply (backend_single "anthropic"))
    (manager_with "anthropic")
    {| sdk := Anthropic; client_api_key := VStr "k";
       client_base_url := VNone |} question []
  = inr (VStr "ToolUseBlock(name='search')").
Proof.
  refine (proj1 (proj2 (proj2 (anthropic_first_block
            (answering tool_use_reply (backend_single "anthropic"))
            (manager_with "anthropic") _ question []
            [("api_key", VStr "k")] tool_use_reply _ _ _)))
            {| text := Absent; block_str := "ToolUseBlock(name='search')" |}
            [ {| text := Has "OK"; block_str := "TextBlock(text='OK')" |} ]
            _ _);
    intros; reflexivity.
Defined.

(** C6 as stated fails: on a reply whose first block has no text, the
    unified call returns normally, with the string form of the block. *)
Lemma anthropic_no_text_is_not_an_error :
  (forall block more,
     content_blocks tool_use_reply = Has (block :: more) ->
     text block = Absent)
  /\ _call_llm (answering tool_use_reply (backend_single "anthropic"))
       (manager_with "anthropic") question []
     = inr (VStr "ToolUseBlock(name='search')").
Proof.
  split; [|by vm_compute].
  by intros block more [= <- <-].
Qed.

(** A reply whose content is [None] raises at [len]. *)
Example anthropic_none_content :
  _call_llm (answering empty_reply (backend_single "anthropic"))
    (manager_with "anthropic") question []
  = inl (raise_ TypeError "object of type 'NoneType' has no len()").
Proof. by vm_compute. Qed.

End GatewayFacts.


Module ToolsFacts.
Import Py Core Gateway Tools Scenario.

(** A call that returns has read the configuration as a mapping. *)
Lemma call_llm_reads_config w m messages kwargs v :
  _call_llm w m messages kwargs = inr v ->
  exists cfg, llm_config m = VDict cfg.
Proof.
  unfold _call_llm, _call_openai_compatible, _call_anthropic, _call_gemini.
  destruct (llm_config m); try by eexists.
  all: by repeat case_match.
Qed.

Lemma call_llm_needs_provider w m messages kwargs v :
  _call_llm w m messages kwargs = inr v -> require_provider m = inr ().
Proof.
  unfold _call_llm, require_provider.
  by destruct (active_client m) as [[provider client]|].
Qed.

(** The model name is read whenever the configuration is a mapping. *)
Lemma configured_model_dict m cfg :
  llm_config m = VDict cfg -> exists model, configured_model m = inr model.
Proof.
  intros H. unfold configured_model. rewrite H. simpl.
  destruct cfg; by eexists.
Qed.

(** So it is read in every run in which the authoring step returns. *)
Lemma author_latex_reads_model w m system prompt markup :
  author_latex w m system prompt = inr markup ->
  exists model, configured_model m = inr model.
Proof.
  unfold author_latex. destruct prompt as [e|p]; [done|]. simpl.
  destruct (_call_llm w m _ []) as [e|response] eqn:Hcall; [done|].
  intros _. destruct (call_llm_reads_config _ _ _ _ _ Hcall) as [cfg Hcfg].
  by apply (configured_model_dict m cfg).
Qed.

(** C7 (as amended).  In the free-text flow a failure of the compiler call
    after the markup was authored still yields a successful result that
    carries the markup and the compilation error.  In the flow that starts
    from an uploaded LaTeX project a failure of the compilation step is
    raised: the flow ends with an exception whose message wraps that of
    the failure, and the markup is not returned. *)
Theorem compile_failure_policy (w : World) (m : Manager)
    (parameters : dict value) (markup : string) (e : exn) :
  let title := get parameters "title" (VStr "演示文稿") in
  let theme := get parameters "theme" (VStr "academic") in
  let input_type := get parameters "input_type" (VStr "text_description") in
  (str_eq input_type "latex_project" = false ->
   require_provider m = inr () ->
   author_latex w m system_text (text_prompt w parameters) = inr markup ->
   _call_ppt_service w m markup title
     (get parameters "use_ucas_style" (VBool false)) = inl e ->
   _generate_ppt_with_llm w m parameters
   = inr (VDict [("status", VStr "success");
                 ("latex_content", VStr markup);
                 ("title", title);
                 ("theme", theme);
                 ("input_type", input_type);
                 ("pdf_compilation_error", VStr (msg e))]))
  /\ (forall service_url full_path latex_content,
        str_eq input_type "latex_project" = true ->
        project_source w m parameters
        = inr (service_url, full_path, latex_content) ->
        project_beamer w m parameters latex_content = inr markup ->
        compile_project w service_url full_path parameters markup title theme
          (get parameters "main_tex_filename" (VStr "main.tex")) = inl e ->
        _generate_ppt_with_llm w m parameters
        = inl (raise_ Exception ("处理LaTeX项目失败: " +:+ msg e))).
Proof.
  intros title theme input_type. split.
  - intros Htype Hprov Hllm Hcompile. unfold _generate_ppt_with_llm.
    fold input_type title theme. rewrite Htype.
    destruct (author_latex_reads_model _ _ _ _ _ Hllm) as [model Hmodel].
    destruct (text_prompt w parameters) as [e'|prompt]; [done|].
    rewrite Hprov, Hmodel. cbn [bind]. rewrite Hllm. cbn [bind].
    by rewrite Hcompile.
  - intros service_url full_path latex_content Htype Hsrc Hbeamer Hcompile.
    unfold _generate_ppt_with_llm. fold input_type. rewrite Htype.
    unfold _handle_latex_project. rewrite Hsrc. simpl.
    rewrite Hbeamer. simpl. fold title theme. by rewrite Hcompile.
Qed.

Lemma compile_failure_policy_witness :
  _generate_ppt_with_llm (authoring compile_500) (ready compile_500)
    (parameters text_task)
  = inr (VDict [("status", VStr "success");
                ("latex_content", VStr "\documentclass{beamer}");
                ("title", VStr "Q3");
                ("theme", VStr "academic");
                ("input_type", VStr "text_description");
                ("pdf_compilation_error",
                 VStr "PPT生成器服务返回错误 500: Internal Server Error")])
  /\ _generate_ppt_with_llm (authoring compile_500) (ready compile_500)
       (parameters (project_task false))
     = inl (raise_ Exception
              "处理LaTeX项目失败: PPT生成器服务返回错误 500: Internal Server Error").
Proof.
  split.
  - refine (proj1 (compile_failure_policy (authoring compile_500)
                     (ready compile_500) (parameters text_task)
                     "\documentclass{beamer}"
                     (raise_ Exception
                        "PPT生成器服务返回错误 500: Internal Server Error"))
              _ _ _ _); reflexivity.
  - refine (proj2 (compile_failure_policy (authoring compile_500)
                     (ready compile_500) (parameters (project_task false))
                     "\documentclass{beamer}"
                     (raise_ Exception
                        "PPT生成器服务返回错误 500: Internal Server Error"))
              "http://localhost:8002" "../backend/uploads/paper.zip"
              (VStr "\documentclass{article}") _ _ _ _); reflexivity.
Defined.

(** C7 as stated fails for the project flow: the markup is authored, the
    compilation request is answered 500, and the flow raises. *)
Lemma project_flow_raises_on_compile_failure :
  project_beamer (authoring compile_500) (ready compile_500)
    (parameters (project_task false)) (VStr "\documentclass{article}")
  = inr "\documentclass{beamer}"
  /\ _process_with_llm (authoring compile_500) (ready compile_500) "ppt"
       (parameters (project_task false))
     = inl (raise_ Exception
              "处理LaTeX项目失败: PPT生成器服务返回错误 500: Internal Server Error").
Proof. by vm_compute. Qed.

Lemma truthy_append a b :
  PyStr.truthy (a +:+ b) = PyStr.truthy a || PyStr.truthy b.
Proof. by destruct a. Qed.

Lemma table_key_message v e :
  table_key v = inl e -> PyStr.truthy (msg e) = true.
Proof. destruct v; by intros [= <-]. Qed.

Lemma text_prompt_message w parameters e :
  text_prompt w parameters = inl e -> PyStr.truthy (msg e) = true.
Proof.
  unfold text_prompt, _build_prompt_by_input_type.
  destruct (negb _); [|done].
  destruct (table_key (get parameters "theme" _)) eqn:H1; simpl;
    [intros [= <-]; by eapply table_key_message|].
  destruct (table_key (get parameters "color_scheme" _)) eqn:H2; simpl;
    [intros [= <-]; by eapply table_key_message|].
  destruct (table_key (get parameters "font_size" _)) eqn:H3; simpl;
    [intros [= <-]; by eapply table_key_message|].
  done.
Qed.

(** Every exception that leaves the dispatcher has a message. *)
Lemma process_with_llm_error_message w m tool_type parameters e :
  _process_with_llm w m tool_type parameters = inl e ->
  PyStr.truthy (msg e) = true.
Proof.
  assert (Hmcp : forall t, _call_mcp_service w m t parameters = inl e ->
                           PyStr.truthy (msg e) = true).
  { intros t. unfold _call_mcp_service, unsupported_tool.
    repeat case_match; intros [= <-]; try done.
    all: simpl; by rewrite truthy_append, orb_true_r. }
  unfold _process_with_llm. repeat case_match; try apply Hmcp.
  - unfold _generate_ppt_with_llm, _handle_latex_project.
    destruct (str_eq _ _).
    + repeat case_match; by intros [= <-].
    + destruct (text_prompt w parameters) as [e'|prompt] eqn:Hprompt.
      * intros [= <-]. by eapply text_prompt_message.
      * cbn [bind]. repeat case_match; by intros [= <-].
  - unfold _generate_chart_data_with_llm.
    repeat case_match; by intros [= <-].
  - by intros [= <-].
Qed.

End ToolsFacts.

Module TasksFacts.
Import Py Core Tools ToolsFacts Tasks Scenario.

#[local] Arguments _update_backend_task : simpl never.

Lemma tasks_update_backend task_id status result error_message m :
  tasks (_update_backend_task task_id status result error_message m)
  = tasks m.
Proof. unfold _update_backend_task. by repeat case_match. Qed.

Lemma tasks_begin task_id task_data m :
  tasks (process_task_begin task_id task_data m)
  = <[task_id := {| status := "running"; data := task_data;
                    result := VNone; error := VNone |}]> (tasks m).
Proof. reflexivity. Qed.

Lemma tasks_failed task_id e m :
  tasks (process_task_failed task_id e m).2
  = alter (fun r => set_error (VStr (msg e)) (set_status "failed" r))
      task_id (tasks m).
Proof. unfold process_task_failed. simpl. by rewrite ?tasks_update_backend. Qed.

Lemma tasks_finish task_id outcome m :
  tasks (process_task_finish task_id outcome m).2
  = alter (fun r =>
             match outcome with
             | inr v => set_result v (set_status "completed" r)
             | inl e => set_error (VStr (msg e)) (set_status "failed" r)
             end) task_id (tasks m).
Proof.
  unfold process_task_finish. destruct outcome as [e|v].
  - apply tasks_failed.
  - destruct (tasks m !! task_id) as [r|] eqn:L.
    + simpl. by rewrite ?tasks_update_backend.
    + rewrite tasks_failed. apply map_eq. intros i.
      rewrite !lookup_alter. case_decide; [subst; by rewrite L|done].
Qed.

Lemma tasks_cancel task_id m :
  tasks (cancel_task task_id m).2
  = alter (set_status "cancelled") task_id (tasks m).
Proof.
  unfold cancel_task. destruct (tasks m !! task_id) as [r|] eqn:L.
  - simpl. by rewrite ?tasks_update_backend.
  - simpl. apply map_eq. intros i.
    rewrite lookup_alter. case_decide; [subst; by rewrite L|done].
Qed.




(** C9.  A cancellation of an id that is not in the task map returns a
    value -- the mapping with the message that the task does not exist --
    and changes nothing: no record appears and the task store is not
    notified.  The route, which is called with a UUID and cancels the
    task named by its text, wraps that value in a normal answer, not in an
    HTTP error. *)
Theorem cancel_unknown_task (m : Manager) (id : string) :
  tasks m !! id = None ->
  cancel_task id m
  = (VDict [("status", VStr "error"); ("message", VStr "任务不存在")], m)
  /\ (forall task_id : Routes.UUID,
        Routes.str_uuid task_id = id ->
        Routes.cancel_task task_id m
        = (Routes.Ok200
             (VDict [("success", VBool true);
                     ("task_id", VStr id);
                     ("message", VStr "任务已取消");
                     ("result",
                      VDict [("status", VStr "error");
                             ("message", VStr "任务不存在")])]), m)).
Proof.
  intros H. split.
  - unfold cancel_task. by rewrite H.
  - intros task_id <-. unfold Routes.cancel_task, cancel_task.
    by rewrite H.
Qed.

Lemma cancel_unknown_task_witness :
  cancel_task "12345678-9abc-4def-8012-3456789abcde" finished
  = (VDict [("status", VStr "error"); ("message", VStr "任务不存在")],
     finished)
  /\ Routes.cancel_task some_uuid finished
     = (Routes.Ok200
          (VDict [("success", VBool true);
                  ("task_id", VStr "12345678-9abc-4def-8012-3456789abcde");
                  ("message", VStr "任务已取消");
                  ("result",
                   VDict [("status", VStr "error");
                          ("message", VStr "任务不存在")])]), finished).
Proof.
  destruct (cancel_unknown_task finished
              "12345678-9abc-4def-8012-3456789abcde" eq_refl) as [H1 H2].
  split; [exact H1|].
  exact (H2 some_uuid eq_refl).
Defined.

(** C10 (as amended).  A cancellation of a task that is in the map changes
    only the status of that task's record, to [cancelled]: its data,
    result and error are what they were, and the records of the other
    tasks are untouched.  In particular a task cancelled while neither
    result nor error is set, as while it runs, has neither afterwards. *)
Theorem cancel_changes_status_only (m : Manager) (id : string)
    (r : TaskRecord) :
  tasks m !! id = Some r ->
  let m' := (cancel_task id m).2 in
  (exists r', tasks m' !! id = Some r'
              /\ status r' = "cancelled" /\ data r' = data r
              /\ result r' = result r /\ error r' = error r
              /\ (result r = VNone -> error r = VNone ->
                  result r' = VNone /\ error r' = VNone))
  /\ (forall id', id' <> id -> tasks m' !! id' = tasks m !! id').
Proof.
  intros Hr m'. subst m'. rewrite tasks_cancel. split.
  - exists (set_status "cancelled" r). rewrite lookup_alter_eq, Hr.
    simpl. repeat split; done.
  - intros id' Hne. by rewrite lookup_alter_ne.
Qed.

Lemma cancel_changes_status_only_witness :
  exists r', tasks (cancel_task "t1" finished).2 !! "t1" = Some r'
             /\ status r' = "cancelled" /\ result r' = talk.
Proof.
  destruct (proj1 (cancel_changes_status_only finished "t1"
                     {| status := "completed"; data := text_task;
                        result := talk; error := VNone |} eq_refl))
    as (r' & H1 & H2 & _ & H3 & _).
  exists r'. repeat split; done.
Defined.

(** C10 as stated fails in its last part: a task cancelled after it was
    completed is cancelled and keeps its result. *)
Lemma cancelled_task_with_result :
  status <$> tasks (cancel_task "t1" finished).2 !! "t1" = Some "cancelled"
  /\ result <$> tasks (cancel_task "t1" finished).2 !! "t1" = Some talk
  /\ truthy talk = true.
Proof. by vm_compute. Qed.

(** The record an uninterrupted execution leaves. *)
Lemma process_task_record w task_id task_data m :
  tasks (process_task w task_id task_data m).2 !! task_id
  = Some
      match _process_with_llm w (process_task_begin task_id task_data m)
              (tool_type task_data) (parameters task_data) with
      | inr v => {| status := "completed"; data := task_data;
                    result := v; error := VNone |}
      | inl e => {| status := "failed"; data := task_data;
                    result := VNone; error := VStr (msg e) |}
      end.
Proof.
  unfold process_task. rewrite tasks_finish, lookup_alter_eq, tasks_begin,
    lookup_insert_eq. simpl. by destruct (_process_with_llm _ _ _ _).
Qed.

(** A failed task has an error and no result. *)
Lemma failed_task_has_error_only w task_id task_data m r :
  tasks (process_task w task_id task_data m).2 !! task_id = Some r ->
  status r = "failed" ->
  truthy (error r) = true /\ result r = VNone.
Proof.
  rewrite process_task_record. intros [= <-].
  destruct (_process_with_llm _ _ _ _) as [e|v] eqn:P; [|done].
  intros _. split; [|done]. simpl.
  by apply (process_with_llm_error_message _ _ _ _ _ P).
Qed.

(** C8 (the source against the claim).  The flow that starts from an
    uploaded LaTeX project with the style variant switched on ends without
    returning its result: when every request succeeds, the task is
    recorded as completed with neither result nor error. *)
Theorem completed_without_result :
  tasks (process_task (authoring compile_ok) "t1" (project_task true)
           (ready compile_ok)).2 !! "t1"
  = Some {| status := "completed"; data := project_task true;
            result := VNone; error := VNone |}.
Proof. by vm_compute. Qed.

(** The same submission without the style variant has its result. *)
Example completed_with_result :
  result <$> tasks (process_task (authoring compile_ok) "t1"
                      (project_task false) (ready compile_ok)).2 !! "t1"
  = Some (VDict [("status", VStr "success");
                 ("latex_content", VStr "\documentclass{beamer}");
                 ("pdf_path", VStr "/out/talk.pdf");
                 ("title", VStr "Q3");
                 ("conversion_type", VStr "latex_to_beamer");
                 ("main_file", VStr "main.tex");
                 ("success", VBool true);
                 ("theme", VStr "academic");
                 ("input_type", VStr "latex_project");
                 ("use_ucas_style", VBool false)]).
Proof. by vm_compute. Qed.

End TasksFacts.


(** * Further properties of the extraction *)

Module ExtractMore.
Import PyStr PyStrFacts Re ReFacts Extract ExtractFacts Chars.

#[local] Arguments Ascii.eqb : simpl never.

Lemma lacks_app c a b : lacks c (a +:+ b) = lacks c a && lacks c b.
Proof.
  induction a as [|x a IH]; [done|].
  rewrite append_cons. simpl. rewrite IH. by rewrite andb_assoc.
Qed.

Lemma other_char_no_prefix c n a s :
  Ascii.eqb a c = false -> strip_prefix (String c n) (String a s) = None.
Proof. intros H. simpl. by rewrite (Ascii.eqb_sym c a), H. Qed.

Lemma lacks_no_prefix c n s :
  lacks c s = true -> strip_prefix (String c n) s = None.
Proof.
  destruct s as [|a s]; [done|]. simpl. intros H.
  apply other_char_no_prefix. by destruct (Ascii.eqb a c).
Qed.

Lemma lacks_not_contains c n s :
  lacks c s = true -> contains (String c n) s = false.
Proof.
  unfold contains. induction s as [|a s IH]; [done|].
  intros H. rewrite split_at_first_cons, (lacks_no_prefix c n _ H).
  simpl in H. apply andb_true_iff in H as [_ H].
  specialize (IH H). by destruct (split_at_first (String c n) s) as [[? ?]|].
Qed.

(** The first occurrence of a needle after a text that lacks its first
    character is where the text ends. *)
Lemma split_at_first_after c n pre r :
  lacks c pre = true ->
  split_at_first (String c n) (pre +:+ String c n +:+ r) = Some (pre, r).
Proof.
  induction pre as [|a pre IH]; intros H.
  - rewrite append_empty, append_cons, split_at_first_cons, <- append_cons.
    by rewrite strip_prefix_app.
  - simpl in H. apply andb_true_iff in H as [Ha H].
    rewrite append_cons, split_at_first_cons.
    rewrite other_char_no_prefix by (by destruct (Ascii.eqb a c)).
    by rewrite IH.
Qed.

Lemma split_at_last_none c s :
  lacks c s = true -> split_at_last (String c EmptyString) s = None.
Proof.
  intros H. apply (lacks_not_contains c EmptyString) in H.
  destruct (split_at_last _ s) as [p|] eqn:E; [|done].
  assert (is_Some (split_at_last (String c EmptyString) s)) as S by eauto.
  apply split_at_last_some in S. congruence.
Qed.

(** The last occurrence of a character in front of a text that lacks it. *)
Lemma split_at_last_before c inner post :
  lacks c post = true ->
  split_at_last (String c EmptyString) (inner +:+ String c post)
  = Some (inner, post).
Proof.
  intros H. induction inner as [|a inner IH].
  - rewrite append_empty. simpl split_at_last.
    rewrite (split_at_last_none c post H). simpl.
    by rewrite Ascii.eqb_refl.
  - rewrite append_cons. simpl split_at_last. by rewrite IH.
Qed.

(** X1.  What either extractor returns is trimmed: trimming it again
    changes nothing. *)
Theorem extraction_is_trimmed (response : string) :
  strip (_extract_json_data response) = _extract_json_data response
  /\ strip (_extract_latex_code response) = _extract_latex_code response.
Proof.
  unfold _extract_json_data, _extract_latex_code.
  split; repeat case_match; apply strip_idem.
Qed.

(** X2.  A payload without a backquote, put in a fence that carries the
    expected tag, is found again whatever precedes the fence (without a
    backquote) and whatever follows it: both extractors return the payload,
    trimmed. *)
Theorem tagged_fence_round_trip (pre payload post : string) :
  lacks "`" pre = true -> lacks "`" payload = true ->
  _extract_json_data (pre +:+ "```json" +:+ payload +:+ "```" +:+ post)
  = strip payload
  /\ _extract_latex_code (pre +:+ "```latex" +:+ payload +:+ "```" +:+ post)
     = strip payload.
Proof.
  intros Hpre Hpay.
  assert (forall tag s,
    s = pre +:+ (fence +:+ tag) +:+ payload +:+ "```" +:+ post ->
    fenced_block tag s = Some (strip payload)) as Hrule.
  { intros tag s ->. unfold fenced_block.
    rewrite (split_at_first_after "`" ("``" +:+ tag) pre _ Hpre).
    unfold fence.
    by rewrite (split_at_first_after "`" "``" payload post Hpay). }
  split.
  - pose proof (fenced_rule "json"
      (pre +:+ "```json" +:+ payload +:+ "```" +:+ post)) as R.
    rewrite (Hrule "json"
               (pre +:+ "```json" +:+ payload +:+ "```" +:+ post) eq_refl)
      in R.
    unfold _extract_json_data.
    change (fence +:+ "json") with "```json" in R.
    destruct (search (fenced_pattern "```json") _); [|done].
    by injection R.
  - pose proof (fenced_rule "latex"
      (pre +:+ "```latex" +:+ payload +:+ "```" +:+ post)) as R.
    rewrite (Hrule "latex"
               (pre +:+ "```latex" +:+ payload +:+ "```" +:+ post) eq_refl)
      in R.
    unfold _extract_latex_code.
    change (fence +:+ "latex") with "```latex" in R.
    destruct (search (fenced_pattern "```latex") _); [|done].
    by injection R.
Qed.

Lemma tagged_fence_round_trip_witness :
  _extract_json_data
    ("Sure: " +:+ "```json" +:+ " {1} " +:+ "```" +:+ " and ``` more ```")
  = "{1}".
Proof.
  refine (proj1 (tagged_fence_round_trip "Sure: " " {1} "
                   " and ``` more ```" _ _)); reflexivity.
Defined.

(** X3.  A reply without a backquote that holds a brace-delimited object
    between a text without an opening brace and a text without a closing
    brace yields exactly that object, braces included. *)
Theorem bare_object_round_trip (pre inner post : string) :
  lacks "`" pre = true -> lacks "`" inner = true -> lacks "`" post = true ->
  lacks "{" pre = true -> lacks "}" post = true ->
  _extract_json_data (pre +:+ "{" +:+ inner +:+ "}" +:+ post)
  = "{" +:+ inner +:+ "}".
Proof.
  intros Hpre Hin Hpost Hopen Hclose.
  set (s := pre +:+ "{" +:+ inner +:+ "}" +:+ post).
  assert (contains fence s = false) as Hf.
  { apply (lacks_not_contains "`" "``"). unfold s.
    by rewrite !lacks_app, Hpre, Hin, Hpost. }
  pose proof (no_fence_no_search "json" s Hf) as Hj.
  pose proof (no_fence_no_search "" s Hf) as Ha.
  change (fence +:+ "json") with "```json" in Hj.
  change (fence +:+ "") with "```" in Ha.
  unfold _extract_json_data. rewrite Hj, Ha.
  pose proof (json_object_search s) as R. unfold s in R at 2.
  rewrite (split_at_first_after "{" EmptyString pre _ Hopen) in R.
  change ("}" +:+ post) with (String "}" post) in R.
  rewrite (split_at_last_before "}" inner post Hclose) in R.
  destruct (search json_object_pattern s) as [m|]; [|done].
  injection R as ->. unfold strip.
  change ("{" +:+ inner +:+ "}") with (String "{" (inner +:+ "}")).
  rewrite lstrip_starts_visible by (change (nat_of_ascii "{") with 123; lia).
  change (String "{" (inner +:+ "}")) with (("{" +:+ inner) +:+ "}").
  apply rstrip_ends_visible. change (nat_of_ascii "}") with 125. lia.
Qed.

Lemma bare_object_round_trip_witness :
  _extract_json_data ("Data: " +:+ "{" +:+ "a {b} c" +:+ "}" +:+ " done.")
  = "{" +:+ "a {b} c" +:+ "}".
Proof.
  refine (bare_object_round_trip "Data: " "a {b} c" " done." _ _ _ _ _);
    reflexivity.
Defined.

(** X4.  A reply without a backquote in which the document-start marker
    follows a text without a backslash yields the text from the marker
    to the end of the reply, trimmed. *)
Theorem document_from_marker (pre rest : string) :
  lacks "`" pre = true -> lacks "`" rest = true -> lacks "\" pre = true ->
  _extract_latex_code (pre +:+ documentclass +:+ rest)
  = strip (documentclass +:+ rest).
Proof.
  intros Hpre Hrest Hback.
  set (s := pre +:+ documentclass +:+ rest).
  assert (contains fence s = false) as Hf.
  { apply (lacks_not_contains "`" "``"). unfold s.
    by rewrite !lacks_app, Hpre, Hrest. }
  pose proof (no_fence_no_search "latex" s Hf) as Hl.
  pose proof (no_fence_no_search "" s Hf) as Ha.
  change (fence +:+ "latex") with "```latex" in Hl.
  change (fence +:+ "") with "```" in Ha.
  unfold _extract_latex_code. rewrite Hl, Ha.
  pose proof (documentclass_search s) as R.
  assert (split_at_first documentclass s = Some (pre, rest)) as E
    by apply (split_at_first_after "\" "documentclass" pre rest Hback).
  rewrite E in R.
  destruct (search documentclass_pattern s) as [m|]; [|done].
  by injection R.
Qed.

Lemma document_from_marker_witness :
  _extract_latex_code ("Here you go: " +:+ documentclass +:+ "{beamer}  ")
  = "\documentclass{beamer}".
Proof.
  refine (document_from_marker "Here you go: " "{beamer}  " _ _ _);
    reflexivity.
Defined.

End ExtractMore.


(** * Further properties of the unified LLM call *)

Module GatewayMore.
Import Py Core Gateway GatewayFacts Dispatch Scenario.












End GatewayMore.


(** * Further properties of the configuration *)

Module ConfigMore.
Import Py Core Config Gateway Tools Status SelectionSpec ConfigFacts Scenario.

Lemma lookup_assign {A} (p k : string) (v : A) (d : dict A) :
  lookup p (assign k v d) = if String.eqb p k then Some v else lookup p d.
Proof.
  induction d as [|[k' v'] d IH]; simpl.
  - by destruct (String.eqb p k).
  - destruct (String.eqb_spec k k') as [->|Hk]; simpl.
    + by destruct (String.eqb p k').
    + rewrite IH. destruct (String.eqb_spec p k') as [->|Hp]; [|done].
      destruct (String.eqb_spec k' k) as [->|]; done.
Qed.

Lemma mem_assign {A} (p k : string) (v : A) (d : dict A) :
  mem p (assign k v d) = String.eqb p k || mem p d.
Proof. unfold mem. rewrite lookup_assign. by destruct (String.eqb p k). Qed.

(** *** A load only adds clients *)

Lemma extends_refl m : extends m m.
Proof. split; [by intros p|done]. Qed.

Lemma extends_trans m1 m2 m3 : extends m1 m2 -> extends m2 m3 -> extends m1 m3.
Proof.
  intros (H1 & H2 & H3) (H4 & H5 & H6).
  split; [intros p Hp; by apply H4, H1|split; congruence].
Qed.

Lemma extends_register name client m : extends m (register name client m).
Proof.
  split; [|done]. intros p H. simpl. rewrite mem_assign, H. apply orb_true_r.
Qed.

Lemma extends_status st m : extends m (with_llm_status st m).
Proof. split; [by intros p|done]. Qed.

Ltac extends_cases :=
  repeat case_match; simpl;
  eauto using extends_refl, extends_register, extends_trans.

Lemma init_anthropic_extends w c m : extends m (_init_anthropic_client w c m).2.
Proof. unfold _init_anthropic_client. extends_cases. Qed.

Lemma init_openai_extends w c m : extends m (_init_openai_client w c m).2.
Proof. unfold _init_openai_client. extends_cases. Qed.

Lemma init_deepseek_extends w c m : extends m (_init_deepseek_client w c m).2.
Proof. unfold _init_deepseek_client. extends_cases. Qed.

Lemma init_gemini_extends w c m : extends m (_init_gemini_client w c m).2.
Proof. unfold _init_gemini_client. extends_cases. Qed.

Lemma init_provider_extends w name c m :
  extends m (init_provider w name c m).2.
Proof.
  unfold init_provider.
  destruct (get_of c "api_key" (VStr "")); [apply extends_refl|].
  destruct (get_of c "model" (VStr "")); [apply extends_refl|].
  simpl. eapply extends_trans; [apply extends_status|].
  repeat case_match;
    eauto using extends_refl, init_anthropic_extends, init_openai_extends,
      init_gemini_extends, init_deepseek_extends.
Qed.

Lemma init_providers_extends w providers m :
  extends m (init_providers w providers m).2.
Proof.
  revert m. induction providers as [|[name c] providers IH]; intros m.
  - apply extends_refl.
  - simpl. pose proof (init_provider_extends w name c m) as H.
    destruct (init_provider w name c m) as [[e|[]] m1]; [done|].
    eapply extends_trans; [exact H|apply IH].
Qed.

(** A loop that ends normally has seen only mappings. *)
Lemma init_providers_dicts w providers m m' :
  init_providers w providers m = (inr (), m') ->
  forall name c, lookup name providers = Some c -> exists cfg, c = VDict cfg.
Proof.
  revert m. induction providers as [|[k c0] providers IH]; intros m H name c;
    [done|].
  simpl in H. simpl.
  destruct (init_provider w k c0 m) as [[e|[]] m1] eqn:E; [done|].
  destruct (String.eqb name k).
  - intros [= <-]. unfold init_provider in E.
    destruct c0; simpl in E; try done. eauto.
  - by apply (IH m1).
Qed.

Lemma coherent_extends m m' : coherent m -> extends m m' -> coherent m'.
Proof.
  intros Hc (H1 & H2 & H3) p Hp. rewrite H3 in Hp.
  destruct (Hc p Hp) as [Hm Hcfg]. split; [auto|]. by rewrite H2.
Qed.

Lemma find_elem {A} (f : A -> bool) (l : list A) (x : A) :
  find f l = Some x -> x ∈ l /\ f x = true.
Proof.
  induction l as [|y l IH]; [done|]. simpl.
  destruct (f y) eqn:E.
  - intros [= <-]. split; [apply elem_of_cons; by left|done].
  - intros H. destruct (IH H). split; [apply elem_of_cons; by right|done].
Qed.

Lemma select_provider_coherent default_provider providers m :
  (forall name c, lookup name providers = Some c -> exists cfg, c = VDict cfg) ->
  coherent m ->
  coherent (select_provider default_provider providers m).2
  /\ llm_clients (select_provider default_provider providers m).2
     = llm_clients m.
Proof.
  intros Hd Hc. unfold select_provider, key_in.
  assert (forall name, mem name providers = true ->
                       mem name (llm_clients m) = true ->
                       coherent (with_provider name (get providers name VNone) m))
    as Hset.
  { intros name Hp Hcl p [= <-]. split; [done|]. simpl.
    unfold mem, get in *. destruct (lookup name providers) eqn:L; [|done].
    by apply (Hd name). }
  assert (coherent
            match first_configured (keys (llm_clients m)) providers with
            | Some n => with_provider n (get providers n VNone) m
            | None => m
            end) as Hloop.
  { rewrite first_configured_find.
    destruct (find _ _) as [n|] eqn:F; [|done].
    apply find_elem in F as [Hin Hp]. apply Hset; [done|].
    by apply mem_keys. }
  assert (llm_clients
            match first_configured (keys (llm_clients m)) providers with
            | Some n => with_provider n (get providers n VNone) m
            | None => m
            end = llm_clients m) as Hcl
    by (by destruct (first_configured _ _)).
  destruct default_provider as [| | | |name| |]; simpl;
    try (destruct (first_configured _ _); done).
  destruct (mem name providers) eqn:Hp; simpl.
  - destruct (mem name (llm_clients m)) eqn:Hm; simpl.
    + split; [by apply Hset|done].
    + by destruct (first_configured _ _).
  - by destruct (first_configured _ _).
Qed.

Lemma fallback_keeps w m :
  coherent m ->
  coherent (_fallback_to_local_config w m).2
  /\ grows m (_fallback_to_local_config w m).2.
Proof.
  intros Hc. unfold _fallback_to_local_config.
  set (m1 := with_llm_status _ m).
  assert (extends m m1) as H1 by apply extends_status.
  destruct (items_of _) as [e|providers].
  { split; [by apply (coherent_extends m)|apply H1]. }
  pose proof (init_providers_extends w providers m1) as H2.
  destruct (init_providers w providers m1) as [[e|[]] m2] eqn:E; simpl in H2.
  { pose proof (extends_trans _ _ _ H1 H2) as H.
    split; [by apply (coherent_extends m)|apply H]. }
  pose proof (extends_trans _ _ _ H1 H2) as H.
  destruct (select_provider_coherent (DEFAULT_LLM_PROVIDER (settings w))
              providers m2 (init_providers_dicts _ _ _ _ E)
              (coherent_extends _ _ Hc H)) as [Hc3 Hcl].
  destruct (select_provider _ providers m2) as [[e|[]] m3]; simpl in *.
  - split; [done|]. intros p Hp. rewrite Hcl. by apply H.
  - split; [done|]. intros p Hp. rewrite Hcl. by apply H.
Qed.

Lemma backend_keeps w json m :
  coherent m ->
  coherent (load_from_backend w json m).2
  /\ grows m (load_from_backend w json m).2.
Proof.
  intros Hc. unfold load_from_backend.
  destruct json as [e|config_data]; [split; [done|by intros p]|].
  destruct (Py.bind (get_of config_data "default_llm_provider" _) _)
    as [e|default_provider]; [split; [done|by intros p]|].
  set (m1 := with_llm_status _ m).
  assert (extends m m1) as H1 by apply extends_status.
  destruct (Py.bind (get_of config_data "llm_providers" _) _)
    as [e|providers].
  { split; [by apply (coherent_extends m)|apply H1]. }
  pose proof (init_providers_extends w providers m1) as H2.
  destruct (init_providers w providers m1) as [[e|[]] m2] eqn:E; simpl in H2.
  { pose proof (extends_trans _ _ _ H1 H2) as H.
    split; [by apply (coherent_extends m)|apply H]. }
  pose proof (extends_trans _ _ _ H1 H2) as H.
  destruct (select_provider_coherent default_provider
              providers m2 (init_providers_dicts _ _ _ _ E)
              (coherent_extends _ _ Hc H)) as [Hc3 Hcl].
  split; [done|]. intros p Hp. rewrite Hcl. by apply H.
Qed.

(** X8.  A load keeps the manager coherent and never removes a client: if
    the active provider, when there is one, had a client and a
    configuration mapping before [_load_llm_config], it has them after it,
    whatever the configuration endpoint and the local source answer; and
    every provider that had a client still has one. *)
Theorem load_keeps_coherent (w : World) (m : Manager) :
  coherent m ->
  coherent (_load_llm_config w m).2 /\ grows m (_load_llm_config w m).2.
Proof.
  intros Hc. unfold _load_llm_config.
  destruct (config_fetch w) as [e|status_code json];
    [by apply fallback_keeps|].
  destruct (status_code =? 200); [|split; [done|by intros p]].
  destruct (backend_keeps w json m Hc) as [Hc1 Hg1].
  destruct (load_from_backend w json m) as [[e|[]] m1]; simpl in *;
    [|by split].
  destruct (fallback_keeps w m1 Hc1) as [Hc2 Hg2].
  split; [done|]. intros p Hp. by apply Hg2, Hg1.
Qed.

Lemma load_keeps_coherent_witness :
  coherent (_load_llm_config backend_down (manager_with "openai")).2
  /\ mem "gpt" (llm_clients
                  (_load_llm_config backend_down (manager_with "openai")).2)
     = true.
Proof.
  assert (coherent (manager_with "openai")) as Hc.
  { intros p [= <-]. split; [reflexivity|]. by eexists. }
  destruct (load_keeps_coherent backend_down (manager_with "openai") Hc)
    as [H1 H2].
  split; [exact H1|]. apply H2. reflexivity.
Defined.

(** *** A local source without a key *)

Lemma init_providers_without_keys w providers m :
  (forall name c, (name, c) ∈ providers ->
     exists cfg, c = VDict cfg
                 /\ truthy (get cfg "api_key" (VStr "")) = false) ->
  exists m', init_providers w providers m = (inr (), m')
             /\ llm_clients m' = llm_clients m
             /\ current_provider m' = current_provider m.
Proof.
  revert m. induction providers as [|[name c] providers IH]; intros m H.
  - by exists m.
  - destruct (H name c) as (cfg & -> & Hk); [apply elem_of_cons; by left|].
    simpl. unfold init_provider. simpl. rewrite Hk, !andb_false_r.
    edestruct (IH (with_llm_status
                     (status_set_provider name
                        (VDict [("configured", VBool false);
                                ("model", get cfg "model" (VStr ""));
                                ("api_key_set", VBool false)])
                        (llm_status m)) m)) as (m' & -> & H1 & H2).
    { intros n c Hin. apply (H n c). apply elem_of_cons. by right. }
    by exists m'.
Qed.

(** X9.  When the configuration endpoint cannot be reached and no provider
    of the local source has a key, the load of a fresh manager succeeds
    with no client and no active provider, and from then on every LLM call
    is refused with the configuration error. *)
Theorem no_key_no_provider (w : World) (m : Manager) (e : exn)
    (providers : dict value) (d : string) :
  config_fetch w = FetchRaises e ->
  DEFAULT_LLM_PROVIDER (settings w) = VStr d ->
  get (config (settings w)) "llm_providers" (VDict []) = VDict providers ->
  (forall name c, (name, c) ∈ providers ->
     exists cfg, c = VDict cfg
                 /\ truthy (get cfg "api_key" (VStr "")) = false) ->
  llm_clients m = [] -> current_provider m = None ->
  (_load_llm_config w m).1 = VBool true
  /\ llm_clients (_load_llm_config w m).2 = []
  /\ current_provider (_load_llm_config w m).2 = None
  /\ (forall messages kwargs,
        _call_llm w (_load_llm_config w m).2 messages kwargs
        = inl (raise_ Exception not_configured)).
Proof.
  intros Hfetch Hd Hps Hkeys Hcl Hcur.
  unfold _load_llm_config. rewrite Hfetch.
  unfold _fallback_to_local_config. rewrite Hps, Hd. simpl.
  edestruct (init_providers_without_keys w providers) as (m2 & -> & H1 & H2);
    [exact Hkeys|].
  simpl in H1, H2. unfold select_provider, key_in. rewrite H1, Hcl. simpl.
  destruct (mem d providers); simpl.
  all: repeat split; try done; try congruence.
  all: intros messages kwargs; unfold _call_llm, active_client;
    by rewrite H2, Hcur.
Qed.

Lemma no_key_no_provider_witness :
  (_load_llm_config Cases.no_keys_anywhere init_manager).1 = VBool true
  /\ current_provider (_load_llm_config Cases.no_keys_anywhere init_manager).2
     = None.
Proof.
  destruct (no_key_no_provider Cases.no_keys_anywhere init_manager
              (raise_ RequestException "Connection refused")
              Cases.keyless_providers "openai" eq_refl eq_refl eq_refl)
    as (H1 & _ & H3 & _); [|reflexivity..|by split].
  intros name c Hin. unfold Cases.keyless_providers in Hin.
  set_unfold in Hin. destruct Hin as [[= -> ->]|[[= -> ->]|[]]]; by eexists.
Defined.

(** *** Reload *)

(** X10.  When the configuration endpoint answers with a status other than
    200, [reload_llm_config] reports a warning with [configured] false and
    leaves the manager as it was -- also when the manager has an active
    provider that works. *)
Theorem reload_on_error_status (w : World) (m : Manager) (status_code : nat)
    (json : may_raise value) :
  config_fetch w = FetchReply status_code json ->
  status_code <> 200 ->
  reload_llm_config (inr ()) w m
  = (VDict [("status", VStr "warning");
            ("message", VStr "LLM配置重新加载完成，但未能成功初始化客户端");
            ("config", VDict [("configured", VBool false);
                              ("status", llm_status m)])], m).
Proof.
  intros Hfetch Hne. unfold reload_llm_config, _load_llm_config.
  rewrite Hfetch. by destruct (Nat.eqb_spec status_code 200).
Qed.

Lemma reload_on_error_status_witness :
  (reload_llm_config (inr ()) backend_500 (manager_with "openai")).2
  = manager_with "openai"
  /\ active_client (manager_with "openai")
     = Some ("openai",
             {| sdk := AsyncOpenAI; client_api_key := VStr "k";
                client_base_url := VStr "https://api.openai.com/v1" |}).
Proof.
  split; [|reflexivity].
  rewrite (reload_on_error_status backend_500 (manager_with "openai") 500
             (inl (raise_ JSONDecodeError ""))); [reflexivity..|lia].
Defined.

(** *** Start and stop *)

Lemma same_registry_refl m : same_registry m m.
Proof. by repeat split. Qed.

Lemma same_registry_trans m1 m2 m3 :
  same_registry m1 m2 -> same_registry m2 m3 -> same_registry m1 m3.
Proof.
  intros (A1 & A2 & A3 & A4) (B1 & B2 & B3 & B4).
  repeat split; congruence.
Qed.

Ltac registry_cases :=
  repeat case_match; simpl; by repeat split.

Lemma init_anthropic_registry w c m :
  same_registry m (_init_anthropic_client w c m).2.
Proof. unfold _init_anthropic_client. registry_cases. Qed.

Lemma init_openai_registry w c m :
  same_registry m (_init_openai_client w c m).2.
Proof. unfold _init_openai_client. registry_cases. Qed.

Lemma init_deepseek_registry w c m :
  same_registry m (_init_deepseek_client w c m).2.
Proof. unfold _init_deepseek_client. registry_cases. Qed.

Lemma init_gemini_registry w c m :
  same_registry m (_init_gemini_client w c m).2.
Proof. unfold _init_gemini_client. registry_cases. Qed.

Lemma init_provider_registry w name c m :
  same_registry m (init_provider w name c m).2.
Proof.
  unfold init_provider.
  destruct (get_of c "api_key" (VStr "")); [apply same_registry_refl|].
  destruct (get_of c "model" (VStr "")); [apply same_registry_refl|].
  simpl. eapply same_registry_trans; [|
    repeat case_match;
      eauto using same_registry_refl, init_anthropic_registry,
        init_openai_registry, init_gemini_registry, init_deepseek_registry].
  by repeat split.
Qed.

Lemma init_providers_registry w providers m :
  same_registry m (init_providers w providers m).2.
Proof.
  revert m. induction providers as [|[name c] providers IH]; intros m.
  - apply same_registry_refl.
  - simpl. pose proof (init_provider_registry w name c m) as H.
    destruct (init_provider w name c m) as [[e|[]] m1]; [done|].
    eapply same_registry_trans; [exact H|apply IH].
Qed.

Lemma select_provider_registry d providers m :
  same_registry m (select_provider d providers m).2.
Proof. unfold select_provider. registry_cases. Qed.

Lemma fallback_registry w m :
  same_registry m (_fallback_to_local_config w m).2.
Proof.
  unfold _fallback_to_local_config. set (m1 := with_llm_status _ m).
  assert (same_registry m m1) as H1 by (by repeat split).
  destruct (items_of _) as [e|providers]; [done|].
  pose proof (init_providers_registry w providers m1) as H2.
  destruct (init_providers w providers m1) as [[e|[]] m2]; simpl in H2;
    [by eapply same_registry_trans|].
  pose proof (select_provider_registry (DEFAULT_LLM_PROVIDER (settings w))
                providers m2) as H3.
  destruct (select_provider _ providers m2) as [[e|[]] m3]; simpl in *;
    eauto using same_registry_trans.
Qed.

Lemma backend_registry w json m :
  same_registry m (load_from_backend w json m).2.
Proof.
  unfold load_from_backend.
  destruct json as [e|config_data]; [apply same_registry_refl|].
  destruct (Py.bind (get_of config_data "default_llm_provider" _) _)
    as [e|default_provider]; [apply same_registry_refl|].
  set (m1 := with_llm_status _ m).
  assert (same_registry m m1) as H1 by (by repeat split).
  destruct (Py.bind (get_of config_data "llm_providers" _) _)
    as [e|providers]; [done|].
  pose proof (init_providers_registry w providers m1) as H2.
  destruct (init_providers w providers m1) as [[e|[]] m2]; simpl in H2;
    [by eapply same_registry_trans|].
  pose proof (select_provider_registry default_provider providers m2) as H3.
  eauto using same_registry_trans.
Qed.

Lemma load_registry w m : same_registry m (_load_llm_config w m).2.
Proof.
  unfold _load_llm_config.
  destruct (config_fetch w) as [e|status_code json];
    [apply fallback_registry|].
  destruct (status_code =? 200); [|apply same_registry_refl].
  pose proof (backend_registry w json m) as H1.
  destruct (load_from_backend w json m) as [[e|[]] m1]; simpl in *; [|done].
  eapply same_registry_trans; [exact H1|apply fallback_registry].
Qed.

Lemma enabled_in_cons services n c name :
  enabled_in ((n, c) :: services) name
  <-> (name = n /\ exists d, c = VDict d
                   /\ truthy (get d "enabled" (VBool true)) = true)
      \/ enabled_in services name.
Proof.
  unfold enabled_in. split.
  - intros (d & Hin & Ht). apply elem_of_cons in Hin as [[= -> <-]|Hin];
      [left|right]; eauto.
  - intros [(-> & d & -> & Ht)|(d & Hin & Ht)]; exists d; split; try done.
    + apply elem_of_cons. by left.
    + apply elem_of_cons. by right.
Qed.

Lemma register_services_ok w services m :
  Forall (fun entry => service_ok entry.2) services ->
  exists m', register_services w services m = (inr (), m')
    /\ tasks m' = tasks m
    /\ (forall name, mem name (mcp_clients m') = true
          <-> mem name (mcp_clients m) = true \/ enabled_in services name).
Proof.
  revert m. induction services as [|[n c] services IH]; intros m Hok.
  - exists m. repeat split; [by left|]. intros [H|(d & Hin & _)]; [done|].
    by apply elem_of_nil in Hin.
  - apply Forall_cons in Hok as [(d & Hc & Hhp) Hok]. simpl in Hc. subst c.
    simpl. destruct (truthy (get d "enabled" (VBool true))) eqn:En.
    + destruct (Hhp eq_refl) as [[host Hh] [port Hp]]. rewrite Hh, Hp. simpl.
      destruct (IH (with_mcp_client n
                      ("http://" +:+ str_of w host +:+ ":" +:+ str_of w port)
                      m) Hok) as (m' & -> & Ht & Hm).
      exists m'. repeat split; [done|..].
      * intros H. apply Hm in H as [H|H].
        -- simpl in H. rewrite mem_assign in H.
           apply orb_true_iff in H as [H|H]; [|by left].
           right. apply enabled_in_cons. left.
           apply String.eqb_eq in H. eauto.
        -- right. apply enabled_in_cons. by right.
      * intros [H|H]; apply Hm.
        -- left. simpl. rewrite mem_assign, H. apply orb_true_r.
        -- apply enabled_in_cons in H as [(-> & _)|H]; [|by right].
           left. simpl. by rewrite mem_assign, String.eqb_refl.
    + destruct (IH m Hok) as (m' & -> & Ht & Hm).
      exists m'. repeat split; [done|..].
      * intros H. apply Hm in H as [H|H]; [by left|].
        right. apply enabled_in_cons. by right.
      * intros [H|H]; apply Hm; [by left|].
        apply enabled_in_cons in H as [(_ & d' & [= <-] & Ht')|H];
          [congruence|by right].
Qed.

(** X11.  [initialize] does not depend on the outcome of the load of the
    LLM configuration: when the report of the settings can be printed and
    every service entry of the settings is a mapping that names a host
    and a port (or is disabled), it ends normally with the manager
    running, whatever the configuration endpoint answers; the task map is
    untouched and the services registered are those that were registered
    before and the enabled entries. *)
Theorem initialize_boots (w : World) (m : Manager) :
  LocalSettings.print_config_status (config (settings w)) = inr () ->
  Forall (fun entry => service_ok entry.2) (MCP_SERVICES_CONFIG (settings w)) ->
  exists m', Startup.initialize w m = (inr (), m')
    /\ running m' = true
    /\ tasks m' = tasks m
    /\ (forall name, mem name (mcp_clients m') = true
          <-> mem name (mcp_clients m) = true
              \/ enabled_in (MCP_SERVICES_CONFIG (settings w)) name).
Proof.
  intros Hprint Hok. unfold Startup.initialize. rewrite Hprint.
  unfold initialize.
  destruct (load_registry w m) as (Ht & _ & Hm & _).
  destruct (register_services_ok w _ (_load_llm_config w m).2 Hok)
    as (m' & -> & Ht' & Hm').
  exists (with_running true m'). repeat split; simpl.
  - congruence.
  - intros H. apply Hm' in H. by rewrite Hm in H.
  - intros H. apply Hm'. by rewrite Hm.
Qed.

Lemma initialize_boots_witness :
  exists m', Startup.initialize backend_500 init_manager = (inr (), m')
             /\ running m' = true.
Proof.
  destruct (initialize_boots backend_500 init_manager) as (m' & H & Hr & _).
  - reflexivity.
  - unfold backend_500, world, local_deepseek, default_services. simpl.
    repeat constructor; eexists; (split; [reflexivity|]); intros _;
      split; by eexists.
  - by exists m'.
Defined.

(** X12.  After [shutdown] every task id is unknown, every LLM call is
    refused with the configuration error and every proxied tool type is
    rejected as unsupported, while [get_llm_status] answers what it
    answered before: the shutdown clears the task map and both client
    registries and keeps the active provider and its configuration. *)
Theorem after_shutdown (w : World) (m : Manager) (task_id : string)
    (messages : list Message) (kwargs : dict value) (tool_type : string)
    (parameters : dict value) :
  Tasks.get_task_status task_id (shutdown m)
  = VDict [("status", VStr "not_found"); ("message", VStr "任务不存在")]
  /\ _call_llm w (shutdown m) messages kwargs
     = inl (raise_ Exception not_configured)
  /\ (in_list tool_type Dispatch.proxied_tools = true ->
      _process_with_llm w (shutdown m) tool_type parameters
      = inl (unsupported_tool tool_type))
  /\ get_llm_status (shutdown m) = get_llm_status m.
Proof.
  split; [|split; [|split]].
  - unfold Tasks.get_task_status. simpl. by rewrite lookup_empty.
  - unfold _call_llm, active_client. simpl.
    destruct (current_provider m) as [p|]; [|done]. by destruct (PyStr.truthy p).
  - intros Hin. apply GatewayFacts.in_list_elem in Hin.
    unfold Dispatch.proxied_tools in Hin. set_unfold in Hin.
    by destruct Hin as [->|[->|[->|[->|[->|[]]]]]].
  - done.
Qed.

Lemma after_shutdown_witness :
  _process_with_llm (Cases.serving Cases.scheduler_up)
    (shutdown (Cases.operational Cases.scheduler_up)) "scheduler"
    (parameters Cases.schedule_task)
  = inl (unsupported_tool "scheduler").
Proof.
  refine (proj1 (proj2 (proj2 (after_shutdown
            (Cases.serving Cases.scheduler_up)
            (Cases.operational Cases.scheduler_up) "t1" question []
            "scheduler" (parameters Cases.schedule_task)))) _).
  reflexivity.
Defined.

End ConfigMore.

(** * Which providers the settings count as configured *)

Module SettingsFacts.
Import Py LocalSettings.

(** X13.  For a provider configured by an API key alone,
    [is_provider_configured] answers with a true value exactly when the
    key, a string, is not blank and is not the placeholder of that
    provider; a provider without an entry counts as having the empty key.
    A provider name outside the six known ones is never configured. *)
Theorem keyed_provider_configured (LLM_PROVIDERS : dict value)
    (provider : string) (cfg : dict value) (k : string) :
  (is_one_of provider keyed_providers = true ->
   get LLM_PROVIDERS provider (VDict []) = VDict cfg ->
   get cfg "api_key" (VStr "") = VStr k ->
   exists v, is_provider_configured LLM_PROVIDERS provider = inr v
     /\ truthy v = PyStr.truthy (PyStr.strip k)
                   && negb (String.eqb k (placeholder provider)))
  /\ (is_one_of provider (keyed_providers ++ ["azure"; "ollama"]) = false ->
      is_provider_configured LLM_PROVIDERS provider = inr (VBool false)).
Proof.
  assert (forall ph, exists v,
            usable_key (VStr k) ph = inr v
            /\ truthy v = PyStr.truthy (PyStr.strip k)
                          && negb (String.eqb k ph)) as Hkey.
  { intros ph. unfold usable_key, and_then. simpl.
    destruct k as [|c k]; [by eexists|]. simpl PyStr.truthy at 1.
    cbv iota. destruct (PyStr.strip (String c k)) eqn:S; simpl.
    - by eexists.
    - eexists. split; [reflexivity|]. done. }
  split.
  - intros Hin Hcfg Hk. unfold is_provider_configured, placeholder.
    rewrite Hcfg. simpl. rewrite Hk.
    unfold is_one_of, keyed_providers in Hin. simpl in Hin.
    unfold is_one_of. simpl.
    destruct (String.eqb provider "openai"); simpl; [apply Hkey|].
    destruct (String.eqb provider "gpt"); simpl; [apply Hkey|].
    destruct (String.eqb provider "anthropic"); simpl; [apply Hkey|].
    destruct (String.eqb provider "gemini"); simpl; [apply Hkey|].
    destruct (String.eqb provider "deepseek"); simpl; [apply Hkey|done].
  - intros Hout. unfold is_one_of, keyed_providers in Hout. simpl in Hout.
    repeat (apply orb_false_iff in Hout as [? Hout]).
    unfold is_provider_configured, is_one_of. simpl.
    by repeat match goal with H : String.eqb _ _ = false |- _ =>
                rewrite H; clear H end.
Qed.

Lemma keyed_provider_configured_witness :
  exists v,
    is_provider_configured
      [("openai", VDict [("api_key", VStr "your_openai_api_key_here")])]
      "openai" = inr v
    /\ truthy v = false.
Proof.
  destruct (proj1 (keyed_provider_configured
              [("openai", VDict [("api_key", VStr "your_openai_api_key_here")])]
              "openai" [("api_key", VStr "your_openai_api_key_here")]
              "your_openai_api_key_here") eq_refl eq_refl eq_refl)
    as (v & H1 & H2).
  exists v. split; [exact H1|]. rewrite H2. reflexivity.
Defined.



End SettingsFacts.

(** * The dispatcher and the proxied services *)

Module ToolsMore.
Import Py Core Gateway Tools Dispatch Cases Scenario.
Import ToolsFacts.

Ltac proxied_cases H :=
  apply GatewayFacts.in_list_elem in H; unfold proxied_tools in H;
  set_unfold in H; destruct H as [->|[->|[->|[->|[->|[]]]]]];
  unfold service_of, operation_of in *.

(** X14.  A tool type outside the eight the dispatcher knows is rejected
    with a [ValueError] that names it, and so is a proxied tool type whose
    service is not registered; neither depends on the world. *)
Theorem unsupported_requests (w : World) (m : Manager) (tool_type : string)
    (parameters : dict value) :
  (in_list tool_type known_tools = false ->
   _process_with_llm w m tool_type parameters
   = inl (unsupported_tool tool_type))
  /\ (in_list tool_type proxied_tools = true ->
      lookup (service_of tool_type) (mcp_clients m) = None ->
      _process_with_llm w m tool_type parameters
      = inl (unsupported_tool tool_type)).
Proof.
  split.
  - intros Hout. unfold in_list, known_tools in Hout. cbn [existsb] in Hout.
    repeat (apply orb_false_iff in Hout as [? Hout]).
    unfold _process_with_llm, in_list. cbn [existsb].
    by repeat match goal with H : String.eqb _ _ = false |- _ =>
                rewrite H; clear H end.
  - intros Hin Hnone. proxied_cases Hin; unfold _process_with_llm,
      _call_mcp_service; simpl in *; by rewrite Hnone.
Qed.

Lemma unsupported_requests_witness :
  _process_with_llm (serving scheduler_up) (operational scheduler_up)
    "translate" []
  = inl (unsupported_tool "translate").
Proof.
  refine (proj1 (unsupported_requests (serving scheduler_up)
                   (operational scheduler_up) "translate" []) _).
  reflexivity.
Defined.

(** X15.  For a proxied tool type the dispatcher is a relay: when the
    service is registered and answers the operation of that tool type with
    a success status and a JSON body, the body is the result, unchanged;
    no provider is needed for it. *)
Theorem proxied_reply_relayed (w : World) (m : Manager) (tool_type : string)
    (parameters : dict value) (url : string) (code : nat) (text : string)
    (v : value) :
  in_list tool_type proxied_tools = true ->
  lookup (service_of tool_type) (mcp_clients m) = Some url ->
  http_post w (url +:+ operation_of tool_type) = HttpReply code text (inr v) ->
  is_success code = true ->
  _process_with_llm w m tool_type parameters = inr v.
Proof.
  intros Hin Hurl Hpost Hcode.
  proxied_cases Hin; unfold _process_with_llm, _call_mcp_service, post_json;
    simpl in *; by rewrite Hurl, Hpost, Hcode.
Qed.

Lemma proxied_reply_relayed_witness :
  _process_with_llm (serving scheduler_up) (operational scheduler_up)
    "scheduler" (parameters schedule_task)
  = inr schedule_created.
Proof.
  apply (proxied_reply_relayed _ _ "scheduler" _ "http://localhost:8004"
           200 "" schedule_created); reflexivity.
Defined.

(** X16.  The failures of a proxied service are reported by the name of
    the service: a connection error as unreachable with the text of the
    error, a status outside 2xx with the status code alone, whatever the
    body of the answer. *)
Theorem proxied_failure_reported (w : World) (m : Manager)
    (tool_type : string) (parameters : dict value) (url : string) :
  in_list tool_type proxied_tools = true ->
  lookup (service_of tool_type) (mcp_clients m) = Some url ->
  (forall e, http_post w (url +:+ operation_of tool_type) = HttpRaises e ->
             cls e = RequestError ->
             _process_with_llm w m tool_type parameters
             = inl (raise_ Exception
                      ("无法连接到 " +:+ service_of tool_type +:+ " 服务: "
                       +:+ msg e)))
  /\ (forall code text json,
        http_post w (url +:+ operation_of tool_type)
        = HttpReply code text json ->
        is_success code = false ->
        _process_with_llm w m tool_type parameters
        = inl (raise_ Exception
                 (service_of tool_type +:+ " 服务返回错误: " +:+ pretty code))).
Proof.
  intros Hin Hurl. split.
  - intros e Hpost Hcls.
    proxied_cases Hin; unfold _process_with_llm, _call_mcp_service, post_json,
      is_class; simpl in *; by rewrite Hurl, Hpost, Hcls.
  - intros code text json Hpost Hcode.
    proxied_cases Hin; unfold _process_with_llm, _call_mcp_service, post_json;
      simpl in *; by rewrite Hurl, Hpost, Hcode.
Qed.

Lemma proxied_failure_reported_witness :
  _process_with_llm (serving scheduler_503) (operational scheduler_503)
    "scheduler" (parameters schedule_task)
  = inl (raise_ Exception "schedule_reminder 服务返回错误: 503").
Proof.
  refine (proj2 (proxied_failure_reported (serving scheduler_503)
                   (operational scheduler_503) "scheduler"
                   (parameters schedule_task) "http://localhost:8004"
                   _ _) 503 "Service Unavailable"
            (inl (raise_ JSONDecodeError "")) _ _); reflexivity.
Defined.

Lemma require_provider_none m :
  active_client m = None ->
  require_provider m = inl (raise_ Exception not_configured).
Proof. unfold require_provider. by intros ->. Qed.

Lemma hashable_key v : hashable v = true -> table_key v = inr ().
Proof. by destruct v. Qed.

(** [prompt_builds] is the condition under which the prompt of the
    free-text flow is obtained. *)
Lemma prompt_builds_text w parameters :
  prompt_builds parameters = true ->
  exists prompt, text_prompt w parameters = inr prompt.
Proof.
  unfold prompt_builds, text_prompt, _build_prompt_by_input_type.
  destruct (truthy (get parameters "prompt" VNone)); simpl; [by eexists|].
  intros [[H1 H2]%andb_prop H3]%andb_prop.
  rewrite !hashable_key by done. by eexists.
Qed.

(** X17.  Without an active provider the two authoring flows fail before
    any request is made, each with the configuration error behind its own
    prefix: the chart-data flow once the requirement is not empty, the
    presentation flow on every input that is not an uploaded project and
    whose prompt can be built. *)
Theorem authoring_needs_provider (w : World) (m : Manager)
    (parameters : dict value) :
  active_client m = None ->
  (truthy (get parameters "user_requirement" (VStr "")) = true ->
   _process_with_llm w m "chart_data_generator" parameters
   = inl (raise_ Exception ("生成图表数据失败: " +:+ not_configured)))
  /\ (str_eq (get parameters "input_type" (VStr "text_description"))
        "latex_project" = false ->
      prompt_builds parameters = true ->
      forall tool_type, in_list tool_type ["ppt"; "ppt_generator"] = true ->
      _process_with_llm w m tool_type parameters
      = inl (raise_ Exception ("生成PPT失败: " +:+ not_configured))).
Proof.
  intros Hnone. split.
  - intros Hreq. unfold _process_with_llm. simpl.
    unfold _generate_chart_data_with_llm.
    by rewrite Hreq, require_provider_none.
  - intros Hin Hbuilds tool_type Ht. unfold _process_with_llm. rewrite Ht.
    unfold _generate_ppt_with_llm. rewrite Hin.
    destruct (prompt_builds_text w parameters Hbuilds) as [prompt ->].
    by rewrite require_provider_none.
Qed.

Lemma authoring_needs_provider_witness :
  _process_with_llm (serving scheduler_up) init_manager
    "chart_data_generator" (parameters chart_task)
  = inl (raise_ Exception ("生成图表数据失败: " +:+ not_configured)).
Proof.
  refine (proj1 (authoring_needs_provider (serving scheduler_up) init_manager
                   (parameters chart_task) _) _); reflexivity.
Defined.

(** X18.  The project flow checks its input before it makes any request:
    a missing upload path, an unregistered presentation service and an
    upload that does not exist are reported in that order, each behind the
    prefix of the flow, whatever the provider and the services would
    answer. *)
Theorem project_checked_first (w : World) (m : Manager)
    (parameters : dict value) :
  let uploaded_file_path := get parameters "uploaded_file_path" VNone in
  (truthy uploaded_file_path = false ->
   _handle_latex_project w m parameters
   = inl (raise_ Exception "处理LaTeX项目失败: 未提供上传的文件路径"))
  /\ (truthy uploaded_file_path = true ->
      lookup "ppt_generator" (mcp_clients m) = None ->
      _handle_latex_project w m parameters
      = inl (raise_ Exception "处理LaTeX项目失败: PPT生成器服务不可用"))
  /\ (truthy uploaded_file_path = true ->
      forall url full_path,
        lookup "ppt_generator" (mcp_clients m) = Some url ->
        PyStr.truthy url = true ->
        full_file_path w uploaded_file_path = inr full_path ->
        path_exists w full_path = false ->
        _handle_latex_project w m parameters
        = inl (raise_ Exception
                 ("处理LaTeX项目失败: 上传的文件不存在: " +:+ full_path))).
Proof.
  intros uploaded_file_path. subst uploaded_file_path.
  unfold _handle_latex_project, project_source. split; [|split].
  - by intros ->.
  - by intros -> ->.
  - intros -> url full_path -> -> Hfull Hex. simpl. rewrite Hfull. simpl.
    by rewrite Hex.
Qed.

Lemma project_checked_first_witness :
  _handle_latex_project (serving scheduler_up) (operational scheduler_up) []
  = inl (raise_ Exception "处理LaTeX项目失败: 未提供上传的文件路径").
Proof.
  refine (proj1 (project_checked_first (serving scheduler_up)
                   (operational scheduler_up) []) _).
  reflexivity.
Defined.

(** X19.  The chart-data flow composes the gateway with the extraction:
    when the chart prompt is built and the provider answers it with a
    text, the result carries, as [generated_data], what
    [_extract_json_data] takes from the trimmed text, beside the
    requirement, the title and the chart type of the request. *)
Theorem chart_data_composed (w : World) (m : Manager)
    (parameters : dict value) (prompt reply : string) :
  let user_requirement := get parameters "user_requirement" (VStr "") in
  let chart_type := get parameters "chart_type" (VStr "bar") in
  let title := get parameters "title" (VStr "") in
  truthy user_requirement = true ->
  _build_chart_data_prompt w user_requirement chart_type title = inr prompt ->
  _call_llm w m
    [ {| role := "system"; content := system_chart |};
      {| role := "user"; content := VStr prompt |} ] []
  = inr (VStr reply) ->
  _process_with_llm w m "chart_data_generator" parameters
  = inr (VDict [("status", VStr "success");
                ("generated_data",
                 VStr (Extract._extract_json_data (PyStr.strip reply)));
                ("chart_type", chart_type);
                ("title", title);
                ("user_requirement", user_requirement)]).
Proof.
  intros user_requirement chart_type title Hreq Hprompt Hcall.
  unfold _process_with_llm. simpl. unfold _generate_chart_data_with_llm.
  fold user_requirement chart_type title. rewrite Hreq. simpl.
  rewrite (call_llm_needs_provider _ _ _ _ _ Hcall), Hprompt.
  destruct (call_llm_reads_config _ _ _ _ _ Hcall) as [cfg Hcfg].
  destruct (configured_model_dict m cfg Hcfg) as [model ->].
  cbn [bind]. by rewrite Hcall.
Qed.

Lemma chart_data_composed_witness :
  _process_with_llm charting (Config.initialize charting init_manager).2
    "chart_data_generator" (parameters chart_task)
  = inr (VDict [("status", VStr "success");
                ("generated_data", VStr "{}");
                ("chart_type", VStr "bar");
                ("title", VStr "");
                ("user_requirement", VStr "quarterly sales")]).
Proof.
  exact (chart_data_composed charting
           (Config.initialize charting init_manager).2
           (parameters chart_task)
           (build_chart_prompt charting (VStr "quarterly sales") (VStr "bar")
              (VStr ""))
           "Data: ```json {} ``` end"
           eq_refl eq_refl eq_refl).
Defined.

(** An unhashable chart type fails the flow at the table of descriptions,
    behind the prefix of the flow; an unhashable theme fails the free-text
    flow before its [try], so without a prefix. *)
Example unhashable_parameters :
  _process_with_llm charting (Config.initialize charting init_manager).2
    "chart_data_generator"
    [("user_requirement", VStr "sales"); ("chart_type", VList [])]
  = inl (raise_ Exception "生成图表数据失败: unhashable type: 'list'")
  /\ _process_with_llm charting (Config.initialize charting init_manager).2
       "ppt" [("content", VStr "notes"); ("theme", VDict [])]
     = inl (raise_ TypeError "unhashable type: 'dict'").
Proof. by vm_compute. Qed.

End ToolsMore.

(** * The life of a task: notifications, frame and persistence *)

Module TasksMore.
Import Py Core Tools Tasks Cases Scenario.

#[local] Arguments _update_backend_task : simpl never.

Lemma puts_update_backend task_id status result error_message m :
  backend_puts (_update_backend_task task_id status result error_message m)
  = (backend_puts m
     ++ [(task_id,
          let update_data := [("status", VStr status)] in
          let update_data :=
            if truthy result then update_data ++ [("result", result)]
            else update_data in
          if truthy error_message
          then update_data ++ [("error_message", error_message)]
          else update_data)])%list.
Proof.
  unfold _update_backend_task. simpl.
  by destruct (truthy result), (truthy error_message).
Qed.

Lemma begin_has_record task_id task_data m :
  tasks (process_task_begin task_id task_data m) !! task_id
  = Some {| status := "running"; data := task_data;
            result := VNone; error := VNone |}.
Proof. by rewrite TasksFacts.tasks_begin, lookup_insert_eq. Qed.

(** X20.  An execution notifies the task store exactly twice, in this
    order: that the task runs, then its end -- [completed] with the result
    when the result is a true value and without it otherwise, or [failed]
    with the message of the exception, which is never empty. *)
Theorem process_task_notifies (w : World) (task_id : string)
    (task_data : TaskData) (m : Manager) :
  backend_puts (process_task w task_id task_data m).2
  = (backend_puts m
    ++ [(task_id, [("status", VStr "running")]);
        (task_id,
         match _process_with_llm w (process_task_begin task_id task_data m)
                 (tool_type task_data) (parameters task_data) with
         | inr v =>
             if truthy v
             then [("status", VStr "completed"); ("result", v)]
             else [("status", VStr "completed")]
         | inl e =>
             [("status", VStr "failed"); ("error_message", VStr (msg e))]
         end)])%list.
Proof.
  unfold process_task, process_task_finish.
  destruct (_process_with_llm _ _ _ _) as [e|v] eqn:P.
  - unfold process_task_failed. cbn [snd].
    rewrite puts_update_backend. cbn [truthy backend_puts with_tasks].
    rewrite (ToolsFacts.process_with_llm_error_message _ _ _ _ _ P).
    unfold process_task_begin. rewrite puts_update_backend. simpl.
    by rewrite <- app_assoc.
  - rewrite begin_has_record. cbn [snd].
    rewrite puts_update_backend. cbn [truthy backend_puts with_tasks].
    unfold process_task_begin. rewrite puts_update_backend. simpl.
    rewrite <- app_assoc. by destruct (truthy v).
Qed.

(** X21.  An execution touches the record of its own task and the log of
    notifications, and nothing else of the manager: the records of the
    other tasks, the service registry and the whole LLM state are what
    they were. *)
Theorem process_task_frame (w : World) (task_id : string)
    (task_data : TaskData) (m : Manager) :
  let m' := (process_task w task_id task_data m).2 in
  (forall other, other <> task_id -> tasks m' !! other = tasks m !! other)
  /\ running m' = running m
  /\ mcp_clients m' = mcp_clients m
  /\ llm_clients m' = llm_clients m
  /\ llm_config m' = llm_config m
  /\ current_provider m' = current_provider m
  /\ llm_status m' = llm_status m.
Proof.
  intros m'. subst m'. split.
  - intros other Hne. unfold process_task.
    by rewrite TasksFacts.tasks_finish, lookup_alter_ne,
      TasksFacts.tasks_begin, lookup_insert_ne.
  - unfold process_task, process_task_finish, process_task_failed,
      _update_backend_task.
    by repeat case_match.
Qed.

Lemma process_task_frame_witness :
  tasks (process_task (authoring compile_ok) "t2" text_task finished).2
    !! "t1"
  = tasks finished !! "t1".
Proof.
  refine (proj1 (process_task_frame (authoring compile_ok) "t2" text_task
                   finished) "t1" _).
  discriminate.
Defined.

(** X22.  The answer of an execution, and what a status query returns
    afterwards, agree with the outcome of the dispatcher: on a result, a
    success answer that carries it and a [completed] record with the
    result and no error; on an exception, an error answer with its message
    and a [failed] record with the message and no result.  The record
    keeps the submitted mapping, whole, in both cases. *)
Theorem execution_answer_and_record (w : World) (task_id : string)
    (task_data : TaskData) (m : Manager) :
  let done := process_task w task_id task_data m in
  let data_value := VDict (task_info task_data) in
  match _process_with_llm w (process_task_begin task_id task_data m)
          (tool_type task_data) (parameters task_data) with
  | inr v =>
      done.1 = VDict [("status", VStr "success");
                      ("message", VStr "任务处理完成");
                      ("result", v)]
      /\ get_task_status task_id done.2
         = VDict [("status", VStr "completed"); ("data", data_value);
                  ("result", v); ("error", VNone)]
  | inl e =>
      done.1 = VDict [("status", VStr "error");
                      ("message", VStr ("任务处理失败: " +:+ msg e))]
      /\ get_task_status task_id done.2
         = VDict [("status", VStr "failed"); ("data", data_value);
                  ("result", VNone); ("error", VStr (msg e))]
  end.
Proof.
  intros done data_value. subst done data_value.
  unfold get_task_status. rewrite TasksFacts.process_task_record.
  unfold process_task, process_task_finish.
  destruct (_process_with_llm _ _ _ _) as [e|v]; [done|].
  by rewrite begin_has_record.
Qed.

(** X23.  A cancellation of a task that is in the map answers with
    success, notifies the task store once, with the status [cancelled]
    and nothing else, and a status query then returns the record with
    that status: the submitted mapping, the result and the error are
    what they were. *)
Theorem cancel_notifies (m : Manager) (task_id : string) (r : TaskRecord) :
  tasks m !! task_id = Some r ->
  (cancel_task task_id m).1
  = VDict [("status", VStr "success"); ("message", VStr "任务已取消")]
  /\ backend_puts (cancel_task task_id m).2
     = (backend_puts m ++ [(task_id, [("status", VStr "cancelled")])])%list
  /\ get_task_status task_id (cancel_task task_id m).2
     = VDict [("status", VStr "cancelled");
              ("data", VDict (task_info (data r)));
              ("result", result r);
              ("error", error r)].
Proof.
  intros Hr. unfold get_task_status.
  rewrite TasksFacts.tasks_cancel, lookup_alter_eq, Hr.
  unfold cancel_task. rewrite Hr. cbn [fst snd].
  by rewrite puts_update_backend.
Qed.

Lemma cancel_notifies_witness :
  backend_puts (cancel_task "t1" finished).2
  = (backend_puts finished ++ [("t1", [("status", VStr "cancelled")])])%list
  /\ get_task_status "t1" (cancel_task "t1" finished).2
     = VDict [("status", VStr "cancelled");
              ("data", VDict (task_info text_task));
              ("result", talk);
              ("error", VNone)].
Proof.
  refine (proj2 (cancel_notifies finished "t1"
            {| status := "completed"; data := text_task;
               result := talk; error := VNone |} _)).
  by vm_compute.
Defined.

(** X24.  When the record of a task is gone by the time its execution
    ends, as after a shutdown, the result is lost: the execution answers
    with the error of the missing key, the task store is told that the
    task failed with that message, and no record is created.  The id is
    one that [repr] shows between single quotes, as the text of a UUID
    is. *)
Theorem finish_without_record (m : Manager) (task_id : string) (v : value) :
  Chars.repr_plain task_id = true ->
  tasks m !! task_id = None ->
  let done := process_task_finish task_id (inr v) m in
  done.1 = VDict [("status", VStr "error");
                  ("message",
                   VStr ("任务处理失败: " +:+ "'" +:+ task_id +:+ "'"))]
  /\ tasks done.2 = tasks m
  /\ backend_puts done.2
     = (backend_puts m
        ++ [(task_id, [("status", VStr "failed");
                       ("error_message",
                        VStr ("'" +:+ task_id +:+ "'"))])])%list.
Proof.
  intros _ Hnone done. subst done. split; [|split].
  - unfold process_task_finish. by rewrite Hnone.
  - rewrite TasksFacts.tasks_finish. apply map_eq. intros i.
    rewrite lookup_alter. case_decide; [subst; by rewrite Hnone|done].
  - unfold process_task_finish. rewrite Hnone. unfold process_task_failed.
    cbn [snd]. by rewrite puts_update_backend.
Qed.

Lemma finish_without_record_witness :
  tasks (process_task_finish "t1" (inr talk)
           (Status.shutdown (process_task_begin "t1" text_task
                               (ready compile_ok)))).2
  = ∅.
Proof.
  refine (proj1 (proj2 (finish_without_record
            (Status.shutdown (process_task_begin "t1" text_task
                                (ready compile_ok))) "t1" talk _ _)));
    reflexivity.
Defined.

Lemma run_cons op ops m : run (op :: ops) m = run ops (step op m).
Proof. reflexivity. Qed.

(** X25.  No operation on the task map removes a record: a task that is
    in the map stays in it through every sequence of submissions, ends of
    executions and cancellations, and its data is what was submitted for
    it unless the sequence submits its id again. *)
Theorem records_persist (ops : list operation) (m : Manager)
    (task_id : string) (r : TaskRecord) :
  tasks m !! task_id = Some r ->
  exists r', tasks (run ops m) !! task_id = Some r'
    /\ (Forall (fun op => forall task_data,
                  op <> Submit task_id task_data) ops ->
        data r' = data r).
Proof.
  revert m r. induction ops as [|op ops IH]; intros m r Hr.
  - by exists r.
  - rewrite run_cons.
    assert (exists r1, tasks (step op m) !! task_id = Some r1
              /\ ((forall task_data, op <> Submit task_id task_data) ->
                  data r1 = data r)) as (r1 & Hr1 & Hd1).
    { destruct op as [i task_data|i outcome|i]; simpl.
      - destruct (running m); [|by exists r].
        rewrite TasksFacts.tasks_begin.
        destruct (decide (i = task_id)) as [->|Hne].
        + rewrite lookup_insert_eq. eexists. split; [done|].
          intros H. by destruct (H task_data).
        + rewrite lookup_insert_ne by done. by exists r.
      - rewrite TasksFacts.tasks_finish.
        destruct (decide (i = task_id)) as [->|Hne].
        + rewrite lookup_alter_eq, Hr. eexists. split; [done|].
          by destruct outcome.
        + rewrite lookup_alter_ne by done. by exists r.
      - rewrite TasksFacts.tasks_cancel.
        destruct (decide (i = task_id)) as [->|Hne].
        + rewrite lookup_alter_eq, Hr. by eexists.
        + rewrite lookup_alter_ne by done. by exists r. }
    destruct (IH _ _ Hr1) as (r' & Hr' & Hd').
    exists r'. split; [done|].
    intros Hall. apply Forall_cons in Hall as [H1 Hall].
    rewrite (Hd' Hall). by apply Hd1.
Qed.

Lemma records_persist_witness :
  exists r', tasks (run [Cancel "t1"; Finish "t1" (inl rate_limited);
                         Submit "t2" text_task] finished) !! "t1" = Some r'
             /\ data r' = text_task.
Proof.
  destruct (records_persist
              [Cancel "t1"; Finish "t1" (inl rate_limited);
               Submit "t2" text_task] finished "t1"
              {| status := "completed"; data := text_task;
                 result := talk; error := VNone |})
    as (r' & Hr' & Hd').
  - by vm_compute.
  - exists r'. split; [exact Hr'|]. apply Hd'.
    repeat constructor; intros task_data; discriminate.
Defined.

End TasksMore.

(** * Status, reload and submission *)

Module StatusMore.
Import Py Core Config Gateway Status Routes Submission Scenario.

(** X26.  On a manager whose active provider has a client, as every load
    leaves it, a status report that says [configured] is backed by a
    client that [_call_llm] uses: the provider it reports has a client,
    and every call is the call of the adapter of that provider's family
    on that client; it is not refused as not configured. *)
Theorem configured_means_callable (m : Manager) (report : dict value) :
  coherent m ->
  get_llm_status m = inr (VDict report) ->
  lookup "configured" report = Some (VBool true) ->
  exists provider client,
    lookup "provider" report = Some (VStr provider)
    /\ lookup provider (llm_clients m) = Some client
    /\ forall w messages kwargs,
         _call_llm w m messages kwargs
         = if in_list provider openai_compatible then
             _call_openai_compatible w m client messages kwargs
           else if String.eqb provider "anthropic" then
             _call_anthropic w m client messages kwargs
           else if String.eqb provider "gemini" then
             _call_gemini w m client messages kwargs
           else inl (raise_ Exception ("不支持的LLM提供商: " +:+ provider)).
Proof.
  intros Hco Hget Hconf. unfold get_llm_status in Hget.
  destruct (is_configured m) as [e|configured] eqn:Hc; [done|].
  cbn [bind] in Hget.
  repeat match type of Hget with
         | bind ?x _ = _ => destruct x; [done|]; cbn [bind] in Hget
         end.
  injection Hget as <-. cbn in Hconf. injection Hconf as ->.
  unfold is_configured in Hc.
  destruct (truthy (provider_value m) && truthy (llm_config m)) eqn:Hif;
    [|done].
  apply andb_true_iff in Hif as [Hp _]. unfold provider_value in Hp |- *.
  destruct (current_provider m) as [provider|] eqn:Hcur; [|done].
  destruct (Hco provider Hcur) as [Hmem _]. unfold mem in Hmem.
  destruct (lookup provider (llm_clients m)) as [client|] eqn:Hl; [|done].
  exists provider, client. split; [done|]. split; [done|].
  intros w messages kwargs. unfold _call_llm, active_client.
  simpl in Hp. by rewrite Hcur, Hp, Hl.
Qed.

Lemma configured_means_callable_witness :
  exists client,
    lookup "openai" (llm_clients (manager_with "openai")) = Some client
    /\ forall w messages kwargs,
         _call_llm w (manager_with "openai") messages kwargs
         = _call_openai_compatible w (manager_with "openai") client
             messages kwargs.
Proof.
  edestruct (configured_means_callable (manager_with "openai"))
    as (provider & client & Hp & Hl & Hcall).
  - intros p Hp. vm_compute in Hp. injection Hp as <-.
    split; [reflexivity|]. eexists. reflexivity.
  - vm_compute. reflexivity.
  - reflexivity.
  - injection Hp as <-. exists client. split; [exact Hl|].
    intros w messages kwargs. exact (Hcall w messages kwargs).
Defined.

(** X27.  Neither the load of the LLM configuration nor its reload
    touches anything but the LLM state: the task map, the running flag,
    the service registry and the log of notifications are what they
    were, whatever the outcome. *)
Theorem reload_keeps_tasks (reloaded : may_raise unit) (w : World)
    (m : Manager) :
  same_registry m (_load_llm_config w m).2
  /\ same_registry m (reload_llm_config reloaded w m).2.
Proof.
  split; [apply ConfigMore.load_registry|].
  unfold reload_llm_config. destruct reloaded as [e|[]].
  - apply ConfigMore.same_registry_refl.
  - pose proof (ConfigMore.load_registry w m) as H.
    destruct (_load_llm_config w m) as [success m1]. simpl in H.
    by repeat case_match.
Qed.

(** X28.  The submission route never answers 400: the [HTTPException]
    it raises for a missing task id is caught by its own handler and
    answered as a 500 whose detail is the text of that exception.  With
    a task id it answers with success; the execution is started only
    when the manager runs, and otherwise the submission is dropped. *)
Theorem submit_task_answers (http_str : nat -> string -> string)
    (task_data : dict value) (m : Manager) :
  let task_id := get task_data "task_id" VNone in
  (truthy task_id = false ->
   submit_task http_str task_data m
   = (HTTPException 500 (http_str 400 "缺少 task_id"), None))
  /\ (truthy task_id = true ->
      exists message,
        submit_task http_str task_data m
        = (Ok200 (VDict [("success", VBool true);
                         ("task_id", task_id);
                         ("message", VStr message)]),
           if running m
           then Some {| job_task_id := task_id;
                        job_task_info :=
                          get task_data "task_data" (VDict []) |}
           else None))
  /\ (forall detail,
        (submit_task http_str task_data m).1 <> HTTPException 400 detail).
Proof.
  intros task_id. subst task_id. unfold submit_task, submit_body.
  destruct (truthy (get task_data "task_id" VNone)); simpl.
  - split; [done|]. split; [|by destruct (running m)].
    intros _. destruct (running m); simpl; by eexists.
  - split; [done|]. by split.
Qed.

Lemma submit_task_answers_witness :
  submit_task (fun _ detail => detail) [("task_data", VDict [])]
    init_manager
  = (HTTPException 500 "缺少 task_id", None).
Proof.
  refine (proj1 (submit_task_answers (fun _ detail => detail)
                   [("task_data", VDict [])] init_manager) _).
  reflexivity.
Defined.

End StatusMore.

